(** * libcamera_ros_driver: the capture-request lifecycle of [LibcameraRosDriver]

    A shallow embedding of [src/libcamera_ros_driver.cpp]: the nodelet's
    member functions [onInit], [declareControlParameters],
    [updateControlParameter], [requestComplete] and the destructor become
    functions over an explicit [State] (the members of the class, the camera
    behind [camera_], the mappings of the process and the ROS side: log,
    shutdown request, publisher).

    Conventions.
    - C++ unsigned integers are [Z] with the wrap-around written out
      ([wrap32], [wrap_size]).  [size_t] is taken as 64 bits.
    - A pointer that the code dereferences is an [option]; dereferencing
      [None] is the fault [NullDereference].  Undefined behaviour, failed
      [assert]s and uncaught exceptions end the run with [Crash].
    - [return] in the middle of a body is the result [Return]; a body that runs
      to its end gives [Next].
    - What the translation unit takes from headers that are not part of the
      file ([utils/*.h]) is collected in the record [Utils] and is a parameter
      of the development. *)

From stdpp Require Import gmap strings list fin_maps.
From Stdlib Require Import ZArith Lia.
From Stdlib.Strings Require Import Byte.

Local Open Scope Z_scope.

(** ** Machine integers *)

Definition wrap32 (x : Z) : Z := x mod 2 ^ 32.
Definition wrap_size (x : Z) : Z := x mod 2 ^ 64.
Definition INT_MAX : Z := 2 ^ 31 - 1.

(** ** Results of running a body *)

Inductive Fault :=
  | NullDereference      (* [p->m] with [p == nullptr] *)
  | AssertionFailed      (* [assert(e)] with [e] false *)
  | OutOfBounds          (* [memcpy] outside the mapped region or the vector *)
  | SignedOverflow       (* [i++] on [INT_MAX] *)
  | UncaughtException.   (* [std::out_of_range], [std::runtime_error] *)

Inductive Result (R A : Type) :=
  | Next (a : A)         (* fell through to the next statement *)
  | Return (r : R)       (* executed [return] *)
  | Crash (f : Fault).
Arguments Next {R A} a.
Arguments Return {R A} r.
Arguments Crash {R A} f.

Definition bind {R A B} (m : Result R A) (k : A → Result R B) : Result R B :=
  match m with
  | Next a => k a
  | Return r => Return r
  | Crash f => Crash f
  end.

#[global] Instance Result_bind {R} : MBind (Result R) := λ A B k m, bind m k.
#[global] Instance Result_ret {R} : MRet (Result R) := λ A a, Next a.

Definition assert {R} (b : bool) : Result R unit :=
  if b then Next tt else Crash AssertionFailed.

Definition deref {R A} (p : option A) : Result R A :=
  match p with
  | Some a => Next a
  | None => Crash NullDereference
  end.

(** A call seen from the caller: the callee's [return] is where the caller
    goes on. *)
Definition call {R R'} (m : Result R R) : Result R' R :=
  match m with
  | Next r | Return r => Next r
  | Crash f => Crash f
  end.

(** The state a call leaves behind, however the body was left. *)
Definition final {S} (r : Result S S) : option S :=
  match r with
  | Next s | Return s => Some s
  | Crash _ => None
  end.

(** ** libcamera data, as far as the driver looks at it *)

Inductive ControlType :=
  | ControlTypeNone | ControlTypeBool | ControlTypeByte
  | ControlTypeInteger32 | ControlTypeInteger64 | ControlTypeFloat
  | ControlTypeString | ControlTypeRectangle | ControlTypeSize.

#[global] Instance ControlType_eq_dec : EqDecision ControlType.
Proof. solve_decision. Defined.

(** A [ControlValue]: its type tag, whether it is an array, and its elements
    as raw words (integers as their value, booleans as 0/1, a float as its bit
    pattern: no arithmetic is done on a float here). *)
Record ControlValue := {
  cv_type : ControlType;
  cv_isArray : bool;
  cv_elements : list Z;
}.

#[global] Instance ControlValue_eq_dec : EqDecision ControlValue.
Proof. solve_decision. Defined.

Definition isNone (v : ControlValue) : bool :=
  bool_decide (cv_type v = ControlTypeNone).
Definition numElements (v : ControlValue) : nat := length (cv_elements v).

(** [const ControlId *]: the object stands for its address. *)
Record ControlId := {
  cid_id : N;
  cid_name : string;
  cid_type : ControlType;
}.

#[global] Instance ControlId_eq_dec : EqDecision ControlId.
Proof. solve_decision. Defined.

Record ControlInfo := {
  ci_min : ControlValue;
  ci_max : ControlValue;
  ci_def : ControlValue;
}.

(** [ControlInfoMap]: the entries in the order the iteration visits them. *)
Definition ControlInfoMap := list (ControlId * ControlInfo).

Fixpoint controls_at (m : ControlInfoMap) (id : ControlId) : option ControlInfo :=
  match m with
  | [] => None
  | (k, ci) :: m' => if decide (k = id) then Some ci else controls_at m' id
  end.

(** [ControlList]: values by numeric control id. *)
Abbreviation ControlList := (gmap N ControlValue).

Record PixelFormat := { fourcc : N; modifier : N }.

#[global] Instance PixelFormat_eq_dec : EqDecision PixelFormat.
Proof. solve_decision. Defined.

Record StreamConfiguration := {
  pixelFormat : PixelFormat;
  width : Z;            (* cfg.size.width, unsigned int *)
  height : Z;           (* cfg.size.height, unsigned int *)
  stride : Z;           (* unsigned int *)
}.

Record Stream := {
  stream_addr : N;
  configuration : StreamConfiguration;
}.

Definition kInvalidOffset : Z := 2 ^ 32 - 1.

(** [FrameBuffer::Plane]; a [SharedFD] is valid when it is not -1. *)
Record Plane := {
  plane_fd : Z;
  plane_offset : Z;     (* unsigned int *)
  plane_length : Z;     (* unsigned int *)
}.

Definition fd_isValid (fd : Z) : bool := negb (fd =? -1).

Record FrameMetadata := {
  timestamp : Z;                (* uint64_t, nanoseconds of the device clock *)
  metadata_planes : list Z;     (* bytesused of each plane, unsigned int *)
}.

Record FrameBuffer := {
  fb_addr : N;
  planes : list Plane;
  metadata : FrameMetadata;
}.

Inductive RequestStatus := RequestPending | RequestComplete | RequestCancelled.

#[global] Instance RequestStatus_eq_dec : EqDecision RequestStatus.
Proof. solve_decision. Defined.

Inductive ReuseFlag := Default | ReuseBuffers.

(** A [Request]: [buffers] maps a stream (by address) to its buffer. *)
Record Request := {
  cookie : N;
  status : RequestStatus;
  controls : gmap N ControlValue;
  buffers : gmap N FrameBuffer;
}.

Definition findBuffer (r : Request) (s : option Stream) : option FrameBuffer :=
  s ≫= λ s, buffers r !! stream_addr s.

(** [Request::reuse] of libcamera: status back to pending, the control list
    cleared, the buffers kept under [ReuseBuffers] and dropped otherwise. *)
Definition reuse (r : Request) (flags : ReuseFlag) : Request :=
  {| cookie := cookie r;
     status := RequestPending;
     controls := ∅;
     buffers := match flags with ReuseBuffers => buffers r | Default => ∅ end |}.

(** [request->controls().set(id, value)]. *)
Definition controls_set (r : Request) (id : N) (value : ControlValue) : Request :=
  {| cookie := cookie r;
     status := status r;
     controls := <[id := value]> (controls r);
     buffers := buffers r |}.

(** [Request::addBuffer]: a stream holds one buffer; a null stream and a
    second buffer for a stream are refused with a negative error code. *)
Definition addBuffer (r : Request) (s : option Stream) (b : FrameBuffer)
  : Z * Request :=
  match s with
  | None => (-22, r)
  | Some s =>
      match buffers r !! stream_addr s with
      | Some _ => (-17, r)
      | None =>
          (0, {| cookie := cookie r;
                 status := status r;
                 controls := controls r;
                 buffers := <[stream_addr s := b]> (buffers r) |})
      end
  end.

Inductive ConfigStatus := Valid | Adjusted | Invalid.

(** [StreamFormats]: the sizes (width, height) each pixel format comes in. *)
Definition StreamFormats := list (PixelFormat * list (Z * Z)).

Definition pixelformats (f : StreamFormats) : list PixelFormat := f.*1.

Fixpoint sizes (f : StreamFormats) (p : PixelFormat) : list (Z * Z) :=
  match f with
  | [] => []
  | (q, l) :: f' => if decide (q = p) then l else sizes f' p
  end.

(** A [libcamera::Camera]: how the device answers the calls of the driver,
    and the state the calls change. *)
Record Camera := {
  cam_id : string;
  cam_acquire : Z;                                   (* acquire() *)
  (* generateConfiguration({role}): the configuration at(0) and its
     formats(), or nullptr *)
  cam_generateConfiguration : N → option (StreamConfiguration * StreamFormats);
  (* validate(): the status and the configuration it leaves in place *)
  cam_validate : StreamConfiguration → ConfigStatus * StreamConfiguration;
  cam_configure : StreamConfiguration → Z;           (* configure() *)
  cam_stream : N;                                    (* scfg.stream() *)
  cam_controls : ControlInfoMap;                     (* controls() *)
  cam_buffers : list FrameBuffer;                    (* allocator_->buffers(stream_) *)
  cam_createRequest : nat → option Request;          (* the n-th createRequest() *)
  cam_start : Z;                                     (* start() *)
  cam_connected : bool;                              (* requestCompleted has a slot *)
  cam_running : bool;
  cam_queue : list Request;
}.

Definition set_cam_connected (c : Camera) (b : bool) : Camera :=
  {| cam_id := cam_id c; cam_acquire := cam_acquire c;
     cam_generateConfiguration := cam_generateConfiguration c;
     cam_validate := cam_validate c; cam_configure := cam_configure c;
     cam_stream := cam_stream c; cam_controls := cam_controls c;
     cam_buffers := cam_buffers c; cam_createRequest := cam_createRequest c;
     cam_start := cam_start c; cam_connected := b;
     cam_running := cam_running c; cam_queue := cam_queue c |}.

Definition set_cam_running (c : Camera) (b : bool) : Camera :=
  {| cam_id := cam_id c; cam_acquire := cam_acquire c;
     cam_generateConfiguration := cam_generateConfiguration c;
     cam_validate := cam_validate c; cam_configure := cam_configure c;
     cam_stream := cam_stream c; cam_controls := cam_controls c;
     cam_buffers := cam_buffers c; cam_createRequest := cam_createRequest c;
     cam_start := cam_start c; cam_connected := cam_connected c;
     cam_running := b; cam_queue := cam_queue c |}.

Definition set_cam_queue (c : Camera) (q : list Request) : Camera :=
  {| cam_id := cam_id c; cam_acquire := cam_acquire c;
     cam_generateConfiguration := cam_generateConfiguration c;
     cam_validate := cam_validate c; cam_configure := cam_configure c;
     cam_stream := cam_stream c; cam_controls := cam_controls c;
     cam_buffers := cam_buffers c; cam_createRequest := cam_createRequest c;
     cam_start := cam_start c; cam_connected := cam_connected c;
     cam_running := cam_running c; cam_queue := q |}.

(** [Camera::queueRequest]: accepted only while the camera runs; the driver
    ignores the error code. *)
Definition queueRequest (c : Camera) (r : Request) : Camera :=
  if cam_running c then set_cam_queue c (cam_queue c ++ [r]) else c.

(** ** ROS messages *)

Inductive Severity := INFO | WARN | ERROR.

#[global] Instance Severity_eq_dec : EqDecision Severity.
Proof. solve_decision. Defined.

(** [std_msgs::Header]; a time is kept in integer nanoseconds. *)
Record Header := {
  stamp : Z;
  frame_id : string;
}.

Record Image := {
  img_header : Header;
  img_width : Z;
  img_height : Z;
  img_encoding : string;
  img_is_bigendian : bool;
  img_step : Z;
  img_data : list byte;
}.

Record CameraInfo := {
  cinfo_header : Header;
  cinfo_calibration : string;
}.

(** [camera_info_manager::CameraInfoManager], made from the camera name and
    the calibration url. *)
Record CameraInfoManager := {
  cim_cname : string;
  cim_url : string;
}.

Definition getCameraInfo (m : CameraInfoManager) : CameraInfo :=
  {| cinfo_header := {| stamp := 0; frame_id := EmptyString |};
     cinfo_calibration := cim_url m |}.

(** ** What the headers outside the file provide *)

Inductive FormatType := RAW | NONRAW.

#[global] Instance FormatType_eq_dec : EqDecision FormatType.
Proof. solve_decision. Defined.

(** A value of a C++ variable before [pv_to_cv] turns it into a
    [ControlValue]. *)
Inductive PrimValue :=
  | PvInt (z : Z)
  | PvFloat (bits : Z)
  | PvBool (b : bool)
  | PvVectorInt (l : list Z).

Record Utils := {
  (* utils/type_extent.h; [None]: throws std::runtime_error *)
  get_extent : ControlId → option Z;
  (* utils/clamp.h: operator< and operator> on ControlValue *)
  value_lt : ControlValue → ControlValue → bool;
  value_gt : ControlValue → ControlValue → bool;
  (* utils/pv_to_cv.h *)
  pv_to_cv : PrimValue → ControlType → ControlValue;
  (* utils/control_mapping.h *)
  get_ae_constraint_mode : string → Z;
  get_awb_mode : string → Z;
  get_ae_metering_mode : string → Z;
  get_ae_exposure_mode : string → Z;
  (* utils/stream_mapping.h; [None]: throws *)
  get_role : string → option N;
  (* utils/format_mapping.h *)
  get_common_stream_formats : StreamFormats → StreamFormats;
  format_type : PixelFormat → FormatType;
  get_ros_encoding : PixelFormat → string;
  (* [1000000 / param_float] truncated to int64_t: the float division is
     not computed here *)
  frame_time_of_fps : Z → Z;
  (* [__BYTE_ORDER__ == __ORDER_BIG_ENDIAN__] of the target *)
  byte_order_big_endian : bool;
}.

(** ** What the process finds around it *)

Definition PROT_READ : Z := 1.
Definition MAP_SHARED : Z := 1.

(** The arguments of a call of [mmap]. *)
Record MmapArgs := {
  mm_addr : Z;
  mm_length : Z;
  mm_prot : Z;
  mm_flags : Z;
  mm_fd : Z;
  mm_offset : Z;
}.

Record Environment := {
  (* nh_.getParam, by the type of the variable it fills *)
  getParam_string : string → option string;
  getParam_int : string → option Z;
  getParam_bool : string → option bool;
  getParam_float : string → option Z;
  getParam_vector_int : string → option (list Z);
  (* camera_manager_.cameras() *)
  cameras : list (option Camera);
  (* libcamera::PixelFormat::fromString *)
  PixelFormat_fromString : string → PixelFormat;
  (* mmap(2); [None]: MAP_FAILED *)
  sys_mmap : MmapArgs → option Z;
}.

Definition PixelFormat_isValid (p : PixelFormat) : bool := negb (fourcc p =? 0)%N.

(** ** The nodelet *)

Record buffer_info_t := {
  bi_data : Z;          (* void *data: the address, 0 for nullptr *)
  bi_size : Z;          (* size_t size *)
}.

Record State := {
  camera_ : option Camera;
  stream_ : option Stream;
  (* the requests as [onInit] made them; the device fills these objects
     and hands one of them to the handler at each completion *)
  requests_ : list Request;
  frame_id_ : string;
  _use_ros_time_ : bool;
  remove_stride_ : bool;
  start_time_offset_ : Z;
  start_time_offset_obtained_ : bool;
  buffer_info_ : gmap N buffer_info_t;
  cinfo_ : option CameraInfoManager;
  parameter_ids_ : gmap string (option ControlId);
  parameters_ : gmap N ControlValue;
  (* the ROS side *)
  ros_log : list (Severity * string);
  ros_shutdown : bool;
  image_pub_ : list (Image * CameraInfo);
  (* the mappings [mmap] has made: address and arguments *)
  address_space : list (Z * MmapArgs);
}.

Definition set_camera_ (st : State) (x : option Camera) : State :=
  {| camera_ := x; stream_ := stream_ st; requests_ := requests_ st;
     frame_id_ := frame_id_ st; _use_ros_time_ := _use_ros_time_ st;
     remove_stride_ := remove_stride_ st;
     start_time_offset_ := start_time_offset_ st;
     start_time_offset_obtained_ := start_time_offset_obtained_ st;
     buffer_info_ := buffer_info_ st; cinfo_ := cinfo_ st;
     parameter_ids_ := parameter_ids_ st; parameters_ := parameters_ st;
     ros_log := ros_log st; ros_shutdown := ros_shutdown st;
     image_pub_ := image_pub_ st; address_space := address_space st |}.

Definition set_stream_ (st : State) (x : option Stream) : State :=
  {| camera_ := camera_ st; stream_ := x; requests_ := requests_ st;
     frame_id_ := frame_id_ st; _use_ros_time_ := _use_ros_time_ st;
     remove_stride_ := remove_stride_ st;
     start_time_offset_ := start_time_offset_ st;
     start_time_offset_obtained_ := start_time_offset_obtained_ st;
     buffer_info_ := buffer_info_ st; cinfo_ := cinfo_ st;
     parameter_ids_ := parameter_ids_ st; parameters_ := parameters_ st;
     ros_log := ros_log st; ros_shutdown := ros_shutdown st;
     image_pub_ := image_pub_ st; address_space := address_space st |}.

Definition set_requests_ (st : State) (x : list Request) : State :=
  {| camera_ := camera_ st; stream_ := stream_ st; requests_ := x;
     frame_id_ := frame_id_ st; _use_ros_time_ := _use_ros_time_ st;
     remove_stride_ := remove_stride_ st;
     start_time_offset_ := start_time_offset_ st;
     start_time_offset_obtained_ := start_time_offset_obtained_ st;
     buffer_info_ := buffer_info_ st; cinfo_ := cinfo_ st;
     parameter_ids_ := parameter_ids_ st; parameters_ := parameters_ st;
     ros_log := ros_log st; ros_shutdown := ros_shutdown st;
     image_pub_ := image_pub_ st; address_space := address_space st |}.

Definition set_frame_id_ (st : State) (x : string) : State :=
  {| camera_ := camera_ st; stream_ := stream_ st; requests_ := requests_ st;
     frame_id_ := x; _use_ros_time_ := _use_ros_time_ st;
     remove_stride_ := remove_stride_ st;
     start_time_offset_ := start_time_offset_ st;
     start_time_offset_obtained_ := start_time_offset_obtained_ st;
     buffer_info_ := buffer_info_ st; cinfo_ := cinfo_ st;
     parameter_ids_ := parameter_ids_ st; parameters_ := parameters_ st;
     ros_log := ros_log st; ros_shutdown := ros_shutdown st;
     image_pub_ := image_pub_ st; address_space := address_space st |}.

Definition set__use_ros_time_ (st : State) (x : bool) : State :=
  {| camera_ := camera_ st; stream_ := stream_ st; requests_ := requests_ st;
     frame_id_ := frame_id_ st; _use_ros_time_ := x;
     remove_stride_ := remove_stride_ st;
     start_time_offset_ := start_time_offset_ st;
     start_time_offset_obtained_ := start_time_offset_obtained_ st;
     buffer_info_ := buffer_info_ st; cinfo_ := cinfo_ st;
     parameter_ids_ := parameter_ids_ st; parameters_ := parameters_ st;
     ros_log := ros_log st; ros_shutdown := ros_shutdown st;
     image_pub_ := image_pub_ st; address_space := address_space st |}.

Definition set_remove_stride_ (st : State) (x : bool) : State :=
  {| camera_ := camera_ st; stream_ := stream_ st; requests_ := requests_ st;
     frame_id_ := frame_id_ st; _use_ros_time_ := _use_ros_time_ st;
     remove_stride_ := x; start_time_offset_ := start_time_offset_ st;
     start_time_offset_obtained_ := start_time_offset_obtained_ st;
     buffer_info_ := buffer_info_ st; cinfo_ := cinfo_ st;
     parameter_ids_ := parameter_ids_ st; parameters_ := parameters_ st;
     ros_log := ros_log st; ros_shutdown := ros_shutdown st;
     image_pub_ := image_pub_ st; address_space := address_space st |}.

Definition set_buffer_info_ (st : State) (x : gmap N buffer_info_t) : State :=
  {| camera_ := camera_ st; stream_ := stream_ st; requests_ := requests_ st;
     frame_id_ := frame_id_ st; _use_ros_time_ := _use_ros_time_ st;
     remove_stride_ := remove_stride_ st;
     start_time_offset_ := start_time_offset_ st;
     start_time_offset_obtained_ := start_time_offset_obtained_ st;
     buffer_info_ := x; cinfo_ := cinfo_ st;
     parameter_ids_ := parameter_ids_ st; parameters_ := parameters_ st;
     ros_log := ros_log st; ros_shutdown := ros_shutdown st;
     image_pub_ := image_pub_ st; address_space := address_space st |}.

Definition set_cinfo_ (st : State) (x : option CameraInfoManager) : State :=
  {| camera_ := camera_ st; stream_ := stream_ st; requests_ := requests_ st;
     frame_id_ := frame_id_ st; _use_ros_time_ := _use_ros_time_ st;
     remove_stride_ := remove_stride_ st;
     start_time_offset_ := start_time_offset_ st;
     start_time_offset_obtained_ := start_time_offset_obtained_ st;
     buffer_info_ := buffer_info_ st; cinfo_ := x;
     parameter_ids_ := parameter_ids_ st; parameters_ := parameters_ st;
     ros_log := ros_log st; ros_shutdown := ros_shutdown st;
     image_pub_ := image_pub_ st; address_space := address_space st |}.

Definition set_parameter_ids_ (st : State) (x : gmap string (option ControlId)) : State :=
  {| camera_ := camera_ st; stream_ := stream_ st; requests_ := requests_ st;
     frame_id_ := frame_id_ st; _use_ros_time_ := _use_ros_time_ st;
     remove_stride_ := remove_stride_ st;
     start_time_offset_ := start_time_offset_ st;
     start_time_offset_obtained_ := start_time_offset_obtained_ st;
     buffer_info_ := buffer_info_ st; cinfo_ := cinfo_ st;
     parameter_ids_ := x; parameters_ := parameters_ st;
     ros_log := ros_log st; ros_shutdown := ros_shutdown st;
     image_pub_ := image_pub_ st; address_space := address_space st |}.

Definition set_parameters_ (st : State) (x : gmap N ControlValue) : State :=
  {| camera_ := camera_ st; stream_ := stream_ st; requests_ := requests_ st;
     frame_id_ := frame_id_ st; _use_ros_time_ := _use_ros_time_ st;
     remove_stride_ := remove_stride_ st;
     start_time_offset_ := start_time_offset_ st;
     start_time_offset_obtained_ := start_time_offset_obtained_ st;
     buffer_info_ := buffer_info_ st; cinfo_ := cinfo_ st;
     parameter_ids_ := parameter_ids_ st; parameters_ := x;
     ros_log := ros_log st; ros_shutdown := ros_shutdown st;
     image_pub_ := image_pub_ st; address_space := address_space st |}.

(** [start_time_offset_ = d; start_time_offset_obtained_ = true]. *)
Definition set_start_time_offset_ (st : State) (d : Z) : State :=
  {| camera_ := camera_ st; stream_ := stream_ st; requests_ := requests_ st;
     frame_id_ := frame_id_ st; _use_ros_time_ := _use_ros_time_ st;
     remove_stride_ := remove_stride_ st; start_time_offset_ := d;
     start_time_offset_obtained_ := true; buffer_info_ := buffer_info_ st;
     cinfo_ := cinfo_ st; parameter_ids_ := parameter_ids_ st;
     parameters_ := parameters_ st; ros_log := ros_log st;
     ros_shutdown := ros_shutdown st; image_pub_ := image_pub_ st;
     address_space := address_space st |}.

(** [ROS_INFO], [ROS_WARN], [ROS_ERROR] and their stream forms: the text of
    the message, without the rendering of camera objects and numbers. *)
Definition ros_print (st : State) (sev : Severity) (msg : string) : State :=
  {| camera_ := camera_ st; stream_ := stream_ st; requests_ := requests_ st;
     frame_id_ := frame_id_ st; _use_ros_time_ := _use_ros_time_ st;
     remove_stride_ := remove_stride_ st;
     start_time_offset_ := start_time_offset_ st;
     start_time_offset_obtained_ := start_time_offset_obtained_ st;
     buffer_info_ := buffer_info_ st; cinfo_ := cinfo_ st;
     parameter_ids_ := parameter_ids_ st; parameters_ := parameters_ st;
     ros_log := ros_log st ++ [(sev, msg)]; ros_shutdown := ros_shutdown st;
     image_pub_ := image_pub_ st; address_space := address_space st |}.

Definition ROS_INFO (msg : string) (st : State) : State := ros_print st INFO msg.
Definition ROS_WARN (msg : string) (st : State) : State := ros_print st WARN msg.
Definition ROS_ERROR (msg : string) (st : State) : State := ros_print st ERROR msg.

(** [ros::shutdown()]: the request to shut the node down. *)
Definition ros_shutdown_call (st : State) : State :=
  {| camera_ := camera_ st; stream_ := stream_ st; requests_ := requests_ st;
     frame_id_ := frame_id_ st; _use_ros_time_ := _use_ros_time_ st;
     remove_stride_ := remove_stride_ st;
     start_time_offset_ := start_time_offset_ st;
     start_time_offset_obtained_ := start_time_offset_obtained_ st;
     buffer_info_ := buffer_info_ st; cinfo_ := cinfo_ st;
     parameter_ids_ := parameter_ids_ st; parameters_ := parameters_ st;
     ros_log := ros_log st; ros_shutdown := true;
     image_pub_ := image_pub_ st; address_space := address_space st |}.

(** [image_pub_.publish(image_msg, cinfo_msg)]. *)
Definition image_pub_publish (st : State) (img : Image) (ci : CameraInfo) : State :=
  {| camera_ := camera_ st; stream_ := stream_ st; requests_ := requests_ st;
     frame_id_ := frame_id_ st; _use_ros_time_ := _use_ros_time_ st;
     remove_stride_ := remove_stride_ st;
     start_time_offset_ := start_time_offset_ st;
     start_time_offset_obtained_ := start_time_offset_obtained_ st;
     buffer_info_ := buffer_info_ st; cinfo_ := cinfo_ st;
     parameter_ids_ := parameter_ids_ st; parameters_ := parameters_ st;
     ros_log := ros_log st; ros_shutdown := ros_shutdown st;
     image_pub_ := image_pub_ st ++ [(img, ci)];
     address_space := address_space st |}.

(** A successful [mmap]. *)
Definition add_mapping (st : State) (addr : Z) (a : MmapArgs) : State :=
  {| camera_ := camera_ st; stream_ := stream_ st; requests_ := requests_ st;
     frame_id_ := frame_id_ st; _use_ros_time_ := _use_ros_time_ st;
     remove_stride_ := remove_stride_ st;
     start_time_offset_ := start_time_offset_ st;
     start_time_offset_obtained_ := start_time_offset_obtained_ st;
     buffer_info_ := buffer_info_ st; cinfo_ := cinfo_ st;
     parameter_ids_ := parameter_ids_ st; parameters_ := parameters_ st;
     ros_log := ros_log st; ros_shutdown := ros_shutdown st;
     image_pub_ := image_pub_ st;
     address_space := address_space st ++ [(addr, a)] |}.

Definition tag : string := "[LibcameraRosDriver]: ".

(** The members as the constructor leaves them. *)
Definition State_init : State :=
  {| camera_ := None; stream_ := None; requests_ := []; frame_id_ := EmptyString;
     _use_ros_time_ := false; remove_stride_ := false;
     start_time_offset_ := 0; start_time_offset_obtained_ := false;
     buffer_info_ := ∅; cinfo_ := None; parameter_ids_ := ∅;
     parameters_ := ∅; ros_log := []; ros_shutdown := false;
     image_pub_ := []; address_space := [] |}.

(** ** Memory *)

(** The bytes the process can read, by address; [None] where nothing is
    mapped. *)
Definition Memory := Z → option byte.

Fixpoint read_bytes (mem : Memory) (addr : Z) (n : nat) : option (list byte) :=
  match n with
  | O => Some []
  | S n' =>
      b ← mem addr;
      bs ← read_bytes mem (addr + 1) n';
      Some (b :: bs)
  end.

(** [memcpy(dst.data() + off, src, n)] into a vector [dst]: the bytes read
    must be mapped and the bytes written must lie inside the vector. *)
Definition memcpy {R} (dst : list byte) (off : Z) (mem : Memory) (src n : Z)
  : Result R (list byte) :=
  match read_bytes mem src (Z.to_nat n) with
  | None => Crash OutOfBounds
  | Some bs =>
      if (0 <=? off) && (off + n <=? Z.of_nat (length dst)) then
        Next (take (Z.to_nat off) dst ++ bs ++ drop (Z.to_nat (off + n)) dst)
      else Crash OutOfBounds
  end.

(** [std::vector<uint8_t>::resize(n)] on an empty vector. *)
Definition resize (n : Z) : list byte := replicate (Z.to_nat n) x00.

(** [buffer_info_[buffer]]: [operator[]] of the unordered map, which
    inserts a value-initialised entry for a key it does not hold. *)
Definition buffer_info_index (st : State) (buffer : FrameBuffer)
  : buffer_info_t * State :=
  match buffer_info_ st !! fb_addr buffer with
  | Some bi => (bi, st)
  | None =>
      let bi := {| bi_data := 0; bi_size := 0 |} in
      (bi, set_buffer_info_ st (<[fb_addr buffer := bi]> (buffer_info_ st)))
  end.

(** [parameter_ids_[name]], with the same insertion of [nullptr]. *)
Definition parameter_ids_index (st : State) (name : string)
  : option ControlId * State :=
  match parameter_ids_ st !! name with
  | Some p => (p, st)
  | None => (None, set_parameter_ids_ st (<[name := None]> (parameter_ids_ st)))
  end.

Section Driver.

Variable U : Utils.

(** ** [LibcameraRosDriver::declareControlParameters] *)

Fixpoint declareControlParameters_loop (cs : ControlInfoMap) (st : State)
  : Result State State :=
  match cs with
  | [] => Next st
  | (id, info) :: cs' =>
      match get_extent U id with
      | None =>
          (* catch (const std::runtime_error &e): ignore *)
          declareControlParameters_loop cs'
            (ROS_INFO (tag +:+ "    " +:+ cid_name id +:+
               " : Not handled by the current version of the libcamera SDK") st)
      | Some extent =>
          (* store control id with name *)
          let st := set_parameter_ids_ st
                      (<[cid_name id := Some id]> (parameter_ids_ st)) in
          if bool_decide (numElements (ci_min info) ≠ numElements (ci_max info)) then
            Return (ros_shutdown_call
              (ROS_ERROR (tag +:+
                 "minimum and maximum parameter array sizes do not match") st))
          else
            declareControlParameters_loop cs'
              (ROS_INFO (tag +:+ "    " +:+ cid_name id +:+ " : ") st)
      end
  end.

Definition declareControlParameters (st : State) : Result State State :=
  let st := ROS_INFO (tag +:+ "available control parameters:") st in
  camera ← deref (camera_ st);
  declareControlParameters_loop (cam_controls camera) st.

(** ** [LibcameraRosDriver::updateControlParameter] *)

Definition updateControlParameter (st : State) (value : ControlValue)
  (id : ControlId) : Result (bool * State) (bool * State) :=
  if isNone value then
    Return (false,
      ROS_ERROR (tag +:+ cid_name id +:+ " : parameter type not defined") st)
  else
    (* verify parameter type and dimension against default *)
    camera ← deref (camera_ st);
    match controls_at (cam_controls camera) id with
    | None => Crash UncaughtException          (* .at(id) throws *)
    | Some ci =>
        if bool_decide (cv_type value ≠ cid_type id) then
          Return (false,
            ROS_ERROR (tag +:+ cid_name id +:+
              " : parameter types mismatch, expected '") st)
        else
          match get_extent U id with
          | None => Crash UncaughtException    (* get_extent throws *)
          | Some extent =>
              if (cv_isArray value && (0 <? extent))
                 && negb (Z.of_nat (numElements value) =? extent) then
                Return (false,
                  ROS_ERROR (tag +:+ cid_name id +:+
                    " : parameter dimensions mismatch, expected ") st)
              else
                (* check bounds and return error *)
                if value_lt U value (ci_min ci)
                   || (if value_gt U (ci_max ci) (ci_min ci)
                       then value_gt U value (ci_max ci) else false) then
                  Return (false,
                    ROS_ERROR (tag +:+ cid_name id +:+
                      " : parameter value ") st)
                else
                  Return (true,
                    set_parameters_ st (<[cid_id id := value]> (parameters_ st)))
          end
    end.

(** ** [LibcameraRosDriver::requestComplete] *)

(** The loop of the stride removal: [n] rows are still to copy, [i] is the
    loop variable, an [int]. *)
Fixpoint remove_stride_loop {R} (n : nat) (i : Z) (cfg : StreamConfiguration)
  (mem : Memory) (src : Z) (dst : list byte) : Result R (list byte) :=
  match n with
  | O => Next dst
  | S n' =>
      dst' ← memcpy dst (wrap32 (i * width cfg * 3)) mem
                (src + wrap32 (i * stride cfg)) (wrap32 (width cfg * 3));
      if i =? INT_MAX then Crash SignedOverflow       (* i++ *)
      else remove_stride_loop n' (i + 1) cfg mem src dst'
  end.

(** [bytesused += plane.bytesused] over the planes of the metadata, in
    [size_t]. *)
Definition bytesused_sum (m : FrameMetadata) : Z :=
  foldl (λ acc b, wrap_size (acc + b)) 0 (metadata_planes m).

(** The block [if (_use_ros_time_)] of the handler, on the stamp made from
    the timestamp of the frame: the state and the stamp it leaves. *)
Definition requestComplete_stamp (st : State) (now stamp : Z) : State * Z :=
  if _use_ros_time_ st then
    let st :=
      if start_time_offset_obtained_ st then st
      else set_start_time_offset_ st (now - stamp) in
    (st, stamp + start_time_offset_ st)
  else (st, stamp).

(** The branch of the handler for a raw format: the image message. *)
Definition requestComplete_raw (st : State) (mem : Memory) (hdr : Header)
  (cfg : StreamConfiguration) (buffer : FrameBuffer) (bytesused : Z)
  : Result State (Image * State) :=
  (* raw uncompressed image *)
  let '(bi, st) := buffer_info_index st buffer in
  _ ← assert (bi_size bi =? bytesused);
  if negb (remove_stride_ st) then
    d ← memcpy (resize (bi_size bi)) 0 mem (bi_data bi) (bi_size bi);
    Next ({| img_header := hdr;
             img_width := width cfg;
             img_height := height cfg;
             img_encoding := get_ros_encoding U (pixelFormat cfg);
             img_is_bigendian := byte_order_big_endian U;
             img_step := stride cfg;
             img_data := d |}, st)
  else
    (* remove the padding to get the correct image *)
    d ← remove_stride_loop (Z.to_nat (height cfg)) 0 cfg mem (bi_data bi)
          (resize (wrap32 (width cfg * height cfg * 3)));
    Next ({| img_header := hdr;
             img_width := width cfg;
             img_height := height cfg;
             img_encoding := get_ros_encoding U (pixelFormat cfg);
             img_is_bigendian := byte_order_big_endian U;
             img_step := wrap32 (width cfg * 3);
             img_data := d |}, st).

(** [mem] is the memory and [now] the value of [ros::Time::now()] at the
    call; [request] is the object the device hands over. *)
Definition requestComplete (st : State) (mem : Memory) (now : Z)
  (request : Request) : Result State State :=
  (* std::scoped_lock lock(request_lock_) *)
  st ← match status request with
       | RequestComplete =>
           _ ← assert (bool_decide (size (buffers request) = 1%nat));
           (* get the stream and buffer from the request *)
           buffer ← deref (findBuffer request (stream_ st));
           let metadata := metadata buffer in
           let bytesused := bytesused_sum metadata in
           (* send image data *)
           let '(st, stamp) := requestComplete_stamp st now (timestamp metadata) in
           let hdr := {| stamp := stamp; frame_id := frame_id_ st |} in
           stream ← deref (stream_ st);
           let cfg := configuration stream in
           '(image_msg, st) ←
             match format_type U (pixelFormat cfg) with
             | RAW => requestComplete_raw st mem hdr cfg buffer bytesused
             | NONRAW =>
                 Return (ROS_ERROR (tag +:+ "unsupported pixel format: ") st)
             end;
           cinfo ← deref (cinfo_ st);
           let cinfo_msg :=
             {| cinfo_header := hdr;
                cinfo_calibration := cinfo_calibration (getCameraInfo cinfo) |} in
           (* std::scoped_lock lock(image_pub_mutex_) *)
           Next (image_pub_publish st image_msg cinfo_msg)
       | RequestCancelled =>
           Next (ROS_ERROR (tag +:+ "request cancelled") st)
       | RequestPending => Next st
       end;
  (* queue the request again for the next frame *)
  let request := reuse request ReuseBuffers in
  camera ← deref (camera_ st);
  Next (set_camera_ st (Some (queueRequest camera request))).

(** The completions the device signals, one after the other (the handler
    holds [request_lock_] for its whole body). *)
Record Completion := {
  ev_request : Request;
  ev_memory : Memory;
  ev_now : Z;
}.

Fixpoint run (st : State) (evs : list Completion) : option State :=
  match evs with
  | [] => Some st
  | e :: evs' =>
      st' ← final (requestComplete st (ev_memory e) (ev_now e) (ev_request e));
      run st' evs'
  end.

(** ** [getOptionalParamCheck], [getCompulsoryParamCheck] *)

(** [get] is [nh.getParam] at the type of [param_out]; the result is the
    returned flag, the new value of [param_out] and the state. *)
Definition getOptionalParamCheck {T} (get : string → option T)
  (param_name : string) (param_out : T) (st : State) : bool * T * State :=
  match get param_name with
  | None => (false, param_out, st)
  | Some v => (true, v, ROS_INFO (tag +:+ param_name +:+ "': ") st)
  end.

Definition getCompulsoryParamCheck {T} (get : string → option T)
  (param_name : string) (param_out : T) (st : State) : bool * T * State :=
  match get param_name with
  | None =>
      (false, param_out,
       ROS_ERROR (tag +:+ "Could not load compulsory parameter '" +:+
                  param_name +:+ "'") st)
  | Some v =>
      (true, v, ROS_INFO (tag +:+ "Loaded parameter " +:+ param_name +:+ "': ") st)
  end.

(** [success = success && check(...)]: the check runs only while [success]
    holds. *)
Definition and_check {T} (success : bool)
  (check : T → State → bool * T * State) (param_out : T) (st : State)
  : bool * T * State :=
  if success then check param_out st else (false, param_out, st).

(** ** [LibcameraRosDriver::onInit] *)

Variable E : Environment.

(** The local variables the parameters are loaded into. *)
Record Locals := {
  camera_name : string;
  stream_role : string;
  pixel_format : string;
  calib_url : string;
  camera_id : Z;
  resolution_width : Z;
  resolution_height : Z;
}.

(** load parameters *)
Definition onInit_load_parameters (st : State) : Result State (Locals * State) :=
  let success := true in
  let st := set_remove_stride_ st false in
  let '(success, camera_name, st) :=
    and_check success (getCompulsoryParamCheck (getParam_string E) "camera_name") EmptyString st in
  let '(success, camera_id, st) :=
    and_check success (getOptionalParamCheck (getParam_int E) "camera_id") 0 st in
  let '(success, stream_role, st) :=
    and_check success (getCompulsoryParamCheck (getParam_string E) "stream_role") EmptyString st in
  let '(success, pixel_format, st) :=
    and_check success (getCompulsoryParamCheck (getParam_string E) "pixel_format") EmptyString st in
  let '(success, frame_id, st) :=
    and_check success (getCompulsoryParamCheck (getParam_string E) "frame_id")
      (frame_id_ st) st in
  let st := set_frame_id_ st frame_id in
  let '(success, calib_url, st) :=
    and_check success (getCompulsoryParamCheck (getParam_string E) "calib_url") EmptyString st in
  let '(success, resolution_width, st) :=
    and_check success (getCompulsoryParamCheck (getParam_int E) "resolution/width") 0 st in
  let '(success, resolution_height, st) :=
    and_check success (getCompulsoryParamCheck (getParam_int E) "resolution/height") 0 st in
  let '(success, use_ros_time, st) :=
    and_check success (getCompulsoryParamCheck (getParam_bool E) "use_ros_time")
      (_use_ros_time_ st) st in
  let st := set__use_ros_time_ st use_ros_time in
  let '(success, remove_stride, st) :=
    and_check success (getOptionalParamCheck (getParam_bool E) "remove_stride")
      (remove_stride_ st) st in
  let st := set_remove_stride_ st remove_stride in
  if negb success then
    Return (ros_shutdown_call (ROS_ERROR (tag +:+
      "Some compulsory parameters were not loaded successfully, ending the node") st))
  else
    Next ({| camera_name := camera_name; stream_role := stream_role;
             pixel_format := pixel_format; calib_url := calib_url;
             camera_id := camera_id; resolution_width := resolution_width;
             resolution_height := resolution_height |}, st).

(** The search for the camera whose id contains [camera_name]: the index of
    the first one from [i] on. *)
Fixpoint find_camera (name : string) (available_cameras : list string) (i : Z)
  : option Z :=
  match available_cameras with
  | [] => None
  | c :: cs =>
      if String.index 0 name c is Some _ then Some i
      else find_camera name cs (i + 1)
  end.

(** start camera manager and check for cameras *)
Definition onInit_select_camera (l : Locals) (st : State) : Result State State :=
  if bool_decide (cameras E = []) then
    Return (ros_shutdown_call (ROS_ERROR (tag +:+ "no cameras available") st))
  else
    '(camera_id, st) ←
      (if negb (String.eqb (camera_name l) EmptyString) then
         let st := ROS_INFO (tag +:+ "Available cameras:") st in
         available_cameras ← mapM (λ c : option Camera, deref (cam_id <$> c)) (cameras E);
         match find_camera (camera_name l) available_cameras 0 with
         | Some i =>
             Next (i, ROS_INFO (tag +:+ "found camera: " +:+ camera_name l) st)
         | None => Next (camera_id l, st)
         end
       else Next (camera_id l, st));
    if Z.of_nat (length (cameras E)) <=? wrap_size camera_id then
      Return (ros_shutdown_call
        (ROS_ERROR (tag +:+ "camera with id " +:+ camera_name l +:+ " does not exist")
           (ROS_INFO EmptyString st)))
    else
      let st := set_camera_ st (mjoin (cameras E !! Z.to_nat camera_id)) in
      let st := ROS_INFO (tag +:+ "Use camera by id: ") st in
      match camera_ st with
      | None =>
          Return (ros_shutdown_call
            (ROS_ERROR (tag +:+ "camera with name " +:+ camera_name l +:+
                        " does not exist")
               (ROS_INFO tag st)))
      | Some camera =>
          if negb (cam_acquire camera =? 0) then
            Return (ros_shutdown_call
              (ROS_ERROR (tag +:+ "failed to acquire camera") st))
          else Next st
      end.

(** configure camera stream: the stream configuration the camera is
    configured with *)
Definition onInit_configure (l : Locals) (st : State)
  : Result State (StreamConfiguration * State) :=
  camera ← deref (camera_ st);
  match get_role U (stream_role l) with
  | None => Crash UncaughtException
  | Some role =>
      match cam_generateConfiguration camera role with
      | None =>
          Return (ros_shutdown_call
            (ROS_ERROR (tag +:+ "failed to generate configuration") st))
      | Some (scfg, formats) =>
          (* get common pixel formats that are supported by the camera and the node *)
          let stream_formats := get_common_stream_formats U formats in
          let common_fmt := pixelformats stream_formats in
          match common_fmt with
          | [] =>
              Return (ros_shutdown_call (ROS_ERROR (tag +:+
                "camera does not provide any of the supported pixel formats") st))
          | front :: _ =>
              '(fmt, st) ←
                (if String.eqb (pixel_format l) EmptyString then
                   (* auto select first common pixel format *)
                   Next (front,
                     ROS_WARN (tag +:+
                       "set parameter 'pixel_format' to silent this warning")
                       (ROS_WARN (tag +:+
                          "no pixel format selected, using default: ")
                          (ROS_INFO tag st)))
                 else
                   (* get pixel format from provided string *)
                   let format_requested := PixelFormat_fromString E (pixel_format l) in
                   if negb (PixelFormat_isValid format_requested) then
                     Return (ros_shutdown_call
                       (ROS_ERROR (tag +:+ "invalid pixel format: " +:+
                                   pixel_format l)
                          (ROS_INFO tag st)))
                   else if bool_decide (format_requested ∉ common_fmt) then
                     Return (ros_shutdown_call
                       (ROS_ERROR (tag +:+ "unsupported pixel format " +:+
                                   pixel_format l)
                          (ROS_INFO tag st)))
                   else Next (format_requested, st));
              '(w, h, st) ←
                (* const libcamera::Size size(resolution_width, resolution_height) *)
                (let w := wrap32 (resolution_width l) in
                 let h := wrap32 (resolution_height l) in
                 if (w =? 0) && (h =? 0) then
                   '(w, h) ← (match last (sizes formats fmt) with
                              | Some wh => Next wh
                              | None => Crash OutOfBounds     (* back() of an empty vector *)
                              end);
                   Next (w, h,
                     ROS_WARN (tag +:+
                       "set parameters 'resolution/width' and 'resolution/height' to silent this warning")
                       (ROS_WARN (tag +:+ "no dimensions selected, auto-selecting: ")
                          (ROS_INFO EmptyString st)))
                 else Next (w, h, st));
              (* store selected stream configuration *)
              let selected_scfg :=
                {| pixelFormat := fmt; width := w; height := h; stride := stride scfg |} in
              let '(validity, scfg) := cam_validate camera selected_scfg in
              st ← match validity with
                   | Valid => Next st
                   | Adjusted =>
                       let st :=
                         if bool_decide (pixelFormat selected_scfg ≠ pixelFormat scfg)
                         then ROS_INFO EmptyString st else st in
                       let st :=
                         if bool_decide ((width selected_scfg, height selected_scfg)
                                         ≠ (width scfg, height scfg))
                         then ROS_INFO EmptyString st else st in
                       Next (ROS_WARN (tag +:+
                               "stream configuration adjusted from ") st)
                   | Invalid =>
                       Return (ros_shutdown_call (ROS_ERROR (tag +:+
                         "failed to valid stream configuration") st))
                   end;
              if cam_configure camera scfg <? 0 then
                Return (ros_shutdown_call
                  (ROS_ERROR (tag +:+ "failed to configure streams") st))
              else
                Next (scfg,
                  ROS_INFO (tag +:+ "camera " +:+ cam_id camera +:+
                            " configured with ") st)
          end
      end
  end.

(** One of the blocks that hand a loaded parameter to the camera:
    [updateControlParameter(pv_to_cv(value, parameter_ids_[name]->type()),
    parameter_ids_[name])], the returned flag dropped. *)
Definition onInit_control (name : string) (value : PrimValue) (st : State)
  : Result State State :=
  let '(p, st) := parameter_ids_index st name in
  id ← deref p;
  '(_, st) ← call (updateControlParameter st (pv_to_cv U value (cid_type id)) id);
  Next st.

(** The block of [control/awb_enable], the one that looks at
    [parameter_ids_["AwbEnable"]] before it uses it. *)
Definition onInit_control_AwbEnable (param_bool : bool) (st : State)
  : Result State State :=
  let '(p, st) := parameter_ids_index st "AwbEnable" in
  match p with
  | Some id =>
      (* if the parameter is set when not available, we would get a
         segmentation fault upon extracting its ->type() *)
      '(_, st) ← call (updateControlParameter st
                         (pv_to_cv U (PvBool param_bool) (cid_type id)) id);
      Next st
  | None =>
      Next (ROS_ERROR (tag +:+
        "Parameter AwbEnable is not available! Maybe the selected camera is grayscale")
        st)
  end.

(** [if (getOptionalParamCheck(nh_, ..., param, var)) block]. *)
Definition if_param {T} (get : string → option T) (param_name : string)
  (block : T → State → Result State State) (st : State) : Result State State :=
  match get param_name with
  | None => Next st
  | Some v => block v (ROS_INFO (tag +:+ param_name +:+ "': ") st)
  end.

Definition onInit_controls (st : State) : Result State State :=
  st ← if_param (getParam_int E) "control/exposure_time"
         (λ param_int, onInit_control "ExposureTime" (PvInt param_int)) st;
  st ← if_param (getParam_float E) "control/fps"
         (λ param_float,
            let frame_time := frame_time_of_fps U param_float in
            onInit_control "FrameDurationLimits" (PvVectorInt [frame_time; frame_time])) st;
  st ← if_param (getParam_string E) "control/ae_constraint_mode"
         (λ param_string,
            onInit_control "AeConstraintMode"
              (PvInt (get_ae_constraint_mode U param_string))) st;
  st ← if_param (getParam_float E) "control/brightness"
         (λ param_float, onInit_control "Brightness" (PvFloat param_float)) st;
  st ← if_param (getParam_float E) "control/sharpness"
         (λ param_float, onInit_control "Sharpness" (PvFloat param_float)) st;
  st ← if_param (getParam_bool E) "control/awb_enable" onInit_control_AwbEnable st;
  st ← if_param (getParam_bool E) "control/ae_enable"
         (λ param_bool, onInit_control "AeEnable" (PvBool param_bool)) st;
  st ← if_param (getParam_float E) "control/saturation"
         (λ param_float, onInit_control "Saturation" (PvFloat param_float)) st;
  st ← if_param (getParam_float E) "control/contrast"
         (λ param_float, onInit_control "Contrast" (PvFloat param_float)) st;
  st ← if_param (getParam_float E) "control/exposure_value"
         (λ param_float, onInit_control "ExposureValue" (PvFloat param_float)) st;
  st ← if_param (getParam_float E) "control/analogue_gain"
         (λ param_float, onInit_control "AnalogueGain" (PvFloat param_float)) st;
  st ← if_param (getParam_string E) "control/awb_mode"
         (λ param_string,
            onInit_control "AwbMode" (PvInt (get_awb_mode U param_string))) st;
  st ← if_param (getParam_string E) "control/ae_metering_mode"
         (λ param_string,
            onInit_control "AeMeteringMode"
              (PvInt (get_ae_metering_mode U param_string))) st;
  st ← if_param (getParam_vector_int E) "control/scaler_crop"
         (λ param_vector_int,
            onInit_control "ScalerCrop" (PvVectorInt param_vector_int)) st;
  if_param (getParam_string E) "control/control"
    (λ param_string,
       onInit_control "AeExposureMode"
         (PvInt (get_ae_exposure_mode U param_string))) st.

(** The loop over the planes of a buffer: [buffer_length] and [fd] are the
    two local variables it updates. *)
Fixpoint onInit_planes (ps : list Plane) (buffer_length fd : Z) (st : State)
  : Result State (Z * Z) :=
  match ps with
  | [] => Next (buffer_length, fd)
  | plane :: ps' =>
      if plane_offset plane =? kInvalidOffset then
        Return (ros_shutdown_call (ROS_ERROR (tag +:+ "invalid offset") st))
      else
        let buffer_length :=
          Z.max buffer_length (wrap32 (plane_offset plane + plane_length plane)) in
        if negb (fd_isValid (plane_fd plane)) then
          Return (ros_shutdown_call
            (ROS_ERROR (tag +:+ "file descriptor is not valid") st))
        else if fd =? -1 then
          onInit_planes ps' buffer_length (plane_fd plane) st
        else if negb (fd =? plane_fd plane) then
          Return (ros_shutdown_call
            (ROS_ERROR (tag +:+ "plane file descriptors differ") st))
        else
          onInit_planes ps' buffer_length fd st
  end.

(** multiple planes of the same buffer use the same file descriptor;
    memory-map the frame buffer planes *)
Definition onInit_map_buffer (buffer : FrameBuffer) (st : State)
  : Result State State :=
  '(buffer_length, fd) ← onInit_planes (planes buffer) 0 (-1) st;
  let args := {| mm_addr := 0; mm_length := buffer_length; mm_prot := PROT_READ;
                 mm_flags := MAP_SHARED; mm_fd := fd; mm_offset := 0 |} in
  match sys_mmap E args with
  | None =>
      Return (ros_shutdown_call (ROS_ERROR (tag +:+ "mmap failed: ") st))
  | Some data =>
      let st := add_mapping st data args in
      Next (set_buffer_info_ st
              (<[fb_addr buffer := {| bi_data := data; bi_size := buffer_length |}]>
                 (buffer_info_ st)))
  end.

(** The body of the loop over the buffers of the allocator. *)
Definition onInit_buffer (buffer : FrameBuffer) (st : State) : Result State State :=
  camera ← deref (camera_ st);
  match cam_createRequest camera (length (requests_ st)) with
  | None =>
      Return (ros_shutdown_call (ROS_ERROR (tag +:+ "Can't create request") st))
  | Some request =>
      st ← onInit_map_buffer buffer st;
      let '(ret, request) := addBuffer request (stream_ st) buffer in
      if ret <? 0 then
        Return (ros_shutdown_call
          (ROS_ERROR (tag +:+ "Can't set buffer for request") st))
      else
        (* set modified control parameters *)
        let request :=
          map_fold (λ id value r, controls_set r id value) request (parameters_ st) in
        Next (set_requests_ st (requests_ st ++ [request]))
  end.

Fixpoint onInit_buffers (bs : list FrameBuffer) (st : State) : Result State State :=
  match bs with
  | [] => Next st
  | buffer :: bs' =>
      st ← onInit_buffer buffer st;
      onInit_buffers bs' st
  end.

(** register callback; start camera and queue all requests *)
Definition onInit_start (st : State) : Result State State :=
  camera ← deref (camera_ st);
  let camera := set_cam_connected camera true in
  if negb (cam_start camera =? 0) then
    Return (ros_shutdown_call
      (ROS_ERROR (tag +:+ "failed to start camera")
         (set_camera_ st (Some camera))))
  else
    let camera := set_cam_running camera true in
    let camera := foldl queueRequest camera (requests_ st) in
    Next (ROS_INFO (tag +:+ "initialized") (set_camera_ st (Some camera))).

Definition onInit (st : State) : Result State State :=
  '(l, st) ← onInit_load_parameters st;
  st ← onInit_select_camera l st;
  '(scfg, st) ← onInit_configure l st;
  st ← call (declareControlParameters st);
  st ← onInit_controls st;
  (* allocate stream buffers and create one request per buffer *)
  camera ← deref (camera_ st);
  let st := set_stream_ st
              (Some {| stream_addr := cam_stream camera; configuration := scfg |}) in
  st ← onInit_buffers (cam_buffers camera) st;
  let st := set_cinfo_ st
              (Some {| cim_cname := camera_name l; cim_url := calib_url l |}) in
  onInit_start st.

End Driver.

(** ** [LibcameraRosDriver::~LibcameraRosDriver] *)

(** What the destructor calls outside the nodelet: [Camera::stop] with its
    return code and [Camera::release], each with the camera it leaves, and
    [munmap] with its return code. *)
Record TeardownCalls := {
  cam_stop : Camera → Z * Camera;
  cam_release : Camera → Camera;
  sys_munmap : Z → Z → Z;
}.

Definition set_address_space (st : State) (x : list (Z * MmapArgs)) : State :=
  {| camera_ := camera_ st; stream_ := stream_ st; requests_ := requests_ st;
     frame_id_ := frame_id_ st; _use_ros_time_ := _use_ros_time_ st;
     remove_stride_ := remove_stride_ st;
     start_time_offset_ := start_time_offset_ st;
     start_time_offset_obtained_ := start_time_offset_obtained_ st;
     buffer_info_ := buffer_info_ st; cinfo_ := cinfo_ st;
     parameter_ids_ := parameter_ids_ st; parameters_ := parameters_ st;
     ros_log := ros_log st; ros_shutdown := ros_shutdown st;
     image_pub_ := image_pub_ st; address_space := x |}.

(** A successful [munmap(data, size)]: the mappings made at that address
    with that length are gone. *)
Definition unmapped (st : State) (data size : Z) : State :=
  set_address_space st
    (filter (λ m : Z * MmapArgs, ¬ (m.1 = data ∧ mm_length m.2 = size))
       (address_space st)).

Section Teardown.

Variable T : TeardownCalls.

(** The loop over [buffer_info_], on its entries in the order the iteration
    visits them. *)
Fixpoint destructor_unmap (es : list (N * buffer_info_t)) (st : State) : State :=
  match es with
  | [] => st
  | e :: es' =>
      let st :=
        if sys_munmap T (bi_data e.2) (bi_size e.2) =? -1 then
          ROS_ERROR (tag +:+ "munmap failed: ") st
        else unmapped st (bi_data e.2) (bi_size e.2) in
      destructor_unmap es' st
  end.

Definition destructor (st : State) : Result State State :=
  camera ← deref (camera_ st);
  (* camera_->requestCompleted.disconnect() *)
  let camera := set_cam_connected camera false in
  (* std::scoped_lock lock(request_lock_) *)
  let '(ret, camera) := cam_stop T camera in
  let st := set_camera_ st (Some camera) in
  let st :=
    if negb (ret =? 0) then ROS_ERROR (tag +:+ "failed to stop camera") st
    else st in
  let st := set_camera_ st (Some (cam_release T camera)) in
  (* camera_manager_.stop() *)
  Next (destructor_unmap (map_to_list (buffer_info_ st)) st).

End Teardown.

(** ** The range of a control, in the words of the specification *)

(** [v ≥ m] and [v ≤ m] are read off the two operators the check uses:
    [v] is at least [m] when [v < m] does not hold, and at most [m] when
    [v > m] does not hold. *)
Definition value_ge (U : Utils) (v m : ControlValue) : Prop := value_lt U v m = false.
Definition value_le (U : Utils) (v m : ControlValue) : Prop := value_gt U v m = false.

(** min ≤ value, and max ≤ min (no upper bound) or value ≤ max. *)
Definition in_range (U : Utils) (ci : ControlInfo) (v : ControlValue) : Prop :=
  value_ge U v (ci_min ci)
  ∧ (value_le U (ci_max ci) (ci_min ci) ∨ value_le U v (ci_max ci)).

(** The members the completion handler does not write.  [requests_] is not
    among them: the vector keeps its pointers, but the request the handler
    is called with is one of the objects they point to, and the handler
    resets that object with [reuse]. *)
Definition same_members (st st' : State) : Prop :=
  parameters_ st' = parameters_ st ∧ parameter_ids_ st' = parameter_ids_ st
  ∧ stream_ st' = stream_ st ∧ _use_ros_time_ st' = _use_ros_time_ st
  ∧ remove_stride_ st' = remove_stride_ st ∧ cinfo_ st' = cinfo_ st
  ∧ frame_id_ st' = frame_id_ st
  ∧ ros_shutdown st' = ros_shutdown st ∧ address_space st' = address_space st.

(** ** A camera to run the driver on *)

Module Sample.

(** Helpers for controls with integer elements: a value is below (above) a
    bound when one of its elements is. *)
Definition elements_lt (a b : ControlValue) : bool :=
  existsb (λ xy : Z * Z, xy.1 <? xy.2) (zip (cv_elements a) (cv_elements b)).
Definition elements_gt (a b : ControlValue) : bool :=
  existsb (λ xy : Z * Z, xy.2 <? xy.1) (zip (cv_elements a) (cv_elements b)).

Definition none_value : ControlValue :=
  {| cv_type := ControlTypeNone; cv_isArray := false; cv_elements := [] |}.

Definition to_cv (v : PrimValue) (t : ControlType) : ControlValue :=
  match v, t with
  | PvInt z, (ControlTypeInteger32 | ControlTypeInteger64) =>
      {| cv_type := t; cv_isArray := false; cv_elements := [z] |}
  | PvBool b, ControlTypeBool =>
      {| cv_type := t; cv_isArray := false; cv_elements := [if b then 1 else 0] |}
  | PvFloat bits, ControlTypeFloat =>
      {| cv_type := t; cv_isArray := false; cv_elements := [bits] |}
  | PvVectorInt l, (ControlTypeInteger32 | ControlTypeInteger64 | ControlTypeRectangle) =>
      {| cv_type := t; cv_isArray := true; cv_elements := l |}
  | _, _ => none_value
  end.

(** Pixel formats by their fourcc code. *)
Definition RGB888 : PixelFormat := {| fourcc := 875710290; modifier := 0 |}.
Definition R8 : PixelFormat := {| fourcc := 538982482; modifier := 0 |}.
Definition MJPEG : PixelFormat := {| fourcc := 1196444237; modifier := 0 |}.

Definition utils : Utils :=
  {| get_extent := λ id,
       if String.eqb (cid_name id) "FrameDurationLimits" then Some 2
       else if String.eqb (cid_name id) "VendorControl" then None
       else Some 0;
     value_lt := elements_lt;
     value_gt := elements_gt;
     pv_to_cv := to_cv;
     get_ae_constraint_mode := λ _, 0;
     get_awb_mode := λ _, 0;
     get_ae_metering_mode := λ _, 0;
     get_ae_exposure_mode := λ _, 0;
     get_role := λ _, Some 0%N;
     get_common_stream_formats := λ f, f;
     format_type := λ p,
       if bool_decide (p = RGB888) || bool_decide (p = R8) then RAW else NONRAW;
     get_ros_encoding := λ p, if bool_decide (p = R8) then "mono8" else "rgb8";
     frame_time_of_fps := λ _, 33333;
     byte_order_big_endian := false |}.

Definition ExposureTime : ControlId :=
  {| cid_id := 1; cid_name := "ExposureTime"; cid_type := ControlTypeInteger32 |}.

Definition int32 (z : Z) : ControlValue :=
  {| cv_type := ControlTypeInteger32; cv_isArray := false; cv_elements := [z] |}.

Definition ExposureTime_info : ControlInfo :=
  {| ci_min := int32 100; ci_max := int32 1000000; ci_def := int32 1000 |}.

Definition byte_of_Z (z : Z) : byte :=
  default x00 (Byte.of_N (Z.to_N (z mod 256))).

(** A memory with [len] bytes mapped at [base]; the byte at offset [k] is
    [k mod 256]. *)
Definition memory (base len : Z) : Memory :=
  λ a, if (base <=? a) && (a <? base + len)
       then Some (byte_of_Z (a - base)) else None.

(** Two rows of [w] pixels, eight bytes from one row to the next. *)
Definition scfg (fmt : PixelFormat) (w : Z) : StreamConfiguration :=
  {| pixelFormat := fmt; width := w; height := 2; stride := 8 |}.

Definition plane0 : Plane :=
  {| plane_fd := 7; plane_offset := 0; plane_length := 16 |}.

(** The one buffer of the stream, with the metadata of a frame taken at
    [ts]. *)
Definition buffer (ts : Z) : FrameBuffer :=
  {| fb_addr := 100; planes := [plane0];
     metadata := {| timestamp := ts; metadata_planes := [16] |} |}.

Definition fresh_request (n : nat) : Request :=
  {| cookie := N.of_nat n; status := RequestPending; controls := ∅; buffers := ∅ |}.

(** The request as the device hands it over: the status, the frame, and the
    controls it was queued with. *)
Definition request (s : RequestStatus) (ts : Z) : Request :=
  {| cookie := 0; status := s;
     controls := {[1%N := int32 500000]};
     buffers := {[1%N := buffer ts]} |}.

Definition camera (ctrls : ControlInfoMap) (bufs : list FrameBuffer)
  (fmt : PixelFormat) (w : Z) : Camera :=
  {| cam_id := "imx219";
     cam_acquire := 0;
     cam_generateConfiguration := λ _, Some (scfg fmt w, [(fmt, [(w, 2)])]);
     cam_validate := λ c, (Valid, c);
     cam_configure := λ _, 0;
     cam_stream := 1;
     cam_controls := ctrls;
     cam_buffers := bufs;
     cam_createRequest := λ n, Some (fresh_request n);
     cam_start := 0;
     cam_connected := false;
     cam_running := false;
     cam_queue := [] |}.

(** The nodelet while the camera streams, the one buffer mapped at 4096 and
    an exposure time of 500000 staged. *)
Definition streaming (fmt : PixelFormat) (w : Z) (remove_stride use_ros_time : bool)
  : State :=
  {| camera_ :=
       Some (set_cam_running
               (camera [(ExposureTime, ExposureTime_info)] [buffer 0] fmt w) true);
     stream_ := Some {| stream_addr := 1; configuration := scfg fmt w |};
     requests_ := [];
     frame_id_ := "camera";
     _use_ros_time_ := use_ros_time;
     remove_stride_ := remove_stride;
     start_time_offset_ := 0;
     start_time_offset_obtained_ := false;
     buffer_info_ := {[100%N := {| bi_data := 4096; bi_size := 16 |}]};
     cinfo_ := Some {| cim_cname := "imx219"; cim_url := "file:///calib.yaml" |};
     parameter_ids_ := {["ExposureTime" := Some ExposureTime]};
     parameters_ := {[1%N := int32 500000]};
     ros_log := [];
     ros_shutdown := false;
     image_pub_ := [];
     address_space :=
       [(4096, {| mm_addr := 0; mm_length := 16; mm_prot := PROT_READ;
                  mm_flags := MAP_SHARED; mm_fd := 7; mm_offset := 0 |})] |}.

(** The parameter server: the compulsory parameters, and the optional
    controls of type float given by [floats]. *)
Definition environment (cam : Camera) (fmt_name : string) (w : Z)
  (floats : string → option Z) : Environment :=
  {| getParam_string := λ k,
       if String.eqb k "camera_name" then Some "imx219"
       else if String.eqb k "stream_role" then Some "viewfinder"
       else if String.eqb k "pixel_format" then Some fmt_name
       else if String.eqb k "frame_id" then Some "camera"
       else if String.eqb k "calib_url" then Some "file:///calib.yaml"
       else None;
     getParam_int := λ k,
       if String.eqb k "camera_id" then Some 0
       else if String.eqb k "resolution/width" then Some w
       else if String.eqb k "resolution/height" then Some 2
       else None;
     getParam_bool := λ k,
       if String.eqb k "use_ros_time" then Some false
       else if String.eqb k "remove_stride" then Some false
       else None;
     getParam_float := floats;
     getParam_vector_int := λ _, None;
     cameras := [Some cam];
     PixelFormat_fromString := λ n,
       if String.eqb n "RGB888" then RGB888
       else if String.eqb n "R8" then R8
       else if String.eqb n "MJPEG" then MJPEG
       else {| fourcc := 0; modifier := 0 |};
     sys_mmap := λ a,
       if (0 <? mm_length a) && fd_isValid (mm_fd a) then Some 4096 else None |}.

Definition declared : ControlInfoMap := [(ExposureTime, ExposureTime_info)].

Definition stream (fmt : PixelFormat) (w : Z) : Stream :=
  {| stream_addr := 1; configuration := scfg fmt w |}.

Definition running_camera (fmt : PixelFormat) (w : Z) : Camera :=
  set_cam_running (camera declared [buffer 0] fmt w) true.

(** A frame whose planes report eight bytes used, half of the buffer. *)
Definition short_frame : Request :=
  {| cookie := 0; status := RequestComplete;
     controls := ∅;
     buffers := {[1%N := {| fb_addr := 100; planes := [plane0];
                            metadata := {| timestamp := 1000;
                                           metadata_planes := [8] |} |}]} |}.

(** A buffer whose plane has no valid descriptor. *)
Definition buffer_without_descriptor : FrameBuffer :=
  {| fb_addr := 100;
     planes := [{| plane_fd := -1; plane_offset := 0; plane_length := 16 |}];
     metadata := {| timestamp := 0; metadata_planes := [] |} |}.

(** A buffer whose plane starts two bytes below 2^32: the end of the plane,
    [offset + length], does not fit in [unsigned int]. *)
Definition buffer_far_plane : FrameBuffer :=
  {| fb_addr := 100;
     planes := [{| plane_fd := 7; plane_offset := 4294967294; plane_length := 16 |}];
     metadata := {| timestamp := 0; metadata_planes := [] |} |}.

(** A control whose minimum is a scalar and whose maximum has two
    elements. *)
Definition mismatched_info : ControlInfo :=
  {| ci_min := int32 100;
     ci_max := {| cv_type := ControlTypeInteger32; cv_isArray := true;
                  cv_elements := [1000000; 5] |};
     ci_def := int32 1000 |}.

Definition no_floats : string → option Z := λ _, None.

(** The camera declares the exposure time only; no control is asked for. *)
Definition env_plain : Environment :=
  environment (camera declared [buffer 0] RGB888 2) "RGB888" 2 no_floats.

(** The same camera, and [control/brightness] set to 0.5. *)
Definition env_brightness : Environment :=
  environment (camera declared [buffer 0] RGB888 2) "RGB888" 2
    (λ k, if String.eqb k "control/brightness" then Some 1056964608 else None).

(** A camera that declares the control with the mismatched bounds. *)
Definition env_mismatch : Environment :=
  environment (camera [(ExposureTime, mismatched_info)] [buffer 0] RGB888 2)
    "RGB888" 2 no_floats.

(** A camera whose buffer has no valid descriptor. *)
Definition env_without_descriptor : Environment :=
  environment (camera declared [buffer_without_descriptor] RGB888 2)
    "RGB888" 2 no_floats.

(** A camera that stops and an [munmap] that succeeds. *)
Definition teardown : TeardownCalls :=
  {| cam_stop := λ c, (0, set_cam_queue (set_cam_running c false) []);
     cam_release := λ c, c;
     sys_munmap := λ _ _, 0 |}.

Definition completion (s : RequestStatus) (ts now : Z) : Completion :=
  {| ev_request := request s ts; ev_memory := memory 4096 16; ev_now := now |}.

(** A cancelled request, then two frames. *)
Definition completions : list Completion :=
  [completion RequestCancelled 500 4000;
   completion RequestComplete 1000 5000;
   completion RequestComplete 2000 9999].

(** The parameter server without camera_id. *)
Definition env_without_camera_id : Environment :=
  {| getParam_string := getParam_string env_plain;
     getParam_int := λ k,
       if String.eqb k "camera_id" then None else getParam_int env_plain k;
     getParam_bool := getParam_bool env_plain;
     getParam_float := getParam_float env_plain;
     getParam_vector_int := getParam_vector_int env_plain;
     cameras := cameras env_plain;
     PixelFormat_fromString := PixelFormat_fromString env_plain;
     sys_mmap := sys_mmap env_plain |}.


(** A second camera, listed first, whose id does not contain the camera
    name of the parameter server. *)
Definition other_camera : Camera :=
  {| cam_id := "ov5647";
     cam_acquire := 0;
     cam_generateConfiguration := λ _, None;
     cam_validate := λ c, (Invalid, c);
     cam_configure := λ _, -1;
     cam_stream := 2;
     cam_controls := [];
     cam_buffers := [];
     cam_createRequest := λ _, None;
     cam_start := -1;
     cam_connected := false;
     cam_running := false;
     cam_queue := [] |}.

Definition env_two_cameras : Environment :=
  {| getParam_string := getParam_string env_plain;
     getParam_int := getParam_int env_plain;
     getParam_bool := getParam_bool env_plain;
     getParam_float := getParam_float env_plain;
     getParam_vector_int := getParam_vector_int env_plain;
     cameras := [Some other_camera; Some (camera declared [buffer 0] RGB888 2)];
     PixelFormat_fromString := PixelFormat_fromString env_plain;
     sys_mmap := sys_mmap env_plain |}.

(** The local variables as the parameters of [env_plain] fill them, and
    the same without a camera name. *)
Definition locals : Locals :=
  {| camera_name := "imx219"; stream_role := "viewfinder";
     pixel_format := "RGB888"; calib_url := "file:///calib.yaml";
     camera_id := 0; resolution_width := 2; resolution_height := 2 |}.

(** ... and with a camera name that no id contains. *)
Definition locals_other_name : Locals :=
  {| camera_name := "nosuch"; stream_role := "viewfinder";
     pixel_format := "RGB888"; calib_url := "file:///calib.yaml";
     camera_id := 0; resolution_width := 2; resolution_height := 2 |}.

Definition locals_by_id (id : Z) : Locals :=
  {| camera_name := EmptyString; stream_role := "viewfinder";
     pixel_format := "RGB888"; calib_url := "file:///calib.yaml";
     camera_id := id; resolution_width := 2; resolution_height := 2 |}.

(** The nodelet with the camera acquired and nothing declared yet. *)
Definition acquired : State :=
  set_camera_ State_init (Some (camera declared [buffer 0] RGB888 2)).

(** The nodelet after its startup on [env_plain]. *)
Definition initialized : State :=
  Eval vm_compute in
    match onInit utils env_plain State_init with
    | Next st => st
    | _ => State_init
    end.

End Sample.

(** ** Readings of the specification *)

(** The length the planes of a buffer ask for: the greatest
    [offset + length], the sum taken as the planes hold it, in
    [unsigned int]. *)
Definition planes_length (ps : list Plane) : Z :=
  foldr Z.max 0 ((λ p, wrap32 (plane_offset p + plane_length p)) <$> ps).

(** The length in the words of the specification: the maximum over the
    planes of offset + length, as a sum of numbers. *)
Definition planes_extent (ps : list Plane) : Z :=
  foldr Z.max 0 ((λ p, plane_offset p + plane_length p) <$> ps).

(** The descriptor of the first plane. *)
Definition planes_fd (ps : list Plane) : Z :=
  match ps with
  | [] => -1
  | p :: _ => plane_fd p
  end.

(** The call of [mmap] for a buffer with these planes: the whole length,
    read-only and shared. *)
Definition mmap_args (ps : list Plane) : MmapArgs :=
  {| mm_addr := 0; mm_length := planes_length ps; mm_prot := PROT_READ;
     mm_flags := MAP_SHARED; mm_fd := planes_fd ps; mm_offset := 0 |}.

(** A plane has an undefined offset, or two planes have differing
    descriptors. *)
Definition offset_or_descriptor_defect (ps : list Plane) : Prop :=
  (∃ p, p ∈ ps ∧ plane_offset p = kInvalidOffset)
  ∨ (∃ p q, p ∈ ps ∧ q ∈ ps ∧ plane_fd p ≠ plane_fd q).

(** ... or a plane has a descriptor that is not valid. *)
Definition planes_defect (ps : list Plane) : Prop :=
  offset_or_descriptor_defect ps ∨ (∃ p, p ∈ ps ∧ fd_isValid (plane_fd p) = false).

(** The members that stand for the device and its memory are the same in
    the two states. *)
Definition same_resources (st st' : State) : Prop :=
  camera_ st' = camera_ st ∧ stream_ st' = stream_ st
  ∧ requests_ st' = requests_ st ∧ buffer_info_ st' = buffer_info_ st
  ∧ address_space st' = address_space st ∧ cinfo_ st' = cinfo_ st
  ∧ image_pub_ st' = image_pub_ st.

(** ... and so are the controls and the settings loaded from the
    parameters. *)
Definition same_settings (st st' : State) : Prop :=
  parameters_ st' = parameters_ st ∧ parameter_ids_ st' = parameter_ids_ st
  ∧ frame_id_ st' = frame_id_ st ∧ _use_ros_time_ st' = _use_ros_time_ st
  ∧ remove_stride_ st' = remove_stride_ st
  ∧ start_time_offset_ st' = start_time_offset_ st
  ∧ start_time_offset_obtained_ st' = start_time_offset_obtained_ st.

(** What the phase of the controls may change: the staged controls, the
    log, and names without an id in [parameter_ids_]. *)
Definition controls_phase (st st' : State) : Prop :=
  same_resources st st' ∧ ros_shutdown st' = ros_shutdown st
  ∧ frame_id_ st' = frame_id_ st ∧ _use_ros_time_ st' = _use_ros_time_ st
  ∧ remove_stride_ st' = remove_stride_ st
  ∧ ∀ name id, parameter_ids_ st' !! name = Some (Some id)
               ↔ parameter_ids_ st !! name = Some (Some id).

(** The phase goes on: it ends at its end, or it crashes; it does not
    return. *)
Definition goes_on (st : State) (r : Result State State) : Prop :=
  match r with
  | Next st' => controls_phase st st'
  | Return _ => False
  | Crash _ => True
  end.

(** Every mapping the process holds is on record in [buffer_info_], with
    its address and its length. *)
Definition mappings_recorded (st : State) : Prop :=
  ∀ a args, (a, args) ∈ address_space st →
    ∃ k bi, buffer_info_ st !! k = Some bi
            ∧ bi_data bi = a ∧ bi_size bi = mm_length args.

(** One of the ten parameters that [onInit] loads first is not on the
    parameter server. *)
Definition parameter_missing (E : Environment) : Prop :=
  getParam_string E "camera_name" = None
  ∨ getParam_int E "camera_id" = None
  ∨ getParam_string E "stream_role" = None
  ∨ getParam_string E "pixel_format" = None
  ∨ getParam_string E "frame_id" = None
  ∨ getParam_string E "calib_url" = None
  ∨ getParam_int E "resolution/width" = None
  ∨ getParam_int E "resolution/height" = None
  ∨ getParam_bool E "use_ros_time" = None
  ∨ getParam_bool E "remove_stride" = None.

(** The ten parameters are on the server, and the local variables [l] and
    the settings of [st] hold their values. *)
Definition parameters_loaded (E : Environment) (l : Locals) (st : State) : Prop :=
  getParam_string E "camera_name" = Some (camera_name l)
  ∧ getParam_int E "camera_id" = Some (camera_id l)
  ∧ getParam_string E "stream_role" = Some (stream_role l)
  ∧ getParam_string E "pixel_format" = Some (pixel_format l)
  ∧ getParam_string E "frame_id" = Some (frame_id_ st)
  ∧ getParam_string E "calib_url" = Some (calib_url l)
  ∧ getParam_int E "resolution/width" = Some (resolution_width l)
  ∧ getParam_int E "resolution/height" = Some (resolution_height l)
  ∧ getParam_bool E "use_ros_time" = Some (_use_ros_time_ st)
  ∧ getParam_bool E "remove_stride" = Some (remove_stride_ st).

(** [scfg] is the configuration [camera] has been configured with for the
    parameters in [l]: what [validate] left of the selected configuration,
    not invalid and accepted by [configure]; the selected pixel format is
    one the camera and the node have in common, the requested one or else
    the first; the selected size is the requested one, or the last size of
    the format when none (0 x 0) is requested. *)
Definition stream_configured (U : Utils) (E : Environment) (l : Locals)
  (camera : Camera) (scfg : StreamConfiguration) : Prop :=
  ∃ role generated formats selected validity,
    get_role U (stream_role l) = Some role
    ∧ cam_generateConfiguration camera role = Some (generated, formats)
    ∧ cam_validate camera selected = (validity, scfg)
    ∧ validity ≠ Invalid
    ∧ 0 ≤ cam_configure camera scfg
    ∧ pixelFormat selected ∈ pixelformats (get_common_stream_formats U formats)
    ∧ (pixel_format l ≠ EmptyString →
       pixelFormat selected = PixelFormat_fromString E (pixel_format l)
       ∧ PixelFormat_isValid (pixelFormat selected) = true)
    ∧ (pixel_format l = EmptyString →
       head (pixelformats (get_common_stream_formats U formats))
       = Some (pixelFormat selected))
    ∧ (¬ (wrap32 (resolution_width l) = 0 ∧ wrap32 (resolution_height l) = 0) →
       width selected = wrap32 (resolution_width l)
       ∧ height selected = wrap32 (resolution_height l))
    ∧ (wrap32 (resolution_width l) = 0 ∧ wrap32 (resolution_height l) = 0 →
       last (sizes formats (pixelFormat selected))
       = Some (width selected, height selected)).

(** The camera an unfinished startup can leave in [camera_]: the one that
    was there, none, or one of the manager's list as the manager gave it or
    with the completion handler connected; it has not been started. *)
Definition camera_not_started (E : Environment) (st st' : State) : Prop :=
  camera_ st' = camera_ st ∨ camera_ st' = None
  ∨ ∃ i c, cameras E !! i = Some (Some c)
           ∧ (camera_ st' = Some c
              ∨ (camera_ st' = Some (set_cam_connected c true) ∧ cam_start c ≠ 0)).

(** The state stops at an error: the shutdown of the node is requested and
    the last entry of the log is an error. *)
Definition stopped_with_error (st : State) : Prop :=
  ros_shutdown st = true ∧ ∃ msg, last (ros_log st) = Some (ERROR, msg).

(** The returns of the startup: the shutdown is requested right after the
    error is logged. *)
Ltac stop_tac :=
  unfold stopped_with_error; cbn; rewrite ?last_snoc; split; [done|by eexists].



(** The planes the loop accepts: a defined offset, a valid descriptor, and
    the descriptor [ref] for all of them. *)
Definition plane_accepted (ref : Z) (p : Plane) : Prop :=
  plane_offset p ≠ kInvalidOffset ∧ fd_isValid (plane_fd p) = true ∧ plane_fd p = ref.

#[global] Instance plane_accepted_dec ref p : Decision (plane_accepted ref p).
Proof. unfold plane_accepted. apply _. Defined.

(** Bytes per pixel of packed formats of libcamera, by fourcc; the driver
    holds no such table. *)
Definition bytes_per_pixel (p : PixelFormat) : option Z :=
  if bool_decide (p = Sample.R8) then Some 1
  else if bool_decide (p = Sample.RGB888) then Some 3
  else None.

(** The request has been resubmitted with the pending controls: it is the
    last of the queue of the camera, pending, and every staged control is in
    its control list. *)
Definition resubmitted_with_pending_controls (st' : State) (request : Request)
  : Prop :=
  ∃ camera r,
    camera_ st' = Some camera ∧ last (cam_queue camera) = Some r
    ∧ cookie r = cookie request ∧ status r = RequestPending
    ∧ ∀ id value, parameters_ st' !! id = Some value → controls r !! id = Some value.

(** Every image a step of the run publishes carries the stamp [f ts], for
    [ts] the timestamp the device put on the frame. *)
Definition stamps_along (U : Utils) (st : State) (evs : list Completion)
  (f : Z → Z) : Prop :=
  ∀ pre e post sa sb img ci,
    evs = pre ++ e :: post →
    run U st pre = Some sa →
    final (requestComplete U sa (ev_memory e) (ev_now e) (ev_request e)) = Some sb →
    image_pub_ sb = image_pub_ sa ++ [(img, ci)] →
    ∃ b, findBuffer (ev_request e) (stream_ sa) = Some b
         ∧ stamp (img_header img) = f (timestamp (metadata b)).

(** * Properties *)

(** ** The control parameter validator *)

Section Validator.

Variable U : Utils.

(** What [updateControlParameter] returns, case by case: it accepts exactly
    the values that are not none, have the type of the control, have the
    number of elements of a fixed extent, and are in range. *)
Lemma updateControlParameter_cases st camera value id ci extent :
  camera_ st = Some camera →
  controls_at (cam_controls camera) id = Some ci →
  get_extent U id = Some extent →
  (∃ st', updateControlParameter U st value id = Return (false, st')
          ∧ parameters_ st' = parameters_ st
          ∧ (isNone value = true ∨ cv_type value ≠ cid_type id
             ∨ (cv_isArray value = true ∧ 0 < extent
                ∧ Z.of_nat (numElements value) ≠ extent)
             ∨ ¬ in_range U ci value))
  ∨ (updateControlParameter U st value id
       = Return (true, set_parameters_ st (<[cid_id id := value]> (parameters_ st)))
     ∧ in_range U ci value).
Proof.
  intros Hcam Hat Hext. unfold updateControlParameter, in_range, value_ge, value_le.
  destruct (isNone value) eqn:Hnone.
  { left. eexists. split; [reflexivity|]. split; [reflexivity|]. by left. }
  rewrite Hcam. cbn. rewrite Hat.
  case_bool_decide as Hty.
  { left. eexists. split; [reflexivity|]. split; [reflexivity|]. right. by left. }
  rewrite Hext.
  destruct ((cv_isArray value && (0 <? extent))
            && negb (Z.of_nat (numElements value) =? extent)) eqn:Hdim.
  { left. eexists. split; [reflexivity|]. split; [reflexivity|].
    right. right. left.
    apply andb_prop in Hdim as [Hd1 Hd2]. apply andb_prop in Hd1 as [Ha Hb].
    apply negb_true_iff in Hd2. apply Z.eqb_neq in Hd2. apply Z.ltb_lt in Hb.
    done. }
  destruct (value_lt U value (ci_min ci)) eqn:Hlt; cbn.
  { left. eexists. split; [reflexivity|]. split; [reflexivity|].
    do 3 right. intros [? _]. discriminate. }
  destruct (value_gt U (ci_max ci) (ci_min ci)) eqn:Hmm.
  - destruct (value_gt U value (ci_max ci)) eqn:Hgt.
    + left. eexists. split; [reflexivity|]. split; [reflexivity|].
      do 3 right. intros [_ [?|?]]; discriminate.
    + right. split; [reflexivity|]. split; [done|]. by right.
  - right. split; [reflexivity|]. split; [done|]. by left.
Qed.

(** C3.  A value that [updateControlParameter] accepts is staged under the
    id of the control and satisfies min ≤ value and (max ≤ min or
    value ≤ max); a value that violates either clause is rejected, and
    what was staged before stays as it was. *)
Theorem updateControlParameter_in_range st camera value id ci extent :
  camera_ st = Some camera →
  controls_at (cam_controls camera) id = Some ci →
  get_extent U id = Some extent →
  (∀ st', final (updateControlParameter U st value id) = Some (true, st') →
     parameters_ st' !! cid_id id = Some value ∧ in_range U ci value)
  ∧ (¬ value_ge U value (ci_min ci)
     ∨ ¬ (value_le U (ci_max ci) (ci_min ci) ∨ value_le U value (ci_max ci)) →
     ∃ st', final (updateControlParameter U st value id) = Some (false, st')
            ∧ parameters_ st' = parameters_ st).
Proof.
  intros Hcam Hat Hext.
  destruct (updateControlParameter_cases st camera value id ci extent Hcam Hat Hext)
    as [(st1 & Heq & Hsame & _)|[Heq Hin]]; rewrite Heq; cbn.
  - split; [intros st' [=]|]. intros _. by exists st1.
  - split.
    + intros st' [= <-]. cbn. by rewrite lookup_insert_eq.
    + intros Hbad. exfalso. destruct Hin as [Hge Hle]. by destruct Hbad.
Qed.

End Validator.

(** With the sample helpers the range of a scalar integer control is the
    range of the integers. *)
Lemma in_range_int32 lo hi d v :
  in_range Sample.utils
    {| ci_min := Sample.int32 lo; ci_max := Sample.int32 hi; ci_def := d |}
    (Sample.int32 v)
  ↔ lo ≤ v ∧ (hi ≤ lo ∨ v ≤ hi).
Proof.
  unfold in_range, value_ge, value_le. cbn.
  rewrite !orb_false_r, !Z.ltb_ge. done.
Qed.

(** ** The completion handler *)

Section Completion.

Variable U : Utils.

Lemma buffer_info_index_fields st buffer :
  let st' := (buffer_info_index st buffer).2 in
  camera_ st' = camera_ st ∧ stream_ st' = stream_ st
  ∧ _use_ros_time_ st' = _use_ros_time_ st
  ∧ remove_stride_ st' = remove_stride_ st
  ∧ start_time_offset_ st' = start_time_offset_ st
  ∧ start_time_offset_obtained_ st' = start_time_offset_obtained_ st
  ∧ cinfo_ st' = cinfo_ st ∧ parameters_ st' = parameters_ st
  ∧ ros_log st' = ros_log st ∧ ros_shutdown st' = ros_shutdown st
  ∧ image_pub_ st' = image_pub_ st ∧ frame_id_ st' = frame_id_ st
  ∧ same_members st st'.
Proof. unfold buffer_info_index. by destruct (buffer_info_ st !! fb_addr buffer). Qed.

Lemma same_members_trans st1 st2 st3 :
  same_members st1 st2 → same_members st2 st3 → same_members st1 st3.
Proof. unfold same_members. intros H1 H2. destruct_and!. repeat split; congruence. Qed.

Lemma same_members_refl st : same_members st st.
Proof. by unfold same_members. Qed.

Lemma buffer_info_index_fst s st buffer :
  buffer_info_ s = buffer_info_ st →
  (buffer_info_index s buffer).1 = (buffer_info_index st buffer).1.
Proof.
  intros Hs. unfold buffer_info_index. rewrite Hs.
  by destruct (buffer_info_ st !! fb_addr buffer).
Qed.

(** C6.  A completion with status cancelled publishes nothing, logs the
    cancellation, and hands the request, reset by [reuse], to
    [queueRequest]; on a running camera the request is in the queue again. *)
Theorem requestComplete_cancelled st mem now request camera :
  status request = RequestCancelled →
  camera_ st = Some camera →
  ∃ st', requestComplete U st mem now request = Next st'
    ∧ image_pub_ st' = image_pub_ st
    ∧ ros_log st' = ros_log st ++ [(ERROR, tag +:+ "request cancelled")]
    ∧ camera_ st' = Some (queueRequest camera (reuse request ReuseBuffers))
    ∧ status (reuse request ReuseBuffers) = RequestPending
    ∧ buffers (reuse request ReuseBuffers) = buffers request
    ∧ (cam_running camera = true →
       cam_queue (queueRequest camera (reuse request ReuseBuffers))
       = cam_queue camera ++ [reuse request ReuseBuffers]).
Proof.
  intros Hst Hcam. unfold requestComplete. rewrite Hst. cbn. rewrite Hcam. cbn.
  eexists. split; [reflexivity|]. repeat split.
  intros Hrun. unfold queueRequest. by rewrite Hrun.
Qed.

Lemma memcpy_cases {R} dst off mem src n :
  (∃ d, memcpy (R:=R) dst off mem src n = Next d)
  ∨ (∃ f, memcpy (R:=R) dst off mem src n = Crash f).
Proof.
  unfold memcpy. destruct (read_bytes mem src (Z.to_nat n)); [|right; eauto].
  destruct ((0 <=? off) && (off + n <=? Z.of_nat (length dst))); eauto.
Qed.

Lemma remove_stride_loop_cases {R} n i cfg mem src dst :
  (∃ d, remove_stride_loop (R:=R) n i cfg mem src dst = Next d)
  ∨ (∃ f, remove_stride_loop (R:=R) n i cfg mem src dst = Crash f).
Proof.
  revert i dst. induction n as [|n IH]; intros i dst; cbn; [eauto|].
  destruct (memcpy_cases (R:=R) dst (wrap32 (i * width cfg * 3)) mem
              (src + wrap32 (i * stride cfg)) (wrap32 (width cfg * 3)))
    as [[d ->]|[f ->]]; cbn; [|eauto].
  destruct (i =? INT_MAX); eauto.
Qed.

Lemma requestComplete_stamp_spec st now ts :
  let st1 := (requestComplete_stamp st now ts).1 in
  camera_ st1 = camera_ st ∧ cinfo_ st1 = cinfo_ st
  ∧ image_pub_ st1 = image_pub_ st ∧ ros_log st1 = ros_log st
  ∧ buffer_info_ st1 = buffer_info_ st
  ∧ same_members st st1
  ∧ start_time_offset_obtained_ st1
    = (_use_ros_time_ st || start_time_offset_obtained_ st)
  ∧ start_time_offset_ st1
    = (if _use_ros_time_ st && negb (start_time_offset_obtained_ st)
       then now - ts else start_time_offset_ st)
  ∧ (requestComplete_stamp st now ts).2
    = (if _use_ros_time_ st then ts + start_time_offset_ st1 else ts).
Proof.
  unfold requestComplete_stamp, same_members.
  by destruct (_use_ros_time_ st) eqn:Hu, (start_time_offset_obtained_ st) eqn:Ho; cbn;
    rewrite ?Hu.
Qed.

(** The branch of a raw format stops at the assertion or at a copy, or gives
    the image with the header it was given. *)
Lemma requestComplete_raw_cases st mem hdr cfg buffer bytesused :
  (∃ f, requestComplete_raw U st mem hdr cfg buffer bytesused = Crash f)
  ∨ (∃ img, requestComplete_raw U st mem hdr cfg buffer bytesused
            = Next (img, (buffer_info_index st buffer).2)
            ∧ img_header img = hdr
            ∧ bi_size (buffer_info_index st buffer).1 = bytesused).
Proof.
  unfold requestComplete_raw.
  destruct (buffer_info_index st buffer) as [bi st2]. cbn.
  destruct (bi_size bi =? bytesused) eqn:Has; cbn; [|left; eauto].
  apply Z.eqb_eq in Has.
  destruct (negb (remove_stride_ st2)).
  - destruct (memcpy_cases (R:=State) (resize (bi_size bi)) 0 mem
                (bi_data bi) (bi_size bi)) as [[d Hm]|[f Hm]]; rewrite Hm; cbn;
      [right|left]; eauto.
  - match goal with
    | |- context [remove_stride_loop ?n ?i ?c ?m ?a ?b] =>
        destruct (remove_stride_loop_cases (R:=State) n i c m a b)
          as [[d Hm]|[f Hm]]; rewrite Hm; cbn; [right|left]; eauto
    end.
Qed.

(** What a completion with status complete leaves behind when the handler
    ends: the offset of the clocks, and either an early return on a format
    that is not raw, or one published image and the request queued again. *)
Lemma requestComplete_complete_final st mem now request st' :
  status request = RequestComplete →
  final (requestComplete U st mem now request) = Some st' →
  ∃ buffer stream,
    size (buffers request) = 1%nat
    ∧ findBuffer request (stream_ st) = Some buffer
    ∧ stream_ st = Some stream
    ∧ same_members st st'
    ∧ start_time_offset_obtained_ st'
      = (_use_ros_time_ st || start_time_offset_obtained_ st)
    ∧ start_time_offset_ st'
      = (if _use_ros_time_ st && negb (start_time_offset_obtained_ st)
         then now - timestamp (metadata buffer) else start_time_offset_ st)
    ∧ ((format_type U (pixelFormat (configuration stream)) = NONRAW
        ∧ requestComplete U st mem now request = Return st'
        ∧ image_pub_ st' = image_pub_ st
        ∧ camera_ st' = camera_ st
        ∧ ros_log st'
          = ros_log st ++ [(ERROR, tag +:+ "unsupported pixel format: ")])
       ∨ (format_type U (pixelFormat (configuration stream)) = RAW
          ∧ requestComplete U st mem now request = Next st'
          ∧ bi_size (buffer_info_index st buffer).1 = bytesused_sum (metadata buffer)
          ∧ ∃ img ci camera,
              image_pub_ st' = image_pub_ st ++ [(img, ci)]
              ∧ stamp (img_header img)
                = (if _use_ros_time_ st
                   then timestamp (metadata buffer) + start_time_offset_ st'
                   else timestamp (metadata buffer))
              ∧ cinfo_header ci = img_header img
              ∧ camera_ st = Some camera
              ∧ camera_ st'
                = Some (queueRequest camera (reuse request ReuseBuffers)))).
Proof.
  intros Hst. unfold requestComplete. rewrite Hst. cbn.
  case_bool_decide as Hsz; [|discriminate]. cbn.
  destruct (findBuffer request (stream_ st)) as [buffer|]; [|discriminate]. cbn.
  pose proof (requestComplete_stamp_spec st now (timestamp (metadata buffer))) as Hsp.
  cbn in Hsp.
  destruct (requestComplete_stamp st now (timestamp (metadata buffer))) as [st1 stamp1].
  cbn in Hsp. destruct Hsp as (Hc1 & Hi1 & Hp1 & Hl1 & Hb1 & Hsm1 & Hob1 & Ho1 & Hstamp).
  assert (Hs1 : stream_ st1 = stream_ st) by apply Hsm1. rewrite Hs1.
  destruct (stream_ st) as [stream|] eqn:Hstream; [|discriminate]. cbn.
  intros Hfin. exists buffer, stream. do 3 (split; [done|]).
  destruct (format_type U (pixelFormat (configuration stream))) eqn:Hfmt.
  - pose proof (buffer_info_index_fields st1 buffer) as Hbi. cbn in Hbi.
    destruct Hbi as (Hc2 & _ & _ & _ & Ho2 & Hob2 & Hi2 & _ & Hl2 & _ & Hp2 & _ & Hsm2).
    pose proof (buffer_info_index_fst st1 st buffer Hb1) as Hfst.
    destruct (requestComplete_raw_cases st1 mem
                {| stamp := stamp1; frame_id := frame_id_ st1 |}
                (configuration stream) buffer (bytesused_sum (metadata buffer)))
      as [[f Hr]|(img & Hr & Hh & Hsize)]; rewrite Hr in Hfin |- *;
      [by cbn in Hfin|].
    set (st2 := (buffer_info_index st1 buffer).2) in *.
    cbn in Hfin |- *. rewrite Hi2, Hi1 in Hfin |- *.
    destruct (cinfo_ st) as [cinfo|]; [|discriminate]. cbn in Hfin |- *.
    rewrite Hc2, Hc1 in Hfin |- *.
    destruct (camera_ st) as [camera|]; [|discriminate]. cbn in Hfin |- *.
    injection Hfin as <-. cbn. rewrite Hob2, Ho2, Hob1, Ho1, Hp2, Hp1.
    split; [by eapply same_members_trans|]. do 2 (split; [done|]).
    right. split; [done|]. split; [done|]. split; [congruence|].
    eexists img, _, camera. split; [reflexivity|]. rewrite Hh. cbn.
    split; [|done]. rewrite Hstamp. by rewrite Ho1.
  - cbn in Hfin |- *. injection Hfin as <-. cbn.
    rewrite Hob1, Ho1, Hp1, Hc1, Hl1.
    split; [by apply Hsm1|]. do 2 (split; [done|]). left. done.
Qed.

(** A completion with another status leaves the handler at its end, with
    nothing published. *)
Lemma requestComplete_other_final st mem now request st' :
  status request ≠ RequestComplete →
  final (requestComplete U st mem now request) = Some st' →
  same_members st st'
  ∧ start_time_offset_obtained_ st' = start_time_offset_obtained_ st
  ∧ start_time_offset_ st' = start_time_offset_ st
  ∧ image_pub_ st' = image_pub_ st
  ∧ requestComplete U st mem now request = Next st'
  ∧ ∃ camera, camera_ st = Some camera
      ∧ camera_ st' = Some (queueRequest camera (reuse request ReuseBuffers)).
Proof.
  intros Hst. unfold requestComplete, same_members.
  destruct (status request); [|done|]; cbn;
    (destruct (camera_ st) as [camera|]; [|discriminate]); cbn;
    intros [= <-]; cbn; repeat split; eauto.
Qed.

(** C10.  For a completed frame of a raw format, the assertion that the
    bytes used by the planes add up to the mapped size of the buffer comes
    before the assembly, whether the stride is removed or not: when the two
    differ the handler stops at the assertion, whatever [remove_stride_]
    and the memory are, and a handler that gets past it has found them
    equal. *)
Theorem requestComplete_asserts_size st mem now request buffer stream :
  status request = RequestComplete →
  size (buffers request) = 1%nat →
  findBuffer request (stream_ st) = Some buffer →
  stream_ st = Some stream →
  format_type U (pixelFormat (configuration stream)) = RAW →
  (bi_size (buffer_info_index st buffer).1 ≠ bytesused_sum (metadata buffer) →
   requestComplete U st mem now request = Crash AssertionFailed)
  ∧ (∀ st', final (requestComplete U st mem now request) = Some st' →
     bi_size (buffer_info_index st buffer).1 = bytesused_sum (metadata buffer)).
Proof.
  intros Hst Hsz Hbuf Hstream Hraw.
  assert (Hcrash : bi_size (buffer_info_index st buffer).1
                   ≠ bytesused_sum (metadata buffer) →
                   requestComplete U st mem now request = Crash AssertionFailed).
  { intros Hne. unfold requestComplete. rewrite Hst. cbn.
    rewrite bool_decide_eq_true_2 by done. cbn. rewrite Hbuf. cbn.
    pose proof (requestComplete_stamp_spec st now (timestamp (metadata buffer))) as Hsp.
    cbn in Hsp.
    destruct (requestComplete_stamp st now (timestamp (metadata buffer))) as [st1 stamp1].
    cbn in Hsp. destruct Hsp as (_ & _ & _ & _ & Hb1 & Hsm1 & _).
    assert (Hs1 : stream_ st1 = stream_ st) by apply Hsm1.
    rewrite Hs1, Hstream. cbn. rewrite Hraw.
    pose proof (buffer_info_index_fst st1 st buffer Hb1) as Hfst.
    unfold requestComplete_raw.
    destruct (buffer_info_index st1 buffer) as [bi st2]. cbn in Hfst. subst bi.
    apply Z.eqb_neq in Hne. by rewrite Hne. }
  split; [exact Hcrash|].
  intros st' Hfin.
  destruct (decide (bi_size (buffer_info_index st buffer).1
                    = bytesused_sum (metadata buffer))) as [|Hne]; [done|].
  rewrite (Hcrash Hne) in Hfin. discriminate.
Qed.

(** A completed frame of a format that is not raw: the handler logs the
    error and returns before the lines that queue the request again. *)
Lemma requestComplete_nonraw_returns st mem now request buffer stream :
  status request = RequestComplete →
  size (buffers request) = 1%nat →
  findBuffer request (stream_ st) = Some buffer →
  stream_ st = Some stream →
  format_type U (pixelFormat (configuration stream)) = NONRAW →
  ∃ st', requestComplete U st mem now request = Return st'
    ∧ image_pub_ st' = image_pub_ st
    ∧ camera_ st' = camera_ st
    ∧ ros_log st' = ros_log st ++ [(ERROR, tag +:+ "unsupported pixel format: ")].
Proof.
  intros Hst Hsz Hbuf Hstream Hfmt.
  assert (∃ st', final (requestComplete U st mem now request) = Some st') as [st' Hfin].
  { unfold requestComplete. rewrite Hst. cbn.
    rewrite bool_decide_eq_true_2 by done. cbn. rewrite Hbuf. cbn.
    pose proof (requestComplete_stamp_spec st now (timestamp (metadata buffer))) as Hsp.
    cbn in Hsp.
    destruct (requestComplete_stamp st now (timestamp (metadata buffer))) as [st1 stamp1].
    cbn in Hsp. destruct Hsp as (_ & _ & _ & _ & _ & Hsm1 & _).
    assert (Hs1 : stream_ st1 = stream_ st) by apply Hsm1.
    rewrite Hs1, Hstream. cbn. rewrite Hfmt. cbn. eauto. }
  exists st'.
  destruct (requestComplete_complete_final st mem now request st' Hst Hfin)
    as (b & s & _ & _ & Hs & _ & _ & _ & [(_ & ? & ? & ? & ?)|(Hraw & _)]); [done|].
  congruence.
Qed.

(** ** The stamps of the published images *)

Lemma run_cons st e evs st' :
  run U st (e :: evs) = Some st' ↔
  ∃ s1, final (requestComplete U st (ev_memory e) (ev_now e) (ev_request e)) = Some s1
        ∧ run U s1 evs = Some st'.
Proof.
  cbn. destruct (final _) as [s1|]; cbn; split.
  - eauto.
  - by intros (? & [= <-] & ?).
  - done.
  - by intros (? & ? & ?).
Qed.

Lemma stamps_along_nil st f : stamps_along U st [] f.
Proof. intros pre e post ????? Heq. by destruct pre. Qed.

Lemma stamps_along_cons st e evs f :
  (∀ sb img ci,
     final (requestComplete U st (ev_memory e) (ev_now e) (ev_request e)) = Some sb →
     image_pub_ sb = image_pub_ st ++ [(img, ci)] →
     ∃ b, findBuffer (ev_request e) (stream_ st) = Some b
          ∧ stamp (img_header img) = f (timestamp (metadata b))) →
  (∀ s1, final (requestComplete U st (ev_memory e) (ev_now e) (ev_request e)) = Some s1 →
         stamps_along U s1 evs f) →
  stamps_along U st (e :: evs) f.
Proof.
  intros Hhead Htail pre e' post sa sb img ci Heq Hrun Hfin Hpub.
  destruct pre as [|e1 pre]; cbn in Heq; injection Heq as <- ->.
  - cbn in Hrun. injection Hrun as <-. eauto.
  - apply run_cons in Hrun as (s1 & Hs1 & Hrun).
    eapply (Htail s1 Hs1 pre e' post); eauto.
Qed.

(** The image a step publishes, if it publishes one. *)
Lemma requestComplete_published st mem now request sb img ci :
  final (requestComplete U st mem now request) = Some sb →
  image_pub_ sb = image_pub_ st ++ [(img, ci)] →
  ∃ b, findBuffer request (stream_ st) = Some b
       ∧ status request = RequestComplete
       ∧ stamp (img_header img)
         = (if _use_ros_time_ st
            then timestamp (metadata b) + start_time_offset_ sb
            else timestamp (metadata b)).
Proof.
  intros Hfin Hpub.
  assert (Hno : image_pub_ sb ≠ image_pub_ st).
  { rewrite Hpub. intros Heq. apply (f_equal length) in Heq.
    rewrite length_app in Heq. cbn in Heq. lia. }
  destruct (decide (status request = RequestComplete)) as [Hst|Hst].
  - destruct (requestComplete_complete_final st mem now request sb Hst Hfin)
      as (b & s & _ & Hb & _ & _ & _ & _ & [(_ & _ & ? & _)|(_ & _ & _ & Himg)]); [done|].
    destruct Himg as (img' & ci' & cam & Hpub' & Hstamp & _).
    rewrite Hpub in Hpub'. apply app_inj_tail in Hpub' as [_ [= -> ->]].
    by exists b.
  - by destruct (requestComplete_other_final st mem now request sb Hst Hfin)
      as (_ & _ & _ & ? & _).
Qed.

(** What a step does to the offset of the clocks. *)
Lemma requestComplete_offset st mem now request sb :
  final (requestComplete U st mem now request) = Some sb →
  _use_ros_time_ sb = _use_ros_time_ st ∧ stream_ sb = stream_ st
  ∧ (_use_ros_time_ st = false ∨ start_time_offset_obtained_ st = true
     ∨ status request ≠ RequestComplete →
     start_time_offset_ sb = start_time_offset_ st
     ∧ (start_time_offset_obtained_ st = true → start_time_offset_obtained_ sb = true)
     ∧ (status request ≠ RequestComplete →
        start_time_offset_obtained_ sb = start_time_offset_obtained_ st))
  ∧ (_use_ros_time_ st = true → start_time_offset_obtained_ st = false →
     status request = RequestComplete →
     ∃ b, findBuffer request (stream_ st) = Some b
          ∧ start_time_offset_obtained_ sb = true
          ∧ start_time_offset_ sb = now - timestamp (metadata b)).
Proof.
  intros Hfin.
  destruct (decide (status request = RequestComplete)) as [Hst|Hst].
  - destruct (requestComplete_complete_final st mem now request sb Hst Hfin)
      as (b & s & _ & Hb & _ & Hsm & Hob & Ho & _).
    split; [apply Hsm|]. split; [apply Hsm|]. split.
    + intros [Hu|[Hobt|?]]; [| |done].
      * rewrite Hu in Ho, Hob. cbn in Ho, Hob. rewrite Ho, Hob. by split.
      * rewrite Hobt, andb_false_r in Ho. rewrite Hobt, orb_true_r in Hob. by split.
    + intros Hu Hobt _. exists b. rewrite Hu, Hobt in Ho, Hob. by split.
  - destruct (requestComplete_other_final st mem now request sb Hst Hfin)
      as (Hsm & Hob & Ho & _).
    split; [apply Hsm|]. split; [apply Hsm|]. split; [|done].
    intros _. rewrite Hob, Ho. by split.
Qed.

(** Without the wall-clock mode every published stamp is the timestamp of
    the device. *)
Lemma stamps_along_device_clock evs st :
  _use_ros_time_ st = false → stamps_along U st evs (λ ts, ts).
Proof.
  revert st. induction evs as [|e evs IH]; intros st Hu; [apply stamps_along_nil|].
  apply stamps_along_cons.
  - intros sb img ci Hfin Hpub.
    destruct (requestComplete_published _ _ _ _ _ _ _ Hfin Hpub) as (b & Hb & _ & Hs).
    exists b. by rewrite Hu in Hs.
  - intros s1 Hs1. apply IH.
    destruct (requestComplete_offset _ _ _ _ _ Hs1) as (-> & _). done.
Qed.

(** Once the offset is obtained it stays, and every published stamp is the
    timestamp of the device plus that offset. *)
Lemma stamps_along_obtained evs st :
  _use_ros_time_ st = true → start_time_offset_obtained_ st = true →
  stamps_along U st evs (λ ts, ts + start_time_offset_ st)
  ∧ ∀ st', run U st evs = Some st' →
      start_time_offset_ st' = start_time_offset_ st
      ∧ start_time_offset_obtained_ st' = true.
Proof.
  revert st. induction evs as [|e evs IH]; intros st Hu Ho.
  { split; [apply stamps_along_nil|]. by intros st' [= <-]. }
  assert (Hstep : ∀ s1,
    final (requestComplete U st (ev_memory e) (ev_now e) (ev_request e)) = Some s1 →
    _use_ros_time_ s1 = true ∧ start_time_offset_obtained_ s1 = true
    ∧ start_time_offset_ s1 = start_time_offset_ st).
  { intros s1 Hs1.
    destruct (requestComplete_offset _ _ _ _ _ Hs1) as (Hu1 & _ & Hkeep & _).
    destruct Hkeep as (? & ? & _); [by right; left|]. rewrite Hu1. auto. }
  split.
  - apply stamps_along_cons.
    + intros sb img ci Hfin Hpub.
      destruct (requestComplete_published _ _ _ _ _ _ _ Hfin Hpub) as (b & Hb & _ & Hs).
      exists b. split; [done|]. rewrite Hu in Hs.
      destruct (Hstep sb Hfin) as (_ & _ & <-). done.
    + intros s1 Hs1. destruct (Hstep s1 Hs1) as (Hu1 & Ho1 & <-).
      by apply IH.
  - intros st' Hrun. apply run_cons in Hrun as (s1 & Hs1 & Hrun).
    destruct (Hstep s1 Hs1) as (Hu1 & Ho1 & <-).
    by apply (IH s1 Hu1 Ho1).
Qed.

(** C8.  With the wall-clock mode the offset between the two clocks is
    taken at the first completed frame, as the time of the call minus the
    timestamp of that frame, it is not written again, and every image
    published carries the timestamp of its frame plus that offset; without
    the mode every image carries the timestamp of its frame as it is. *)
Theorem ros_time_offset_captured_once st evs st' :
  run U st evs = Some st' →
  (_use_ros_time_ st = false → stamps_along U st evs (λ ts, ts))
  ∧ (_use_ros_time_ st = true → start_time_offset_obtained_ st = false →
     ∀ evs1 e0 evs2 b0,
       evs = evs1 ++ e0 :: evs2 →
       Forall (λ e, status (ev_request e) ≠ RequestComplete) evs1 →
       status (ev_request e0) = RequestComplete →
       findBuffer (ev_request e0) (stream_ st) = Some b0 →
       start_time_offset_obtained_ st' = true
       ∧ start_time_offset_ st' = ev_now e0 - timestamp (metadata b0)
       ∧ stamps_along U st evs
           (λ ts, ts + (ev_now e0 - timestamp (metadata b0)))).
Proof.
  intros Hrun. split; [apply stamps_along_device_clock|].
  intros Hu Ho evs1 e0 evs2 b0 -> Hpre Hc0 Hb0.
  revert st Hrun Hu Ho Hb0. induction Hpre as [|e evs1 He Hpre IH]; intros st Hrun Hu Ho Hb0.
  - cbn [app] in Hrun |- *. apply run_cons in Hrun as (s1 & Hs1 & Hrun).
    destruct (requestComplete_offset _ _ _ _ _ Hs1) as (Hu1 & _ & _ & Hset).
    destruct (Hset Hu Ho Hc0) as (b & Hb & Ho1 & Hoff).
    rewrite Hb0 in Hb. injection Hb as <-. rewrite Hu in Hu1.
    destruct (stamps_along_obtained evs2 s1 Hu1 Ho1) as [Halong Hkeep].
    destruct (Hkeep st' Hrun) as [Hoff' Ho'].
    split; [done|]. split; [congruence|].
    apply stamps_along_cons.
    + intros sb img ci Hfin Hpub. rewrite Hs1 in Hfin. injection Hfin as <-.
      destruct (requestComplete_published _ _ _ _ _ _ _ Hs1 Hpub) as (b & Hb & _ & Hs).
      exists b. split; [done|]. rewrite Hu, Hoff in Hs. done.
    + intros s1' Hs1'. rewrite Hs1 in Hs1'. injection Hs1' as <-.
      by rewrite <- Hoff.
  - cbn [app] in Hrun |- *. apply run_cons in Hrun as (s1 & Hs1 & Hrun).
    destruct (requestComplete_offset _ _ _ _ _ Hs1) as (Hu1 & Hstr & Hkeep & _).
    destruct Hkeep as (Hoff & _ & Hob); [by right; right|].
    rewrite Hu in Hu1. specialize (Hob He). rewrite Ho in Hob.
    rewrite <- Hstr in Hb0.
    destruct (IH s1 Hrun Hu1 Hob Hb0) as (? & ? & Halong).
    split; [done|]. split; [done|].
    apply stamps_along_cons.
    + intros sb img ci Hfin Hpub.
      destruct (requestComplete_published _ _ _ _ _ _ _ Hfin Hpub) as (b & _ & Hc & _).
      done.
    + intros s1' Hs1'. rewrite Hs1 in Hs1'. by injection Hs1' as <-.
Qed.

End Completion.

(** ** Mapping the buffers *)

Section Mapping.

Variable E : Environment.

Lemma fd_isValid_true fd : fd_isValid fd = true ↔ fd ≠ -1.
Proof. unfold fd_isValid. rewrite negb_true_iff. apply Z.eqb_neq. Qed.

Lemma wrap32_nonneg x : 0 ≤ wrap32 x.
Proof. unfold wrap32. apply Z.mod_pos_bound. lia. Qed.

Lemma planes_length_nonneg ps : 0 ≤ planes_length ps.
Proof. unfold planes_length. induction ps; cbn; lia. Qed.

(** The loop over the planes, from any point of its run: [fd] is -1 before
    the first plane and the descriptor of the planes seen after it. *)
Lemma onInit_planes_spec ps buffer_length fd st :
  0 ≤ buffer_length →
  let ref := if decide (fd = -1) then planes_fd ps else fd in
  if decide (Forall (plane_accepted ref) ps)
  then onInit_planes ps buffer_length fd st
       = Next (Z.max buffer_length (planes_length ps), ref)
  else ∃ msg, onInit_planes ps buffer_length fd st
              = Return (ros_shutdown_call (ROS_ERROR msg st)).
Proof.
  revert buffer_length fd. induction ps as [|p ps IH]; intros len fd Hlen; cbn.
  { rewrite decide_True by constructor. cbn. rewrite Z.max_l by done.
    by destruct (decide (fd = -1)) as [->|]. }
  destruct (plane_offset p =? kInvalidOffset) eqn:Hoff.
  { apply Z.eqb_eq in Hoff. rewrite decide_False; [eauto|].
    intros HF. apply Forall_cons in HF as [(? & _) _]. done. }
  apply Z.eqb_neq in Hoff.
  destruct (fd_isValid (plane_fd p)) eqn:Hvalid; cbn.
  2:{ rewrite decide_False; [eauto|].
      intros HF. apply Forall_cons in HF as [(_ & ? & _) _]. congruence. }
  pose proof (wrap32_nonneg (plane_offset p + plane_length p)) as Hw.
  pose proof (proj1 (fd_isValid_true _) Hvalid) as Hne.
  destruct (decide (fd = -1)) as [->|Hfd].
  - cbn.
    specialize (IH (Z.max len (wrap32 (plane_offset p + plane_length p)))
                   (plane_fd p) ltac:(lia)).
    cbn in IH. destruct (decide (plane_fd p = -1)) as [|_]; [done|].
    destruct (decide (Forall (plane_accepted (plane_fd p)) ps)) as [HF|HF].
    + rewrite decide_True by (constructor; done).
      rewrite IH. unfold planes_length. cbn. by rewrite Z.max_assoc.
    + rewrite decide_False; [exact IH|].
      intros HF'. by apply Forall_cons in HF' as [_ ?].
  - rewrite (proj2 (Z.eqb_neq fd (-1)) Hfd).
    destruct (fd =? plane_fd p) eqn:Hsame; cbn.
    + apply Z.eqb_eq in Hsame.
      specialize (IH (Z.max len (wrap32 (plane_offset p + plane_length p)))
                     fd ltac:(lia)).
      cbn in IH. destruct (decide (fd = -1)) as [|_]; [done|].
      destruct (decide (Forall (plane_accepted fd) ps)) as [HF|HF].
      * rewrite decide_True by (constructor; done).
        rewrite IH. unfold planes_length. cbn. by rewrite Z.max_assoc.
      * rewrite decide_False; [exact IH|].
        intros HF'. by apply Forall_cons in HF' as [_ ?].
    + apply Z.eqb_neq in Hsame. rewrite decide_False; [eauto|].
      intros HF. apply Forall_cons in HF as [(_ & _ & ?) _]. congruence.
Qed.

(** The planes the loop accepts are those without a defect. *)
Lemma planes_accepted_iff ps :
  Forall (plane_accepted (planes_fd ps)) ps ↔ ¬ planes_defect ps.
Proof.
  unfold planes_defect, offset_or_descriptor_defect. split.
  - intros HF [[(p & Hp & Hoff)|(p & q & Hp & Hq & Hne)]|(p & Hp & Hv)].
    + rewrite Forall_forall in HF. by destruct (HF p Hp) as (? & _).
    + rewrite Forall_forall in HF.
      destruct (HF p Hp) as (_ & _ & ?), (HF q Hq) as (_ & _ & ?). congruence.
    + rewrite Forall_forall in HF. destruct (HF p Hp) as (_ & ? & _). congruence.
  - intros Hno. apply Forall_forall. intros p Hp. split; [|split].
    + intros Hoff. apply Hno. left. left. eauto.
    + destruct (fd_isValid (plane_fd p)) eqn:Hv; [done|].
      exfalso. apply Hno. right. eauto.
    + destruct (decide (plane_fd p = planes_fd ps)) as [|Hne]; [done|].
      exfalso. apply Hno. left. right.
      destruct ps as [|q ps]; [by apply elem_of_nil in Hp|].
      exists p, q. split; [done|]. split; [apply list_elem_of_here|done].
Qed.

(** C7, as the code has it.  Mapping a buffer is an error that ends
    [onInit] with the shutdown requested when a plane has an undefined
    offset, when a plane has a descriptor that is not valid, when two planes
    have differing descriptors, or when [mmap] fails; nothing is recorded
    then.  Otherwise the length recorded for the buffer is the greatest
    [offset + length] of its planes, the sum taken in [unsigned int], and
    the region of that length is mapped from offset 0, read-only and
    shared. *)
Theorem onInit_map_buffer_spec buffer st :
  (planes_defect (planes buffer) ∨ sys_mmap E (mmap_args (planes buffer)) = None →
   ∃ msg, onInit_map_buffer E buffer st
          = Return (ros_shutdown_call (ROS_ERROR msg st)))
  ∧ (¬ planes_defect (planes buffer) →
     ∀ data, sys_mmap E (mmap_args (planes buffer)) = Some data →
     ∃ st', onInit_map_buffer E buffer st = Next st'
       ∧ buffer_info_ st' !! fb_addr buffer
         = Some {| bi_data := data; bi_size := planes_length (planes buffer) |}
       ∧ address_space st' = address_space st ++ [(data, mmap_args (planes buffer))]
       ∧ mm_prot (mmap_args (planes buffer)) = PROT_READ
       ∧ mm_flags (mmap_args (planes buffer)) = MAP_SHARED
       ∧ ros_shutdown st' = ros_shutdown st).
Proof.
  pose proof (onInit_planes_spec (planes buffer) 0 (-1) st ltac:(done)) as Hp.
  cbv zeta in Hp.
  replace (if decide (-1 = -1) is left _ then planes_fd (planes buffer) else -1)
    with (planes_fd (planes buffer)) in Hp by (by destruct (decide (-1 = -1))).
  pose proof (planes_length_nonneg (planes buffer)) as Hlen.
  unfold onInit_map_buffer. split.
  - intros Hbad.
    destruct (decide (Forall (plane_accepted (planes_fd (planes buffer)))
                        (planes buffer))) as [HF|HF].
    + destruct Hbad as [Hdef|Hmm]; [by apply planes_accepted_iff in HF|].
      rewrite Hp. cbn. rewrite Z.max_r by done.
      fold (mmap_args (planes buffer)). rewrite Hmm. eauto.
    + destruct Hp as [msg ->]. cbn. eauto.
  - intros Hok data Hmm. apply planes_accepted_iff in Hok.
    rewrite decide_True in Hp by done.
    rewrite Hp. cbn. rewrite Z.max_r by done.
    fold (mmap_args (planes buffer)). rewrite Hmm.
    eexists. split; [reflexivity|]. cbn. by rewrite lookup_insert_eq.
Qed.

End Mapping.

(** ** Startup *)

Section Startup.

Variable U : Utils.
Variable E : Environment.

(** Setting the staged controls on a request leaves it with all of them. *)
Lemma controls_set_fold (m : gmap N ControlValue) (r : Request) :
  let r' := map_fold (λ id value r, controls_set r id value) r m in
  controls r' = m ∪ controls r ∧ cookie r' = cookie r
  ∧ status r' = status r ∧ buffers r' = buffers r.
Proof.
  cbv zeta.
  apply (map_fold_weak_ind
           (λ r' m, controls r' = m ∪ controls r ∧ cookie r' = cookie r
                    ∧ status r' = status r ∧ buffers r' = buffers r)).
  - by rewrite (left_id_L ∅ (∪)).
  - intros i x m' r' Hi (Hc & ? & ? & ?). cbn. rewrite Hc.
    by rewrite insert_union_l.
Qed.

Lemma onInit_map_buffer_members buffer st st' :
  final (onInit_map_buffer E buffer st) = Some st' →
  parameters_ st' = parameters_ st ∧ requests_ st' = requests_ st
  ∧ stream_ st' = stream_ st ∧ camera_ st' = camera_ st.
Proof.
  unfold onInit_map_buffer.
  destruct (onInit_planes (planes buffer) 0 (-1) st) as [[len fd]|r|f] eqn:Hp; cbn.
  - destruct (sys_mmap E _); cbn; by intros [= <-].
  - intros [= <-]. clear -Hp. revert Hp.
    generalize 0 at 1. generalize (-1). 
    induction (planes buffer) as [|p ps IH]; intros fd len; cbn; [done|].
    repeat case_match; try done; try (by intros [= <-]); apply IH.
  - done.
Qed.

(** A request is built with the staged controls set on it. *)
Lemma onInit_buffer_controls buffer st st' :
  onInit_buffer E buffer st = Next st' →
  parameters_ st' = parameters_ st
  ∧ ∃ r, requests_ st' = requests_ st ++ [r]
         ∧ ∀ id value, parameters_ st !! id = Some value →
                       controls r !! id = Some value.
Proof.
  unfold onInit_buffer. destruct (camera_ st) as [camera|]; [|done]. cbn.
  destruct (cam_createRequest camera (length (requests_ st))) as [request|]; [|done].
  destruct (onInit_map_buffer E buffer st) as [st1|r|f] eqn:Hmap; [|done..]. cbn.
  destruct (onInit_map_buffer_members buffer st st1) as (Hp & Hr & _);
    [by rewrite Hmap|].
  destruct (addBuffer request (stream_ st1) buffer) as [ret request'].
  destruct (ret <? 0); [done|]. intros [= <-]. cbn. split; [done|].
  eexists. split; [by rewrite Hr|].
  intros id value Hid.
  destruct (controls_set_fold (parameters_ st1) request') as (-> & _).
  apply lookup_union_Some_l. by rewrite Hp.
Qed.

(** A control the camera did not declare has no id, and the block of the
    control dereferences the null pointer [parameter_ids_] holds for it. *)
Lemma onInit_control_undeclared name value st :
  (parameter_ids_ st !! name = None ∨ parameter_ids_ st !! name = Some None) →
  onInit_control U name value st = Crash NullDereference.
Proof.
  unfold onInit_control, parameter_ids_index. by intros [-> | ->].
Qed.

(** The block of [control/awb_enable] rejects the control that was not
    declared, without a look at its id: it logs the error and leaves what is
    staged alone. *)
Lemma onInit_control_AwbEnable_undeclared param_bool st :
  (parameter_ids_ st !! "AwbEnable" = None
   ∨ parameter_ids_ st !! "AwbEnable" = Some None) →
  ∃ st', onInit_control_AwbEnable U param_bool st = Next st'
    ∧ parameters_ st' = parameters_ st
    ∧ ros_log st' = ros_log st ++ [(ERROR, tag +:+
        "Parameter AwbEnable is not available! Maybe the selected camera is grayscale")].
Proof.
  unfold onInit_control_AwbEnable, parameter_ids_index.
  intros [-> | ->]; eexists; (split; [reflexivity|done]).
Qed.

(** A handler that runs to its end has queued the request, reset. *)
Lemma requestComplete_next st mem now request camera st' :
  camera_ st = Some camera → cam_running camera = true →
  requestComplete U st mem now request = Next st' →
  camera_ st'
  = Some (set_cam_queue camera (cam_queue camera ++ [reuse request ReuseBuffers]))
  ∧ same_members st st'.
Proof.
  intros Hcam Hrun Hnext.
  assert (Hfin : final (requestComplete U st mem now request) = Some st')
    by (by rewrite Hnext).
  assert (Hq : queueRequest camera (reuse request ReuseBuffers)
               = set_cam_queue camera (cam_queue camera ++ [reuse request ReuseBuffers])).
  { unfold queueRequest. by rewrite Hrun. }
  destruct (decide (status request = RequestComplete)) as [Hst|Hst].
  - destruct (requestComplete_complete_final U st mem now request st' Hst Hfin)
      as (b & s & _ & _ & _ & Hsm & _ & _ & [(_ & Hret & _)|(_ & _ & _ & Himg)]).
    + congruence.
    + destruct Himg as (img & ci & cam & _ & _ & _ & Hc & Hc').
      rewrite Hcam in Hc. injection Hc as <-. by rewrite Hc', Hq.
  - destruct (requestComplete_other_final U st mem now request st' Hst Hfin)
      as (Hsm & _ & _ & _ & _ & cam & Hc & Hc').
    rewrite Hcam in Hc. injection Hc as <-. by rewrite Hc', Hq.
Qed.

(** The handler ends at its end unless the frame is complete and of a format
    that is not raw. *)
Lemma requestComplete_final_next st mem now request stream st' :
  final (requestComplete U st mem now request) = Some st' →
  stream_ st = Some stream →
  status request ≠ RequestComplete
  ∨ format_type U (pixelFormat (configuration stream)) = RAW →
  requestComplete U st mem now request = Next st'.
Proof.
  intros Hfin Hstream Hcase.
  destruct (decide (status request = RequestComplete)) as [Hst|Hst].
  - destruct Hcase as [?|Hraw]; [done|].
    destruct (requestComplete_complete_final U st mem now request st' Hst Hfin)
      as (b & s & _ & _ & Hs & _ & _ & _ & [(Hnon & _)|(_ & Hnext & _)]); [|done].
    congruence.
  - by destruct (requestComplete_other_final U st mem now request st' Hst Hfin)
      as (_ & _ & _ & _ & ? & _).
Qed.

(** Cycle after cycle: all the requests of a run are in the queue, reset, in
    the order of their completions. *)
Lemma run_requeues evs st camera stream st' :
  camera_ st = Some camera → cam_running camera = true →
  stream_ st = Some stream →
  Forall (λ e, status (ev_request e) ≠ RequestComplete
               ∨ format_type U (pixelFormat (configuration stream)) = RAW) evs →
  run U st evs = Some st' →
  camera_ st'
  = Some (set_cam_queue camera
            (cam_queue camera ++ ((λ e, reuse (ev_request e) ReuseBuffers) <$> evs))).
Proof.
  revert st camera. induction evs as [|e evs IH]; intros st camera Hcam Hrun Hstream Hall.
  - intros [= <-]. rewrite Hcam. destruct camera. cbn. by rewrite app_nil_r.
  - intros Hr. apply run_cons in Hr as (s1 & Hs1 & Hr).
    apply Forall_cons in Hall as [He Hall].
    pose proof (requestComplete_final_next _ _ _ _ _ _ Hs1 Hstream He) as Hnext.
    destruct (requestComplete_next _ _ _ _ _ _ Hcam Hrun Hnext) as [Hc1 Hsm].
    assert (Hstr1 : stream_ s1 = Some stream).
    { destruct Hsm as (_ & _ & -> & _). done. }
    rewrite (IH s1 _ Hc1 Hrun Hstr1 Hall Hr). cbn. by rewrite <- app_assoc.
Qed.

(** C1, as the code has it.  When the handler runs to its end, as it does
    for a cancelled request and for a completed frame of a raw format that it
    has assembled, the request is reset by [reuse] (pending, its control list
    empty, its buffer kept) and is in the queue of the running camera again,
    and this however many completions came before.  The handler writes no
    control to the request: the staged controls are set on a request once,
    when [onInit] builds it. *)
Theorem requestComplete_requeues st mem now request camera stream :
  camera_ st = Some camera → cam_running camera = true →
  stream_ st = Some stream →
  (status request = RequestCancelled →
   ∃ st', requestComplete U st mem now request = Next st')
  ∧ (∀ st', final (requestComplete U st mem now request) = Some st' →
       status request ≠ RequestComplete
       ∨ format_type U (pixelFormat (configuration stream)) = RAW →
       camera_ st'
       = Some (set_cam_queue camera
                 (cam_queue camera ++ [reuse request ReuseBuffers]))
       ∧ parameters_ st' = parameters_ st)
  ∧ (∀ evs st',
       Forall (λ e, status (ev_request e) ≠ RequestComplete
                    ∨ format_type U (pixelFormat (configuration stream)) = RAW) evs →
       run U st evs = Some st' →
       camera_ st'
       = Some (set_cam_queue camera
                 (cam_queue camera
                  ++ ((λ e, reuse (ev_request e) ReuseBuffers) <$> evs))))
  ∧ (status (reuse request ReuseBuffers) = RequestPending
     ∧ controls (reuse request ReuseBuffers) = ∅
     ∧ buffers (reuse request ReuseBuffers) = buffers request
     ∧ cookie (reuse request ReuseBuffers) = cookie request)
  ∧ (∀ buffer st0 st1,
       onInit_buffer E buffer st0 = Next st1 →
       ∃ r, requests_ st1 = requests_ st0 ++ [r]
            ∧ ∀ id value, parameters_ st1 !! id = Some value →
                          controls r !! id = Some value).
Proof.
  intros Hcam Hrun Hstream. split; [|split; [|split; [|split]]].
  - intros Hst. unfold requestComplete. rewrite Hst. cbn. rewrite Hcam. cbn. eauto.
  - intros st' Hfin Hcase.
    pose proof (requestComplete_final_next _ _ _ _ _ _ Hfin Hstream Hcase) as Hnext.
    destruct (requestComplete_next _ _ _ _ _ _ Hcam Hrun Hnext) as [Hc Hsm].
    split; [done|]. apply Hsm.
  - intros evs st' Hall Hr. by eapply run_requeues.
  - done.
  - intros buffer st0 st1 Hb.
    destruct (onInit_buffer_controls buffer st0 st1 Hb) as (Hp & r & Hr & Hc).
    exists r. split; [done|]. intros id value. rewrite Hp. apply Hc.
Qed.

(** An error of the mapping ends the loop over the buffers, and with it
    [onInit], at once. *)
Lemma onInit_buffers_map_error buffer bs st camera request st' :
  camera_ st = Some camera →
  cam_createRequest camera (length (requests_ st)) = Some request →
  onInit_map_buffer E buffer st = Return st' →
  onInit_buffers E (buffer :: bs) st = Return st'.
Proof.
  intros Hcam Hreq Hmap. cbn. unfold onInit_buffer.
  rewrite Hcam. cbn. rewrite Hreq, Hmap. done.
Qed.

Lemma controls_at_elem (m : ControlInfoMap) id info :
  (id, info) ∈ m → is_Some (controls_at m id).
Proof.
  induction m as [|[k ci] m IH]; intros Hin; [by apply elem_of_nil in Hin|].
  cbn. destruct (decide (k = id)); [eauto|].
  apply elem_of_cons in Hin as [[= -> ->]|Hin]; [done|]. by apply IH.
Qed.

(** Every id that [declareControlParameters] stores is one the camera
    declared and one with a known extent: [updateControlParameter] throws on
    none of them. *)
Lemma declareControlParameters_ids st st' camera :
  camera_ st = Some camera →
  parameter_ids_ st = ∅ →
  final (declareControlParameters U st) = Some st' →
  ∀ name id, parameter_ids_ st' !! name = Some (Some id) →
    is_Some (controls_at (cam_controls camera) id) ∧ is_Some (get_extent U id).
Proof.
  intros Hcam Hempty. unfold declareControlParameters. cbn. rewrite Hcam. cbn.
  set (P := λ s : State, ∀ name id, parameter_ids_ s !! name = Some (Some id) →
              is_Some (controls_at (cam_controls camera) id)
              ∧ is_Some (get_extent U id)).
  assert (Hloop : ∀ cs s, (∀ c, c ∈ cs → c ∈ cam_controls camera) → P s →
            final (declareControlParameters_loop U cs s) = Some st' → P st').
  { induction cs as [|[id info] cs IH]; intros s Hsub Hs; cbn.
    - by intros [= <-].
    - assert (Hsub' : ∀ c, c ∈ cs → c ∈ cam_controls camera).
      { intros c Hc. apply Hsub. by apply elem_of_cons; right. }
      assert (Hin : (id, info) ∈ cam_controls camera).
      { apply Hsub. apply list_elem_of_here. }
      destruct (get_extent U id) as [extent|] eqn:Hext.
      + assert (Hins : ∀ name id', <[cid_name id := Some id]> (parameter_ids_ s) !! name
                                   = Some (Some id') →
                         is_Some (controls_at (cam_controls camera) id')
                         ∧ is_Some (get_extent U id')).
        { intros name id' Hl. apply lookup_insert_Some in Hl as [[_ [= <-]]|[_ Hl]].
          - split; [by eapply controls_at_elem|by rewrite Hext].
          - by apply (Hs name). }
        case_bool_decide.
        * intros [= <-]. exact Hins.
        * apply IH; [done|]. exact Hins.
      + apply IH; [done|]. exact Hs. }
  apply Hloop; [done|].
  intros name id. cbn. rewrite Hempty, lookup_empty. done.
Qed.

End Startup.

(** ** The stride removal *)

Section StrideRemoval.

Variable U : Utils.

Lemma read_bytes_length mem addr n bs :
  read_bytes mem addr n = Some bs → length bs = n.
Proof.
  revert addr bs. induction n as [|n IH]; intros addr bs; cbn.
  - by intros [= <-].
  - destruct (mem addr); [|done]. cbn.
    destruct (read_bytes mem (addr + 1) n) as [bs'|] eqn:Hr; [|done]. cbn.
    intros [= <-]. cbn. f_equal. by eapply IH.
Qed.

(** The loop with [n] rows to go from row [i] on, when the rows can be read
    and no product leaves [unsigned int] or [int]: the rows end up one after
    the other behind what the vector held before row [i]. *)
Lemma remove_stride_loop_spec {R} cfg mem src n i dst rows :
  0 ≤ i → 0 ≤ width cfg → 0 ≤ stride cfg →
  (i + Z.of_nat n) * (width cfg * 3) < 2 ^ 32 →
  (i + Z.of_nat n) * stride cfg < 2 ^ 32 →
  width cfg * 3 < 2 ^ 32 →
  i + Z.of_nat n ≤ INT_MAX →
  Z.of_nat (length dst) = (i + Z.of_nat n) * (width cfg * 3) →
  Forall2 (λ j row, read_bytes mem (src + j * stride cfg)
                      (Z.to_nat (width cfg * 3)) = Some row)
          (seqZ i (Z.of_nat n)) rows →
  remove_stride_loop (R:=R) n i cfg mem src dst
  = Next (take (Z.to_nat (i * (width cfg * 3))) dst ++ concat rows).
Proof.
  revert i dst rows. induction n as [|n IH]; intros i dst rows Hi Hw Hs Hd32 Hs32 Hw32 Hint Hlen Hrows.
  - cbn in Hrows. apply Forall2_nil_inv_l in Hrows as ->. cbn.
    rewrite app_nil_r, take_ge; [done|]. lia.
  - rewrite Nat2Z.inj_succ in *.
    rewrite seqZ_cons in Hrows by lia.
    apply Forall2_cons_inv_l in Hrows as (row & rows' & Hrow & Hrows & ->).
    replace (Z.pred (Z.succ (Z.of_nat n))) with (Z.of_nat n) in Hrows by lia.
    replace (Z.succ i) with (i + 1) in Hrows by lia.
    cbn [remove_stride_loop].
    assert (Hwi : wrap32 (i * width cfg * 3) = i * (width cfg * 3)).
    { unfold wrap32. rewrite Z.mod_small; [lia|]. nia. }
    assert (Hsi : wrap32 (i * stride cfg) = i * stride cfg).
    { unfold wrap32. rewrite Z.mod_small; [lia|]. nia. }
    assert (Hw3 : wrap32 (width cfg * 3) = width cfg * 3).
    { unfold wrap32. rewrite Z.mod_small; lia. }
    rewrite Hwi, Hsi, Hw3. unfold memcpy. rewrite Hrow.
    pose proof (read_bytes_length _ _ _ _ Hrow) as Hrl.
    assert (Hin : (0 <=? i * (width cfg * 3))
                  && (i * (width cfg * 3) + width cfg * 3 <=? Z.of_nat (length dst)) = true).
    { apply andb_true_intro. split; [apply Z.leb_le; nia|apply Z.leb_le; nia]. }
    rewrite Hin. cbn.
    assert (Hne : (i =? INT_MAX) = false) by (apply Z.eqb_neq; lia).
    rewrite Hne.
    rewrite IH with (rows := rows'); try lia; try done.
    + f_equal. cbn [concat].
      rewrite (app_assoc (take (Z.to_nat (i * (width cfg * 3))) dst) row (concat rows')).
      f_equal.
      replace (Z.to_nat ((i + 1) * (width cfg * 3)))
        with (length (take (Z.to_nat (i * (width cfg * 3))) dst ++ row))%nat.
      * rewrite (app_assoc (take (Z.to_nat (i * (width cfg * 3))) dst) row).
        apply take_app_length.
      * rewrite length_app, length_take, Hrl. nia.
    + rewrite !length_app, length_take, length_drop, Hrl. nia.
Qed.

(** A row of the rows laid one after the other. *)
Lemma concat_row (rows : list (list byte)) (w i : nat) row :
  Forall (λ r, length r = w) rows → rows !! i = Some row →
  take w (drop (i * w) (concat rows)) = row.
Proof.
  revert i. induction rows as [|r rows IH]; intros i Hall Hi; [done|].
  apply Forall_cons in Hall as [Hr Hall].
  destruct i as [|i]; cbn in Hi |- *.
  - injection Hi as ->. rewrite drop_0. by apply take_app_length'.
  - rewrite drop_app_ge by lia.
    replace (w + i * w - length r)%nat with (i * w)%nat by lia. by apply IH.
Qed.

(** The stride removal as the code does it, three bytes for a pixel: when
    the rows of the frame can be read and the sizes stay in range, the image
    has rows of [width * 3] bytes, [height * width * 3] bytes in all, and
    row [i] holds the bytes from [i * stride] on of the mapped buffer. *)
Lemma remove_stride_rows {R} cfg mem src rows :
  0 ≤ width cfg → 0 ≤ height cfg → 0 ≤ stride cfg →
  height cfg * (width cfg * 3) < 2 ^ 32 →
  height cfg * stride cfg < 2 ^ 32 →
  width cfg * 3 < 2 ^ 32 →
  height cfg ≤ INT_MAX →
  Forall2 (λ j row, read_bytes mem (src + j * stride cfg)
                      (Z.to_nat (width cfg * 3)) = Some row)
          (seqZ 0 (height cfg)) rows →
  ∃ d, remove_stride_loop (R:=R) (Z.to_nat (height cfg)) 0 cfg mem src
         (resize (wrap32 (width cfg * height cfg * 3))) = Next d
     ∧ Z.of_nat (length d) = height cfg * width cfg * 3
     ∧ ∀ (i : nat) row, rows !! i = Some row →
         take (Z.to_nat (width cfg * 3)) (drop (i * Z.to_nat (width cfg * 3)) d) = row
         ∧ read_bytes mem (src + Z.of_nat i * stride cfg) (Z.to_nat (width cfg * 3))
           = Some row.
Proof.
  intros Hw Hh Hs Hd32 Hs32 Hw32 Hint Hrows.
  assert (Hsz : wrap32 (width cfg * height cfg * 3) = height cfg * (width cfg * 3)).
  { unfold wrap32. rewrite Z.mod_small; [lia|]. nia. }
  assert (Hall : Forall (λ r, length r = Z.to_nat (width cfg * 3)) rows).
  { apply Forall_forall. intros row Hin.
    apply list_elem_of_lookup in Hin as [i Hi].
    destruct (Forall2_lookup_r _ _ _ _ _ Hrows Hi) as (j & _ & Hr).
    by apply read_bytes_length in Hr. }
  exists (concat rows). split; [|split].
  - rewrite (remove_stride_loop_spec cfg mem src _ 0 _ rows); rewrite ?Z2Nat.id;
      try lia; try done.
    unfold resize. rewrite length_replicate, Hsz. lia.
  - rewrite length_concat.
    assert (Hlen : length rows = Z.to_nat (height cfg)).
    { apply Forall2_length in Hrows. rewrite length_seqZ in Hrows. lia. }
    assert (Hsum : ∀ l : list (list byte),
               Forall (λ r, length r = Z.to_nat (width cfg * 3)) l →
               sum_list (length <$> l) = (length l * Z.to_nat (width cfg * 3))%nat).
    { induction 1 as [|r l Hr _ IHl]; cbn; [done|]. rewrite Hr, IHl. lia. }
    rewrite Hsum by done. rewrite Hlen. nia.
  - intros i row Hi. split; [by eapply concat_row|].
    destruct (Forall2_lookup_r _ _ _ _ _ Hrows Hi) as (j & Hj & Hr).
    apply lookup_seqZ in Hj as [-> _]. by rewrite Z.add_0_l in Hr.
Qed.

(** X16.  With stride removal, a completed request on a raw format whose
    buffer is on record with the size the metadata reports publishes one
    image whose step is three times the width and whose data are, row after
    row, the first 3 * width bytes of the rows of the mapping, which lie
    one stride apart - provided the rows can be read and the sizes stay
    within 32 bits. *)
Lemma requestComplete_stride_removed st mem now request buffer stream bi cinfo
    camera rows :
  let cfg := configuration stream in
  status request = RequestComplete →
  size (buffers request) = 1%nat →
  findBuffer request (stream_ st) = Some buffer →
  stream_ st = Some stream →
  format_type U (pixelFormat cfg) = RAW →
  remove_stride_ st = true →
  buffer_info_ st !! fb_addr buffer = Some bi →
  bi_size bi = bytesused_sum (metadata buffer) →
  cinfo_ st = Some cinfo → camera_ st = Some camera →
  0 ≤ width cfg → 0 ≤ height cfg → 0 ≤ stride cfg →
  height cfg * (width cfg * 3) < 2 ^ 32 →
  height cfg * stride cfg < 2 ^ 32 →
  width cfg * 3 < 2 ^ 32 →
  height cfg ≤ INT_MAX →
  Forall2 (λ j row, read_bytes mem (bi_data bi + j * stride cfg)
                      (Z.to_nat (width cfg * 3)) = Some row)
          (seqZ 0 (height cfg)) rows →
  ∃ st' img ci,
    requestComplete U st mem now request = Next st'
    ∧ image_pub_ st' = image_pub_ st ++ [(img, ci)]
    ∧ img_step img = width cfg * 3
    ∧ Z.of_nat (length (img_data img)) = height cfg * width cfg * 3
    ∧ ∀ (i : nat) row, rows !! i = Some row →
        take (Z.to_nat (width cfg * 3))
          (drop (i * Z.to_nat (width cfg * 3)) (img_data img)) = row
        ∧ read_bytes mem (bi_data bi + Z.of_nat i * stride cfg)
            (Z.to_nat (width cfg * 3)) = Some row.
Proof.
  intros cfg Hst Hsz Hbuf Hstream Hraw Hrs Hbi Hsize Hci Hcam
    Hw Hh Hs Hd32 Hs32 Hw32 Hint Hrows.
  destruct (remove_stride_rows (R:=State) cfg mem (bi_data bi) rows
              Hw Hh Hs Hd32 Hs32 Hw32 Hint Hrows) as (d & Hloop & Hlen & Hrow).
  unfold requestComplete. rewrite Hst. cbn.
  rewrite bool_decide_eq_true_2 by done. cbn. rewrite Hbuf. cbn.
  pose proof (requestComplete_stamp_spec st now (timestamp (metadata buffer))) as Hsp.
  cbn in Hsp.
  destruct (requestComplete_stamp st now (timestamp (metadata buffer))) as [st1 stamp1].
  cbn in Hsp. destruct Hsp as (Hc1 & Hi1 & Hp1 & _ & Hb1 & Hsm1 & _).
  destruct Hsm1 as (_ & _ & Hs1 & _ & Hr1 & _).
  rewrite Hs1, Hstream. cbn. fold cfg. rewrite Hraw.
  unfold requestComplete_raw, buffer_info_index. rewrite Hb1, Hbi.
  rewrite Hsize, Z.eqb_refl. cbn. rewrite Hr1, Hrs. cbn.
  rewrite Hloop. cbn. rewrite Hi1, Hci. cbn. rewrite Hc1, Hcam. cbn.
  eexists _, _, _. split; [reflexivity|]. cbn. rewrite Hp1.
  split; [reflexivity|]. cbn. split; [|done].
  unfold wrap32. rewrite Z.mod_small; lia.
Qed.

End StrideRemoval.

(** ** The driver on the sample camera *)

Import Sample.

(** The scenario of the exposure time: with the range [100, 1000000],
    500000 is staged, and 2000000 is rejected and leaves 500000 staged. *)
Example exposure_time_scenario :
  ∃ st1 st2,
    updateControlParameter utils (streaming RGB888 2 false false)
      (int32 500000) ExposureTime = Return (true, st1)
    ∧ updateControlParameter utils st1 (int32 2000000) ExposureTime
      = Return (false, st2)
    ∧ parameters_ st2 !! 1%N = Some (int32 500000).
Proof. eexists _, _. split; [reflexivity|]. split; reflexivity. Qed.

Lemma updateControlParameter_in_range_witness :
  (∀ st', final (updateControlParameter utils (streaming RGB888 2 false false)
                   (int32 2000000) ExposureTime) = Some (true, st') →
     parameters_ st' !! cid_id ExposureTime = Some (int32 2000000)
     ∧ in_range utils ExposureTime_info (int32 2000000))
  ∧ (¬ value_ge utils (int32 2000000) (ci_min ExposureTime_info)
     ∨ ¬ (value_le utils (ci_max ExposureTime_info) (ci_min ExposureTime_info)
          ∨ value_le utils (int32 2000000) (ci_max ExposureTime_info)) →
     ∃ st', final (updateControlParameter utils (streaming RGB888 2 false false)
                     (int32 2000000) ExposureTime) = Some (false, st')
            ∧ parameters_ st' = parameters_ (streaming RGB888 2 false false)).
Proof.
  apply (updateControlParameter_in_range utils (streaming RGB888 2 false false)
           (running_camera RGB888 2) (int32 2000000) ExposureTime
           ExposureTime_info 0); reflexivity.
Defined.

(** C1, as the specification has it, fails: a cancelled request comes back
    while an exposure time is staged; the handler queues it again with an
    empty control list. *)
Lemma requestComplete_resubmits_without_controls :
  ∃ st',
    requestComplete utils (streaming RGB888 2 false false) (memory 4096 16) 0
      (request RequestCancelled 1000) = Next st'
    ∧ parameters_ st' !! 1%N = Some (int32 500000)
    ∧ ¬ resubmitted_with_pending_controls st' (request RequestCancelled 1000).
Proof.
  eexists. split; [reflexivity|]. split; [reflexivity|].
  intros (camera & r & Hc & Hlast & _ & _ & Hctl).
  injection Hc as <-. injection Hlast as <-.
  specialize (Hctl 1%N (int32 500000) eq_refl). discriminate Hctl.
Qed.

Lemma requestComplete_requeues_witness :
  ∃ st',
    requestComplete utils (streaming RGB888 2 false false) (memory 4096 16) 0
      (request RequestCancelled 1000) = Next st'.
Proof.
  exact (proj1 (requestComplete_requeues utils env_plain
                  (streaming RGB888 2 false false) (memory 4096 16) 0
                  (request RequestCancelled 1000) (running_camera RGB888 2)
                  (stream RGB888 2) eq_refl eq_refl eq_refl) eq_refl).
Defined.

(** C2.  The camera declares the exposure time only and the user sets
    [control/brightness]: [onInit] dereferences the null pointer that
    [parameter_ids_] holds for the control, where the block of
    [control/awb_enable] would have logged an error and gone on. *)
Theorem onInit_undeclared_control_null_dereference :
  Forall (λ c : ControlId * ControlInfo, cid_name c.1 ≠ "Brightness") declared
  ∧ getParam_float env_brightness "control/brightness" = Some 1056964608
  ∧ onInit utils env_brightness State_init = Crash NullDereference.
Proof.
  split; [by repeat constructor|]. split; [reflexivity|]. by vm_compute.
Qed.

(** C4.  A completed frame on a stream of a format that is not raw: the
    handler logs the error and publishes nothing, and it returns before it
    queues the request again; the queue of the running camera stays
    empty. *)
Theorem requestComplete_unsupported_format_not_requeued :
  format_type utils MJPEG = NONRAW
  ∧ match requestComplete utils (streaming MJPEG 2 false false) (memory 4096 16) 0
            (request RequestComplete 1000) with
    | Return st' =>
        image_pub_ st' = []
        ∧ ros_log st' = [(ERROR, tag +:+ "unsupported pixel format: ")]
        ∧ cam_running <$> camera_ st' = Some true
        ∧ cam_queue <$> camera_ st' = Some []
    | _ => False
    end.
Proof. split; [reflexivity|]. vm_compute. by repeat split. Qed.

(** C5.  Stride removal on pixels of one byte, two rows of four pixels
    eight bytes apart: the rows of the image have 12 bytes and not 4, the
    image has 24 bytes and not 8, and the first row runs over the padding
    into the second row of the buffer; with no more than the 16 bytes of the
    buffer mapped, the copy of the second row reads past its end. *)
Theorem requestComplete_stride_removed_three_bytes_per_pixel :
  bytes_per_pixel R8 = Some 1
  ∧ format_type utils R8 = RAW
  ∧ match requestComplete utils (streaming R8 4 true false) (memory 4096 4096) 0
            (request RequestComplete 1000) with
    | Next st' =>
        (λ p : Image * CameraInfo,
           (img_width p.1, img_step p.1, length (img_data p.1))) <$> image_pub_ st'
        = [(4, 12, 24%nat)]
        ∧ (λ p : Image * CameraInfo, Some (take 12 (img_data p.1))) <$> image_pub_ st'
          = [read_bytes (memory 4096 4096) 4096 12]
    | _ => False
    end
  ∧ requestComplete utils (streaming R8 4 true false) (memory 4096 16) 0
      (request RequestComplete 1000) = Crash OutOfBounds.
Proof.
  split; [reflexivity|]. split; [reflexivity|]. split; [|by vm_compute].
  vm_compute. by split.
Qed.

(** The same mode on pixels of three bytes gives the rows without their
    padding. *)
Example requestComplete_stride_removed_rgb :
  match requestComplete utils (streaming RGB888 2 true false) (memory 4096 16) 0
          (request RequestComplete 1000) with
  | Next st' =>
      (λ p : Image * CameraInfo, (img_step p.1, Some (img_data p.1))) <$> image_pub_ st'
      = [(6, r0 ← read_bytes (memory 4096 16) 4096 6;
             r1 ← read_bytes (memory 4096 16) 4104 6;
             Some (r0 ++ r1))]
  | _ => False
  end.
Proof. by vm_compute. Qed.

Lemma requestComplete_cancelled_witness :
  ∃ st',
    requestComplete utils (streaming RGB888 2 false false) (memory 4096 16) 0
      (request RequestCancelled 1000) = Next st'
    ∧ image_pub_ st' = [].
Proof.
  destruct (requestComplete_cancelled utils (streaming RGB888 2 false false)
              (memory 4096 16) 0 (request RequestCancelled 1000)
              (running_camera RGB888 2) eq_refl eq_refl)
    as (st' & Hnext & Hpub & _).
  exists st'. split; [exact Hnext|exact Hpub].
Defined.

(** C7, as the specification has it, fails: the one plane of the buffer has
    a defined offset and a valid descriptor, no two planes differ and [mmap]
    succeeds, so the buffer is mapped; but its plane ends at
    4294967294 + 16, and the length recorded and mapped is 14, the sum in
    [unsigned int], not the maximum of offset + length. *)
Lemma onInit_map_buffer_length_wraps :
  ¬ offset_or_descriptor_defect (planes buffer_far_plane)
  ∧ Forall (λ p, fd_isValid (plane_fd p) = true) (planes buffer_far_plane)
  ∧ planes_extent (planes buffer_far_plane) = 4294967310
  ∧ ∃ st',
      onInit_map_buffer env_plain buffer_far_plane State_init = Next st'
      ∧ ros_shutdown st' = false
      ∧ buffer_info_ st' !! fb_addr buffer_far_plane
        = Some {| bi_data := 4096; bi_size := 14 |}
      ∧ address_space st'
        = [(4096, {| mm_addr := 0; mm_length := 14; mm_prot := PROT_READ;
                     mm_flags := MAP_SHARED; mm_fd := 7; mm_offset := 0 |})].
Proof.
  split; [|split; [by repeat constructor|split; [reflexivity|]]].
  - intros [(p & Hp & Hoff)|(p & q & Hp & Hq & Hne)].
    + apply list_elem_of_singleton in Hp as ->. discriminate Hoff.
    + apply list_elem_of_singleton in Hp as ->.
      apply list_elem_of_singleton in Hq as ->. done.
  - eexists. split; [reflexivity|]. by repeat split.
Qed.

(** With a buffer whose plane has no valid descriptor [onInit] as a whole
    ends at the [return] of the mapping, before [mmap] is called, the camera
    not started. *)
Example onInit_invalid_descriptor_aborts :
  match onInit utils env_without_descriptor State_init with
  | Return st' =>
      ros_shutdown st' = true
      ∧ cam_running <$> camera_ st' = Some false
      ∧ last (ros_log st') = Some (ERROR, tag +:+ "file descriptor is not valid")
  | _ => False
  end.
Proof. vm_compute. by repeat split. Qed.

Lemma onInit_map_buffer_spec_witness :
  ∃ st',
    onInit_map_buffer env_plain (buffer 0) State_init = Next st'
    ∧ buffer_info_ st' !! fb_addr (buffer 0)
      = Some {| bi_data := 4096; bi_size := 16 |}.
Proof.
  destruct (proj2 (onInit_map_buffer_spec env_plain (buffer 0) State_init))
    with (data := 4096) as (st' & Hnext & Hinfo & _).
  - intros [[(p & Hp & Hoff)|(p & q & Hp & Hq & Hne)]|(p & Hp & Hv)].
    + apply list_elem_of_singleton in Hp as ->. discriminate Hoff.
    + apply list_elem_of_singleton in Hp as ->.
      apply list_elem_of_singleton in Hq as ->. done.
    + apply list_elem_of_singleton in Hp as ->. discriminate Hv.
  - reflexivity.
  - exists st'. split; [exact Hnext|exact Hinfo].
Defined.

(** The stamps of the sample run: the offset is 5000 - 1000, and the two
    frames go out with 5000 and 6000. *)
Example ros_time_stamps :
  (λ st', (start_time_offset_ st',
           (λ p : Image * CameraInfo, stamp (img_header p.1)) <$> image_pub_ st'))
    <$> run utils (streaming RGB888 2 false true) completions
  = Some (4000, [5000; 6000]).
Proof. by vm_compute. Qed.

Lemma ros_time_offset_captured_once_witness :
  ∃ st',
    run utils (streaming RGB888 2 false true) completions = Some st'
    ∧ start_time_offset_obtained_ st' = true
    ∧ start_time_offset_ st' = 5000 - 1000
    ∧ stamps_along utils (streaming RGB888 2 false true) completions
        (λ ts, ts + (5000 - 1000)).
Proof.
  destruct (run utils (streaming RGB888 2 false true) completions) as [st'|] eqn:Hrun;
    [|by vm_compute in Hrun].
  exists st'. split; [reflexivity|].
  apply (proj2 (ros_time_offset_captured_once utils
                  (streaming RGB888 2 false true) completions st' Hrun)
           eq_refl eq_refl
           [completion RequestCancelled 500 4000]
           (completion RequestComplete 1000 5000)
           [completion RequestComplete 2000 9999]
           (buffer 1000) eq_refl).
  - by repeat constructor.
  - reflexivity.
  - reflexivity.
Defined.

(** C9.  The camera declares a control whose minimum has one element and
    whose maximum has two: [declareControlParameters] logs the error, asks
    for the shutdown and returns, and [onInit] goes on: it maps the buffer,
    starts the camera and queues the request. *)
Theorem onInit_goes_on_after_declare_error :
  numElements (ci_min mismatched_info) ≠ numElements (ci_max mismatched_info)
  ∧ match onInit utils env_mismatch State_init with
    | Next st' =>
        ros_shutdown st' = true
        ∧ ros_log st' !! 15%nat
          = Some (ERROR, tag +:+
              "minimum and maximum parameter array sizes do not match")
        ∧ last (ros_log st') = Some (INFO, tag +:+ "initialized")
        ∧ cam_running <$> camera_ st' = Some true
        ∧ (λ c, length (cam_queue c)) <$> camera_ st' = Some 1%nat
        ∧ length (address_space st') = 1%nat
    | _ => False
    end.
Proof. split; [done|]. vm_compute. by repeat split. Qed.

Lemma requestComplete_asserts_size_witness :
  (bi_size (buffer_info_index (streaming RGB888 2 true false)
              {| fb_addr := 100; planes := [plane0];
                 metadata := {| timestamp := 1000; metadata_planes := [8] |} |}).1
   ≠ bytesused_sum {| timestamp := 1000; metadata_planes := [8] |} →
   requestComplete utils (streaming RGB888 2 true false) (memory 4096 16) 0 short_frame
   = Crash AssertionFailed)
  ∧ (∀ st', final (requestComplete utils (streaming RGB888 2 true false)
                     (memory 4096 16) 0 short_frame) = Some st' →
     bi_size (buffer_info_index (streaming RGB888 2 true false)
                {| fb_addr := 100; planes := [plane0];
                   metadata := {| timestamp := 1000; metadata_planes := [8] |} |}).1
     = bytesused_sum {| timestamp := 1000; metadata_planes := [8] |}).
Proof.
  apply (requestComplete_asserts_size utils (streaming RGB888 2 true false)
           (memory 4096 16) 0 short_frame
           {| fb_addr := 100; planes := [plane0];
              metadata := {| timestamp := 1000; metadata_planes := [8] |} |}
           (stream RGB888 2)); reflexivity.
Defined.

(** The assertion stops the handler on the short frame in both modes. *)
Example short_frame_both_modes :
  requestComplete utils (streaming RGB888 2 true false) (memory 4096 16) 0 short_frame
  = Crash AssertionFailed
  ∧ requestComplete utils (streaming RGB888 2 false false) (memory 4096 16) 0 short_frame
    = Crash AssertionFailed.
Proof. split; by vm_compute. Qed.

(** * Further properties *)

(** ** The pool of requests and the mappings *)

Section Pool.

Variable E : Environment.

(** The two ways the mapping of a buffer ends. *)
Lemma onInit_map_buffer_cases buffer st :
  (∃ msg, onInit_map_buffer E buffer st
          = Return (ros_shutdown_call (ROS_ERROR msg st)))
  ∨ (∃ data,
       sys_mmap E (mmap_args (planes buffer)) = Some data
       ∧ ¬ planes_defect (planes buffer)
       ∧ onInit_map_buffer E buffer st
         = Next (set_buffer_info_
                   (add_mapping st data (mmap_args (planes buffer)))
                   (<[fb_addr buffer :=
                        {| bi_data := data;
                           bi_size := planes_length (planes buffer) |}]>
                      (buffer_info_ st)))).
Proof.
  pose proof (onInit_planes_spec (planes buffer) 0 (-1) st ltac:(done)) as Hp.
  cbv zeta in Hp.
  replace (if decide (-1 = -1) is left _ then planes_fd (planes buffer) else -1)
    with (planes_fd (planes buffer)) in Hp by (by destruct (decide (-1 = -1))).
  pose proof (planes_length_nonneg (planes buffer)) as Hlen.
  unfold onInit_map_buffer.
  destruct (decide (Forall (plane_accepted (planes_fd (planes buffer)))
                      (planes buffer))) as [HF|HF].
  - rewrite Hp. cbn. rewrite Z.max_r by done.
    fold (mmap_args (planes buffer)).
    destruct (sys_mmap E (mmap_args (planes buffer))) as [data|] eqn:Hmm.
    + right. exists data. split; [done|]. split; [|done].
      by apply planes_accepted_iff.
    + left. eauto.
  - destruct Hp as [msg ->]. left. cbn. eauto.
Qed.

(** The state a body of the loop over the buffers leaves when it runs to
    its end. *)
Lemma onInit_buffer_next buffer st st' :
  onInit_buffer E buffer st = Next st' →
  ∃ camera request0 data stream,
    camera_ st = Some camera
    ∧ cam_createRequest camera (length (requests_ st)) = Some request0
    ∧ stream_ st = Some stream
    ∧ buffers request0 !! stream_addr stream = None
    ∧ ¬ planes_defect (planes buffer)
    ∧ sys_mmap E (mmap_args (planes buffer)) = Some data
    ∧ st' = set_requests_
              (set_buffer_info_
                 (add_mapping st data (mmap_args (planes buffer)))
                 (<[fb_addr buffer :=
                      {| bi_data := data;
                         bi_size := planes_length (planes buffer) |}]>
                    (buffer_info_ st)))
              (requests_ st
               ++ [map_fold (λ id value r, controls_set r id value)
                     {| cookie := cookie request0; status := status request0;
                        controls := controls request0;
                        buffers := <[stream_addr stream := buffer]> (buffers request0) |}
                     (parameters_ st)]).
Proof.
  unfold onInit_buffer.
  destruct (camera_ st) as [camera|] eqn:Hcam; [|done]. cbn.
  destruct (cam_createRequest camera (length (requests_ st))) as [request0|] eqn:Hreq;
    [|done].
  destruct (onInit_map_buffer_cases buffer st)
    as [[msg Hmap]|(data & Hmm & Hok & Hmap)]; rewrite Hmap; [done|]. cbn.
  unfold addBuffer.
  destruct (stream_ st) as [stream|] eqn:Hstream; [|done].
  destruct (buffers request0 !! stream_addr stream) eqn:Hb; [done|]. cbn.
  intros [= <-]. by exists camera, request0, data, stream.
Qed.

(** ... and when it returns: the shutdown is requested, no request is
    added, and the mapping, if it was made, stays on record. *)
Lemma onInit_buffer_return buffer st st' :
  onInit_buffer E buffer st = Return st' →
  ros_shutdown st' = true ∧ camera_ st' = camera_ st
  ∧ requests_ st' = requests_ st ∧ parameters_ st' = parameters_ st
  ∧ stream_ st' = stream_ st
  ∧ cinfo_ st' = cinfo_ st ∧ image_pub_ st' = image_pub_ st
  ∧ ((address_space st' = address_space st ∧ buffer_info_ st' = buffer_info_ st)
     ∨ ∃ data,
         address_space st' = address_space st ++ [(data, mmap_args (planes buffer))]
         ∧ buffer_info_ st'
           = <[fb_addr buffer :=
                 {| bi_data := data; bi_size := planes_length (planes buffer) |}]>
               (buffer_info_ st)).
Proof.
  unfold onInit_buffer.
  destruct (camera_ st) as [camera|] eqn:Hcam; [|done]. cbn.
  destruct (cam_createRequest camera (length (requests_ st))) as [request0|] eqn:Hreq.
  2:{ intros [= <-]. cbn. repeat split; auto. }
  destruct (onInit_map_buffer_cases buffer st)
    as [[msg Hmap]|(data & Hmm & Hok & Hmap)]; rewrite Hmap; cbn.
  { intros [= <-]. cbn. repeat split; auto. }
  destruct (addBuffer request0 (stream_ st) buffer) as [ret request'].
  destruct (ret <? 0); [|done]. intros [= <-]. cbn.
  repeat split; auto. right. by exists data.
Qed.

(** The loop over the buffers, run to its end: one request and one mapping
    for each buffer, in the order of the buffers. *)
Lemma onInit_buffers_next bs st st' :
  onInit_buffers E bs st = Next st' →
  ∃ rs ms,
    requests_ st' = requests_ st ++ rs
    ∧ address_space st' = address_space st ++ ms
    ∧ length rs = length bs ∧ length ms = length bs
    ∧ camera_ st' = camera_ st ∧ stream_ st' = stream_ st
    ∧ parameters_ st' = parameters_ st ∧ ros_shutdown st' = ros_shutdown st
    ∧ ros_log st' = ros_log st ∧ cinfo_ st' = cinfo_ st
    ∧ (∀ i b, bs !! i = Some b →
         ∃ r m stream,
           rs !! i = Some r ∧ ms !! i = Some m
           ∧ stream_ st = Some stream
           ∧ findBuffer r (stream_ st) = Some b
           ∧ (∀ id value, parameters_ st !! id = Some value →
                          controls r !! id = Some value)
           ∧ (∃ camera request0,
                camera_ st = Some camera
                ∧ cam_createRequest camera (length (requests_ st) + i) = Some request0
                ∧ buffers r = <[stream_addr stream := b]> (buffers request0)
                ∧ cookie r = cookie request0 ∧ status r = status request0)
           ∧ m.2 = mmap_args (planes b)
           ∧ sys_mmap E (mmap_args (planes b)) = Some m.1
           ∧ ¬ planes_defect (planes b)
           ∧ is_Some (buffer_info_ st' !! fb_addr b)).
Proof.
  revert st. induction bs as [|b bs IH]; intros st; cbn.
  { intros [= <-]. exists [], []. rewrite !app_nil_r. by repeat split. }
  destruct (onInit_buffer E b st) as [st1| |] eqn:Hb; [|done..]. cbn.
  intros Hrest.
  destruct (onInit_buffer_next b st st1 Hb)
    as (camera & request0 & data & stream & Hcam & Hreq & Hstream & Hfree & Hok & Hmm & ->).
  destruct (IH _ Hrest)
    as (rs & ms & Hrs & Hms & Hlr & Hlm & Hc & Hs & Hp & Hsh & Hlog & Hci & Hall).
  cbn in Hrs, Hms, Hc, Hs, Hp, Hsh, Hlog, Hci.
  destruct (controls_set_fold (parameters_ st)
              {| cookie := cookie request0; status := status request0;
                 controls := controls request0;
                 buffers := <[stream_addr stream := b]> (buffers request0) |})
    as (Hctl & Hck & Hstat & Hbufs). cbn in Hctl, Hck, Hstat, Hbufs.
  eexists (_ :: rs), (_ :: ms).
  split; [by rewrite Hrs, <- app_assoc|].
  split; [by rewrite Hms, <- app_assoc|].
  split; [cbn; by rewrite Hlr|]. split; [cbn; by rewrite Hlm|].
  do 6 (split; [done|]).
  intros i b' Hi. destruct i as [|i]; cbn in Hi.
  - injection Hi as <-. eexists _, _, stream. split; [reflexivity|].
    split; [reflexivity|]. split; [done|].
    split. { unfold findBuffer. rewrite Hstream. cbn. rewrite Hbufs.
             by rewrite lookup_insert_eq. }
    split. { intros id value Hid. rewrite Hctl. by apply lookup_union_Some_l. }
    split. { exists camera, request0. by rewrite Nat.add_0_r. }
    cbn. do 3 (split; [done|]).
    clear -Hrest. revert Hrest.
    generalize (map_fold (λ id value r, controls_set r id value)
                  {| cookie := cookie request0; status := status request0;
                     controls := controls request0;
                     buffers := <[stream_addr stream := b]> (buffers request0) |}
                  (parameters_ st)).
    intros r Hrest.
    assert (Hkeep : ∀ bs' s s', onInit_buffers E bs' s = Next s' →
              ∀ k, is_Some (buffer_info_ s !! k) → is_Some (buffer_info_ s' !! k)).
    { induction bs' as [|b' bs' IH']; intros s s'; cbn; [by intros [= <-]|].
      destruct (onInit_buffer E b' s) as [s1| |] eqn:Hb'; [|done..]. cbn.
      intros Hr k Hk. apply (IH' _ _ Hr).
      destruct (onInit_buffer_next b' s s1 Hb') as (?&?&?&?&?&?&?&?&?&?& ->).
      cbn. destruct (decide (fb_addr b' = k)) as [->|Hne].
      - by rewrite lookup_insert_eq.
      - by rewrite lookup_insert_ne. }
    apply (Hkeep _ _ _ Hrest). cbn. by rewrite lookup_insert_eq.
  - destruct (Hall i b' Hi)
      as (r & m & stream' & Hr & Hm & Hstr' & Hfb & Hctl' & Hbuf' & Hm2 & Hmm' & Hok' & Hinfo).
    cbn in Hstr', Hfb, Hctl', Hbuf'.
    exists r, m, stream'. do 5 (split; [done|]).
    split; [|done].
    destruct Hbuf' as (camera' & request0' & Hcam' & Hreq' & Hrest').
    exists camera', request0'. split; [done|]. split; [|done].
    rewrite <- Hreq', length_app. cbn. f_equal. lia.
Qed.

End Pool.

(** ** The phases of [onInit] *)

Section Phases.

Variable U : Utils.
Variable E : Environment.

Lemma same_resources_refl st : same_resources st st.
Proof. by unfold same_resources. Qed.

Lemma same_resources_trans st1 st2 st3 :
  same_resources st1 st2 → same_resources st2 st3 → same_resources st1 st3.
Proof. unfold same_resources. intros H1 H2. destruct_and!. repeat split; congruence. Qed.

(** Loading the parameters: the ten values are there and are the ones
    loaded, or the phase returns with the shutdown requested. *)
Lemma onInit_load_parameters_cases st :
  match onInit_load_parameters E st with
  | Next (l, st') =>
      getParam_string E "camera_name" = Some (camera_name l)
      ∧ getParam_int E "camera_id" = Some (camera_id l)
      ∧ getParam_string E "stream_role" = Some (stream_role l)
      ∧ getParam_string E "pixel_format" = Some (pixel_format l)
      ∧ getParam_string E "frame_id" = Some (frame_id_ st')
      ∧ getParam_string E "calib_url" = Some (calib_url l)
      ∧ getParam_int E "resolution/width" = Some (resolution_width l)
      ∧ getParam_int E "resolution/height" = Some (resolution_height l)
      ∧ getParam_bool E "use_ros_time" = Some (_use_ros_time_ st')
      ∧ getParam_bool E "remove_stride" = Some (remove_stride_ st')
      ∧ ros_shutdown st' = ros_shutdown st
      ∧ parameters_ st' = parameters_ st
      ∧ parameter_ids_ st' = parameter_ids_ st
      ∧ same_resources st st'
  | Return st' =>
      (getParam_string E "camera_name" = None
       ∨ getParam_int E "camera_id" = None
       ∨ getParam_string E "stream_role" = None
       ∨ getParam_string E "pixel_format" = None
       ∨ getParam_string E "frame_id" = None
       ∨ getParam_string E "calib_url" = None
       ∨ getParam_int E "resolution/width" = None
       ∨ getParam_int E "resolution/height" = None
       ∨ getParam_bool E "use_ros_time" = None
       ∨ getParam_bool E "remove_stride" = None)
      ∧ ros_shutdown st' = true
      ∧ last (ros_log st')
        = Some (ERROR, tag +:+
            "Some compulsory parameters were not loaded successfully, ending the node")
      ∧ parameters_ st' = parameters_ st
      ∧ same_resources st st'
  | Crash _ => False
  end.
Proof.
  unfold onInit_load_parameters, and_check, getCompulsoryParamCheck,
    getOptionalParamCheck, same_resources.
  destruct (getParam_string E "camera_name") eqn:H1; cbn;
    [|rewrite last_snoc; by auto 12].
  destruct (getParam_int E "camera_id") eqn:H2; cbn;
    [|rewrite last_snoc; by auto 12].
  destruct (getParam_string E "stream_role") eqn:H3; cbn;
    [|rewrite last_snoc; by auto 12].
  destruct (getParam_string E "pixel_format") eqn:H4; cbn;
    [|rewrite last_snoc; by auto 12].
  destruct (getParam_string E "frame_id") eqn:H5; cbn;
    [|rewrite last_snoc; by auto 12].
  destruct (getParam_string E "calib_url") eqn:H6; cbn;
    [|rewrite last_snoc; by auto 12].
  destruct (getParam_int E "resolution/width") eqn:H7; cbn;
    [|rewrite last_snoc; by auto 12].
  destruct (getParam_int E "resolution/height") eqn:H8; cbn;
    [|rewrite last_snoc; by auto 14].
  destruct (getParam_bool E "use_ros_time") eqn:H9; cbn;
    [|rewrite last_snoc; by auto 14].
  destruct (getParam_bool E "remove_stride") eqn:H10; cbn;
    [|rewrite last_snoc; by auto 14].
  by repeat split.
Qed.

(** The search for the camera gives the first id that contains the name. *)
Lemma find_camera_spec name cs i :
  match find_camera name cs i with
  | Some j =>
      ∃ k c, j = i + Z.of_nat k ∧ cs !! k = Some c
             ∧ is_Some (String.index 0 name c)
             ∧ ∀ k' c', (k' < k)%nat → cs !! k' = Some c' →
                        String.index 0 name c' = None
  | None => ∀ k c, cs !! k = Some c → String.index 0 name c = None
  end.
Proof.
  revert i. induction cs as [|c cs IH]; intros i; cbn; [done|].
  destruct (String.index 0 name c) eqn:Hc.
  - exists 0%nat, c. split; [lia|]. split; [done|]. split; [by rewrite Hc|].
    intros k' c' Hk'. lia.
  - specialize (IH (i + 1)). destruct (find_camera name cs (i + 1)) as [j|].
    + destruct IH as (k & c' & -> & Hk & Hin & Hfirst).
      exists (S k), c'. split; [lia|]. split; [done|]. split; [done|].
      intros [|k'] c'' Hlt Hk'; cbn in Hk'; [by injection Hk' as <-|].
      apply (Hfirst k' c''); [lia|done].
    + intros [|k] c' Hk; cbn in Hk; [by injection Hk as <-|]. by eapply IH.
Qed.

(** The selection of the camera: the camera the phase leaves in [camera_]
    is one the manager lists, acquired; a return leaves the shutdown
    requested. *)
Lemma onInit_select_camera_cases l st :
  match onInit_select_camera E l st with
  | Next st' =>
      (∃ i c, cameras E !! i = Some (Some c) ∧ camera_ st' = Some c
              ∧ cam_acquire c = 0)
      ∧ ros_shutdown st' = ros_shutdown st
  | Return st' =>
      stopped_with_error st'
      ∧ (camera_ st' = camera_ st
         ∨ camera_ st' = None
         ∨ ∃ i c, cameras E !! i = Some (Some c) ∧ camera_ st' = Some c)
  | Crash _ => True
  end
  ∧ ∀ st', final (onInit_select_camera E l st) = Some st' →
      stream_ st' = stream_ st ∧ requests_ st' = requests_ st
      ∧ buffer_info_ st' = buffer_info_ st ∧ address_space st' = address_space st
      ∧ cinfo_ st' = cinfo_ st ∧ image_pub_ st' = image_pub_ st
      ∧ parameters_ st' = parameters_ st ∧ parameter_ids_ st' = parameter_ids_ st
      ∧ frame_id_ st' = frame_id_ st ∧ _use_ros_time_ st' = _use_ros_time_ st
      ∧ remove_stride_ st' = remove_stride_ st.
Proof.
  unfold onInit_select_camera.
  case_bool_decide as Hnil; [by split; [split; [stop_tac|auto]|intros st' [= <-]]|].
  set (sel := if negb (String.eqb (camera_name l) EmptyString) then _ else _).
  assert (Hsel : match sel with
                 | Next (cid, s) =>
                     ros_shutdown s = ros_shutdown st ∧ camera_ s = camera_ st
                     ∧ stream_ s = stream_ st ∧ requests_ s = requests_ st
                     ∧ buffer_info_ s = buffer_info_ st
                     ∧ address_space s = address_space st
                     ∧ cinfo_ s = cinfo_ st ∧ image_pub_ s = image_pub_ st
                     ∧ parameters_ s = parameters_ st
                     ∧ parameter_ids_ s = parameter_ids_ st
                     ∧ frame_id_ s = frame_id_ st
                     ∧ _use_ros_time_ s = _use_ros_time_ st
                     ∧ remove_stride_ s = remove_stride_ st
                 | Return _ => False
                 | Crash _ => True
                 end).
  { subst sel. destruct (negb (String.eqb (camera_name l) EmptyString)); [|done].
    cbn.
    destruct (mapM (λ c : option Camera, deref (cam_id <$> c)) (cameras E))
      as [names|r|f] eqn:Hm; cbn; [| |done].
    - by destruct (find_camera (camera_name l) names 0).
    - exfalso. clear -Hm. revert r Hm.
      induction (cameras E) as [|c cs IH]; intros r; cbn; [done|].
      destruct c as [c|]; cbn; [|done].
      destruct (mapM (λ c : option Camera, deref (cam_id <$> c)) cs)
        as [ns|r'|f] eqn:Hcs; cbn; [done| |done].
      intros _. by eapply IH. }
  destruct sel as [[cid s]|r|f]; [|done|by split].
  destruct Hsel as (Hsh & Hc & Hrest). cbn.
  destruct (Z.of_nat (length (cameras E)) <=? wrap_size cid) eqn:Hrange.
  { split; [split; [stop_tac|left; exact Hc]|].
    intros st' [= <-]. cbn. destruct_and!. by repeat split. }
  cbn.
  destruct (mjoin (cameras E !! Z.to_nat cid)) as [c|] eqn:Hjoin; cbn.
  - assert (Hlist : cameras E !! Z.to_nat cid = Some (Some c)).
    { destruct (cameras E !! Z.to_nat cid) as [[c'|]|]; cbn in Hjoin; by simplify_eq. }
    destruct (negb (cam_acquire c =? 0)) eqn:Hacq; cbn.
    + split; [split; [stop_tac|]; right; right; eauto|].
      intros st' [= <-]. cbn. destruct_and!. by repeat split.
    + apply negb_false_iff, Z.eqb_eq in Hacq.
      split; [split; [eauto|done]|].
      intros st' [= <-]. cbn. destruct_and!. by repeat split.
  - split; [split; [stop_tac|by right; left]|].
    intros st' [= <-]. cbn. destruct_and!. by repeat split.
Qed.

(** The configuration of the stream: the configuration the phase hands on
    is the one [validate] left, not invalid, accepted by [configure], and
    asked for with a pixel format that the camera and the node have in
    common; a return leaves the shutdown requested. *)
Lemma onInit_configure_cases l st :
  match onInit_configure U E l st with
  | Next (scfg, st') =>
      ros_shutdown st' = ros_shutdown st
      ∧ same_resources st st' ∧ same_settings st st'
      ∧ ∃ camera role generated formats selected validity,
          camera_ st = Some camera
          ∧ get_role U (stream_role l) = Some role
          ∧ cam_generateConfiguration camera role = Some (generated, formats)
          ∧ cam_validate camera selected = (validity, scfg)
          ∧ validity ≠ Invalid
          ∧ 0 ≤ cam_configure camera scfg
          ∧ pixelFormat selected ∈ pixelformats (get_common_stream_formats U formats)
          ∧ (pixel_format l ≠ EmptyString →
             pixelFormat selected = PixelFormat_fromString E (pixel_format l)
             ∧ PixelFormat_isValid (pixelFormat selected) = true)
          ∧ (pixel_format l = EmptyString →
             head (pixelformats (get_common_stream_formats U formats))
             = Some (pixelFormat selected))
          ∧ (¬ (wrap32 (resolution_width l) = 0 ∧ wrap32 (resolution_height l) = 0) →
             width selected = wrap32 (resolution_width l)
             ∧ height selected = wrap32 (resolution_height l))
          ∧ (wrap32 (resolution_width l) = 0 ∧ wrap32 (resolution_height l) = 0 →
             last (sizes formats (pixelFormat selected))
             = Some (width selected, height selected))
  | Return st' =>
      stopped_with_error st' ∧ same_resources st st' ∧ same_settings st st'
  | Crash _ => True
  end.
Proof.
  unfold onInit_configure.
  destruct (camera_ st) as [camera|] eqn:Hcam; [|done]. cbn.
  destruct (get_role U (stream_role l)) as [role|] eqn:Hrole; [|done].
  destruct (cam_generateConfiguration camera role) as [[generated formats]|] eqn:Hgen;
    [|by split; [stop_tac|unfold same_resources, same_settings]].
  destruct (pixelformats (get_common_stream_formats U formats)) as [|front common] eqn:Hcommon;
    [by split; [stop_tac|unfold same_resources, same_settings]|].
  set (pick := if String.eqb (pixel_format l) EmptyString then _ else _).
  assert (Hpick : match pick with
                  | Next (fmt, s) =>
                      ros_shutdown s = ros_shutdown st
                      ∧ same_resources st s ∧ same_settings st s
                      ∧ fmt ∈ front :: common
                      ∧ (pixel_format l ≠ EmptyString →
                         fmt = PixelFormat_fromString E (pixel_format l)
                         ∧ PixelFormat_isValid fmt = true)
                      ∧ (pixel_format l = EmptyString → front = fmt)
                  | Return s =>
                      stopped_with_error s ∧ same_resources st s ∧ same_settings st s
                  | Crash _ => True
                  end).
  { subst pick. destruct (String.eqb (pixel_format l) EmptyString) eqn:Hpf.
    - apply String.eqb_eq in Hpf. unfold same_resources, same_settings. cbn.
      repeat split; try done. apply list_elem_of_here.
    - apply String.eqb_neq in Hpf.
      destruct (PixelFormat_isValid (PixelFormat_fromString E (pixel_format l))) eqn:Hv;
        cbn; [|by split; [stop_tac|unfold same_resources, same_settings]].
      case_bool_decide as Hin;
        [by split; [stop_tac|unfold same_resources, same_settings]|].
      unfold same_resources, same_settings. repeat split; try done. }
  destruct pick as [[fmt s1]|s1|f]; [|done|done]. cbn.
  destruct Hpick as (Hsh1 & Hres1 & Hset1 & Hin & Hreq & Hauto).
  set (dims := if (wrap32 (resolution_width l) =? 0) && (wrap32 (resolution_height l) =? 0)
               then _ else _).
  assert (Hdims : match dims with
                  | Next (w, h, s) =>
                      ros_shutdown s = ros_shutdown st
                      ∧ same_resources st s ∧ same_settings st s
                      ∧ (¬ (wrap32 (resolution_width l) = 0
                            ∧ wrap32 (resolution_height l) = 0) →
                         w = wrap32 (resolution_width l)
                         ∧ h = wrap32 (resolution_height l))
                      ∧ (wrap32 (resolution_width l) = 0
                         ∧ wrap32 (resolution_height l) = 0 →
                         last (sizes formats fmt) = Some (w, h))
                  | Return _ => False
                  | Crash _ => True
                  end).
  { subst dims.
    destruct ((wrap32 (resolution_width l) =? 0) && (wrap32 (resolution_height l) =? 0))
      eqn:Hz.
    - apply andb_prop in Hz as [Hw Hh]. apply Z.eqb_eq in Hw, Hh.
      destruct (last (sizes formats fmt)) as [[w h]|]; cbn; [|done].
      split; [done|]. split; [by destruct Hres1; destruct_and!|].
      split; [by destruct Hset1; destruct_and!|]. split; [|done].
      intros Hn. exfalso. by apply Hn.
    - cbn. do 3 (split; [done|]). split; [done|].
      intros [Hw Hh]. rewrite Hw, Hh in Hz. done. }
  destruct dims as [[[w h] s2]|s2|f]; [|done|done]. cbn.
  destruct Hdims as (Hsh2 & Hres2 & Hset2 & Hsize & Hback).
  destruct (cam_validate camera
              {| pixelFormat := fmt; width := w; height := h;
                 stride := stride generated |}) as [validity scfg] eqn:Hval.
  set (checked := match validity with Valid => _ | Adjusted => _ | Invalid => _ end).
  assert (Hchk : match checked with
                 | Next s =>
                     ros_shutdown s = ros_shutdown st
                     ∧ same_resources st s ∧ same_settings st s
                     ∧ validity ≠ Invalid
                 | Return s =>
                     stopped_with_error s ∧ same_resources st s ∧ same_settings st s
                 | Crash _ => True
                 end).
  { subst checked. destruct validity; cbn.
    - done.
    - repeat case_bool_decide; cbn;
        (split; [done|]); (split; [by destruct Hres2; destruct_and!|]);
        (split; [by destruct Hset2; destruct_and!|]); done.
    - split; [stop_tac|]. split; [by destruct Hres2; destruct_and!|].
      by destruct Hset2; destruct_and!. }
  destruct checked as [s3|s3|f]; [|done|done]. cbn.
  destruct Hchk as (Hsh3 & Hres3 & Hset3 & Hvalid).
  destruct (cam_configure camera scfg <? 0) eqn:Hconf.
  - split; [stop_tac|]. split; [by destruct Hres3; destruct_and!|].
    by destruct Hset3; destruct_and!.
  - apply Z.ltb_ge in Hconf.
    split; [done|]. split; [by destruct Hres3; destruct_and!|].
    split; [by destruct Hset3; destruct_and!|].
    eexists camera, role, generated, formats, _, validity.
    split; [done|]. split; [done|]. split; [done|]. split; [exact Hval|].
    split; [done|]. split; [done|]. cbn. rewrite Hcommon. split; [done|].
    split; [done|]. split; [by intros ->%Hauto|]. done.
Qed.

(** The declaration of the controls, from any point of its loop. *)
Lemma declareControlParameters_loop_cases cs st :
  match declareControlParameters_loop U cs st with
  | Next st' =>
      ros_shutdown st' = ros_shutdown st
      ∧ Forall (λ c : ControlId * ControlInfo,
                  is_Some (get_extent U c.1) →
                  numElements (ci_min c.2) = numElements (ci_max c.2)) cs
      ∧ (∀ name,
           (∃ id0, parameter_ids_ st !! name = Some (Some id0) ∧ cid_name id0 = name)
           ∨ (∃ id info, (id, info) ∈ cs ∧ is_Some (get_extent U id)
                         ∧ cid_name id = name) →
           ∃ id', parameter_ids_ st' !! name = Some (Some id') ∧ cid_name id' = name)
      ∧ (∀ name,
           (∀ id info, (id, info) ∈ cs → is_Some (get_extent U id) →
                       cid_name id ≠ name) →
           parameter_ids_ st' !! name = parameter_ids_ st !! name)
  | Return st' =>
      ros_shutdown st' = true
      ∧ last (ros_log st')
        = Some (ERROR, tag +:+
            "minimum and maximum parameter array sizes do not match")
      ∧ ∃ pre id info post,
          cs = pre ++ (id, info) :: post
          ∧ is_Some (get_extent U id)
          ∧ numElements (ci_min info) ≠ numElements (ci_max info)
          ∧ Forall (λ c : ControlId * ControlInfo,
                      is_Some (get_extent U c.1) →
                      numElements (ci_min c.2) = numElements (ci_max c.2)) pre
          ∧ parameter_ids_ st' !! cid_name id = Some (Some id)
  | Crash _ => False
  end
  ∧ ∀ st', final (declareControlParameters_loop U cs st) = Some st' →
      same_resources st st' ∧ parameters_ st' = parameters_ st
      ∧ frame_id_ st' = frame_id_ st ∧ _use_ros_time_ st' = _use_ros_time_ st
      ∧ remove_stride_ st' = remove_stride_ st.
Proof.
  revert st. induction cs as [|[id info] cs IH]; intros st; cbn.
  { split; [|by intros st' [= <-]].
    split; [done|]. split; [done|]. split; [|done].
    intros name [?|(id & info & Hin & _)]; [done|]. by apply elem_of_nil in Hin. }
  destruct (get_extent U id) as [extent|] eqn:Hext.
  - case_bool_decide as Hne; cbn.
    + split; [|by intros st' [= <-]].
      split; [done|]. split; [by rewrite last_snoc|].
      exists [], id, info, cs. cbn. rewrite Hext.
      split; [done|]. split; [done|]. split; [done|]. split; [done|].
      by rewrite lookup_insert_eq.
    + set (st1 := ROS_INFO _ (set_parameter_ids_ st _)).
      destruct (IH st1) as [IH1 IH2]. clear IH.
      split.
      2:{ intros st' Hfin. destruct (IH2 st' Hfin) as (Hres & Hrest).
          split; [|done]. unfold same_resources in *. by destruct_and!. }
      destruct (declareControlParameters_loop U cs st1) as [st'|st'|f]; [| |done].
      * destruct IH1 as (Hsh & Hall & Hkeep & Hskip).
        split; [done|]. split.
        { constructor; [|done]. cbn. intros _.
          by destruct (decide (numElements (ci_min info) = numElements (ci_max info))). }
        split.
        { intros name Hname. apply Hkeep. subst st1. cbn.
          destruct (decide (cid_name id = name)) as [Heq|Hneq].
          - left. exists id. by rewrite <- Heq, lookup_insert_eq.
          - destruct Hname as [(id0 & Hid0 & Hn0)|(id1 & info1 & Hin & Hk & Hn1)].
            + left. exists id0. by rewrite lookup_insert_ne.
            + right. exists id1, info1. split; [|done].
              apply elem_of_cons in Hin as [[= -> ->]|Hin]; [done|done]. }
        intros name Hname. rewrite Hskip.
        -- subst st1. cbn. rewrite lookup_insert_ne; [done|].
           apply (Hname id info); [apply list_elem_of_here|by rewrite Hext].
        -- intros id1 info1 Hin. apply (Hname id1 info1). by apply elem_of_cons; right.
      * destruct IH1 as (Hsh & Hlast & pre & id1 & info1 & post & -> & Hk & Hmis & Hpre & Hl).
        split; [done|]. split; [done|].
        exists ((id, info) :: pre), id1, info1, post.
        split; [done|]. split; [done|]. split; [done|]. split; [|done].
        constructor; [|done]. cbn. intros _.
        by destruct (decide (numElements (ci_min info) = numElements (ci_max info))).
  - set (st1 := ROS_INFO _ st).
    destruct (IH st1) as [IH1 IH2]. clear IH.
    split; [|exact IH2].
    destruct (declareControlParameters_loop U cs st1) as [st'|st'|f]; [| |done].
    + destruct IH1 as (Hsh & Hall & Hkeep & Hskip).
      split; [done|]. split.
      { constructor; [|done]. cbn. rewrite Hext. by intros [? ?]. }
      split.
      * intros name [Hname|(id1 & info1 & Hin & Hk & Hn1)]; apply Hkeep; [by left|].
        right. exists id1, info1. split; [|done].
        apply elem_of_cons in Hin as [[= -> ->]|Hin]; [|done].
        rewrite Hext in Hk. by destruct Hk.
      * intros name Hname. rewrite Hskip; [done|].
        intros id1 info1 Hin. apply (Hname id1 info1). by apply elem_of_cons; right.
    + destruct IH1 as (Hsh & Hlast & pre & id1 & info1 & post & -> & Hk & Hmis & Hpre & Hl).
      split; [done|]. split; [done|].
      exists ((id, info) :: pre), id1, info1, post.
      split; [done|]. split; [done|]. split; [done|]. split; [|done].
      constructor; [|done]. cbn. rewrite Hext. by intros [? ?].
Qed.

(** What [updateControlParameter] touches: the staged value of the control
    when it accepts, the log when it rejects. *)
Lemma updateControlParameter_frame st value id b st' :
  final (updateControlParameter U st value id) = Some (b, st') →
  same_resources st st' ∧ ros_shutdown st' = ros_shutdown st
  ∧ parameter_ids_ st' = parameter_ids_ st
  ∧ frame_id_ st' = frame_id_ st ∧ _use_ros_time_ st' = _use_ros_time_ st
  ∧ remove_stride_ st' = remove_stride_ st
  ∧ (if b
     then parameters_ st' = <[cid_id id := value]> (parameters_ st)
          ∧ ros_log st' = ros_log st
     else parameters_ st' = parameters_ st
          ∧ ∃ msg, ros_log st' = ros_log st ++ [(ERROR, msg)]).
Proof.
  unfold updateControlParameter, same_resources.
  destruct (isNone value);
    [intros [= <- <-]; cbn; repeat split; try done; eauto|].
  destruct (camera_ st) as [camera|] eqn:Hcam; [|done]. cbn.
  destruct (controls_at (cam_controls camera) id) as [ci|]; [|done].
  case_bool_decide;
    [intros [= <- <-]; cbn; repeat split; try done; eauto|].
  destruct (get_extent U id) as [extent|]; [|done].
  destruct ((cv_isArray value && (0 <? extent))
            && negb (Z.of_nat (numElements value) =? extent));
    [intros [= <- <-]; cbn; repeat split; try done; eauto|].
  destruct (value_lt U value (ci_min ci)
            || (if value_gt U (ci_max ci) (ci_min ci)
                then value_gt U value (ci_max ci) else false));
    intros [= <- <-]; cbn; repeat split; try done; eauto.
Qed.

Lemma controls_phase_refl st : controls_phase st st.
Proof. unfold controls_phase. by split; [apply same_resources_refl|]. Qed.

Lemma controls_phase_trans st1 st2 st3 :
  controls_phase st1 st2 → controls_phase st2 st3 → controls_phase st1 st3.
Proof.
  unfold controls_phase. intros (Hr1 & ? & ? & ? & ? & Hi1) (Hr2 & ? & ? & ? & ? & Hi2).
  split; [by eapply same_resources_trans|]. repeat split; try congruence.
  - intros Hl. by apply Hi1, Hi2.
  - intros Hl. by apply Hi2, Hi1.
Qed.

Lemma controls_phase_log st sev msg : controls_phase st (ros_print st sev msg).
Proof. unfold controls_phase, same_resources. by repeat split. Qed.

Lemma parameter_ids_index_spec st name :
  let '(p, st') := parameter_ids_index st name in
  controls_phase st st' ∧ parameters_ st' = parameters_ st
  ∧ ros_log st' = ros_log st
  ∧ (p = mjoin (parameter_ids_ st !! name)).
Proof.
  unfold parameter_ids_index.
  destruct (parameter_ids_ st !! name) as [p|] eqn:Hn.
  - split; [apply controls_phase_refl|done].
  - split; [|done]. unfold controls_phase, same_resources. cbn.
    repeat split; try done.
    + intros Hl. apply lookup_insert_Some in Hl as [[_ [=]]|[_ Hl]]. done.
    + intros Hl. rewrite lookup_insert_ne; [done|]. intros <-. congruence.
Qed.

(** A block of a control passes the value to [updateControlParameter] and
    goes on whatever the answer is. *)
Lemma onInit_control_cases name value st :
  match onInit_control U name value st with
  | Next st' =>
      controls_phase st st'
      ∧ ∃ id, parameter_ids_ st !! name = Some (Some id)
        ∧ ((parameters_ st' = parameters_ st
            ∧ ∃ msg, ros_log st' = ros_log st ++ [(ERROR, msg)])
           ∨ (parameters_ st'
              = <[cid_id id := pv_to_cv U value (cid_type id)]> (parameters_ st)
              ∧ ros_log st' = ros_log st))
  | Return _ => False
  | Crash _ => True
  end.
Proof.
  unfold onInit_control.
  pose proof (parameter_ids_index_spec st name) as Hidx.
  destruct (parameter_ids_index st name) as [p st1].
  destruct Hidx as (Hph & Hpar & Hlog & ->).
  destruct (parameter_ids_ st !! name) as [[id|]|] eqn:Hname; cbn; [|done..].
  destruct (updateControlParameter U st1 (pv_to_cv U value (cid_type id)) id)
    as [[b st2]|[b st2]|f] eqn:Hup; cbn; [| |done].
  all: destruct (updateControlParameter_frame st1
                   (pv_to_cv U value (cid_type id)) id b st2) as
      (Hres & Hsh & Hids & Hf & Hu & Hr & Hb); [by rewrite Hup|].
  all: split;
    [eapply controls_phase_trans; [exact Hph|];
     unfold controls_phase; rewrite Hids; split; [exact Hres|by repeat split]|].
  all: exists id; split; [done|].
  all: destruct b; destruct Hb as [Hb1 Hb2]; rewrite Hpar in Hb1; rewrite Hlog in Hb2;
    [by right|by left].
Qed.

Lemma onInit_control_AwbEnable_cases param_bool st :
  match onInit_control_AwbEnable U param_bool st with
  | Next st' => controls_phase st st'
  | Return _ => False
  | Crash _ => True
  end.
Proof.
  unfold onInit_control_AwbEnable.
  pose proof (parameter_ids_index_spec st "AwbEnable") as Hidx.
  destruct (parameter_ids_index st "AwbEnable") as [p st1].
  destruct Hidx as (Hph & Hpar & Hlog & ->).
  destruct (parameter_ids_ st !! "AwbEnable") as [[id|]|] eqn:Hname; cbn.
  - destruct (updateControlParameter U st1 (pv_to_cv U (PvBool param_bool) (cid_type id)) id)
      as [[b st2]|[b st2]|f] eqn:Hup; cbn; [| |done].
    all: destruct (updateControlParameter_frame st1
                     (pv_to_cv U (PvBool param_bool) (cid_type id)) id b st2) as
        (Hres & Hsh & Hids & Hf & Hu & Hr & Hb); [by rewrite Hup|].
    all: eapply controls_phase_trans; [exact Hph|].
    all: unfold controls_phase; rewrite Hids; split; [exact Hres|by repeat split].
  - eapply controls_phase_trans; [exact Hph|]. apply controls_phase_log.
  - eapply controls_phase_trans; [exact Hph|]. apply controls_phase_log.
Qed.

Lemma if_param_goes_on {T} (get : string → option T) name block st :
  (∀ v s, goes_on s (block v s)) → goes_on st (if_param get name block st).
Proof.
  intros Hblock. unfold if_param, goes_on.
  destruct (get name) as [v|]; [|apply controls_phase_refl].
  specialize (Hblock v (ROS_INFO (tag +:+ name +:+ "': ") st)). unfold goes_on in Hblock.
  destruct (block v _) as [st'| |]; [|done..].
  eapply controls_phase_trans; [apply controls_phase_log|exact Hblock].
Qed.

Lemma goes_on_bind st (m : Result State State) (k : State → Result State State) :
  goes_on st m → (∀ s, goes_on s (k s)) → goes_on st (m ≫= k).
Proof.
  unfold goes_on. destruct m as [s1| |]; cbn; [|done..].
  intros H1 Hk. specialize (Hk s1). destruct (k s1); [|done..].
  by eapply controls_phase_trans.
Qed.

Lemma onInit_control_goes_on name value st :
  goes_on st (onInit_control U name value st).
Proof.
  pose proof (onInit_control_cases name value st) as H. unfold goes_on.
  destruct (onInit_control U name value st); [|done..]. apply H.
Qed.

(** The phase of the controls goes on. *)
Lemma onInit_controls_goes_on st : goes_on st (onInit_controls U E st).
Proof.
  unfold onInit_controls.
  repeat (cbv beta; apply goes_on_bind;
          [apply if_param_goes_on; intros ? ?; cbv beta;
           first [apply onInit_control_goes_on
                 |apply onInit_control_AwbEnable_cases]
          |intros ?]).
  cbv beta. apply if_param_goes_on. intros ? ?. cbv beta.
  apply onInit_control_goes_on.
Qed.

(** A body of the loop over the buffers adds at most the mapping of its
    buffer, and puts it on record. *)
Lemma onInit_buffer_final buffer st st' :
  final (onInit_buffer E buffer st) = Some st' →
  camera_ st' = camera_ st ∧ stream_ st' = stream_ st
  ∧ cinfo_ st' = cinfo_ st ∧ image_pub_ st' = image_pub_ st
  ∧ parameters_ st' = parameters_ st
  ∧ (ros_shutdown st = true → ros_shutdown st' = true)
  ∧ ((address_space st' = address_space st ∧ buffer_info_ st' = buffer_info_ st)
     ∨ ∃ data,
         address_space st' = address_space st ++ [(data, mmap_args (planes buffer))]
         ∧ buffer_info_ st'
           = <[fb_addr buffer :=
                 {| bi_data := data; bi_size := planes_length (planes buffer) |}]>
               (buffer_info_ st)).
Proof.
  destruct (onInit_buffer E buffer st) as [s|s|f] eqn:Hb; [| |done]; intros [= <-].
  - destruct (onInit_buffer_next E buffer st s Hb)
      as (camera & request0 & data & stream & _ & _ & _ & _ & _ & _ & ->).
    cbn. repeat split; try done. right. by exists data.
  - destruct (onInit_buffer_return E buffer st s Hb)
      as (? & ? & ? & ? & ? & ? & ? & ?).
    by repeat split.
Qed.

(** The loop over the buffers keeps every mapping on record, when the
    buffers are distinct and new to [buffer_info_]. *)
Lemma onInit_buffers_recorded bs st st' :
  mappings_recorded st →
  NoDup (fb_addr <$> bs) →
  (∀ b, b ∈ bs → buffer_info_ st !! fb_addr b = None) →
  final (onInit_buffers E bs st) = Some st' →
  mappings_recorded st'
  ∧ camera_ st' = camera_ st ∧ stream_ st' = stream_ st
  ∧ cinfo_ st' = cinfo_ st ∧ image_pub_ st' = image_pub_ st
  ∧ parameters_ st' = parameters_ st
  ∧ (ros_shutdown st = true → ros_shutdown st' = true).
Proof.
  revert st. induction bs as [|b bs IH]; intros st Hrec Hnd Hnew; cbn.
  { by intros [= <-]. }
  apply NoDup_cons in Hnd as [Hb Hnd].
  destruct (onInit_buffer E b st) as [s|s|f] eqn:Hstep; [| |done]; cbn.
  - assert (Hfin : final (onInit_buffer E b st) = Some s) by (by rewrite Hstep).
    destruct (onInit_buffer_final b st s Hfin) as (Hc & Hs & Hci & Hp & Hpar & Hsh & Hmap).
    intros Hrest.
    assert (Hrec1 : mappings_recorded s ∧ ∀ b', b' ∈ bs → buffer_info_ s !! fb_addr b' = None).
    { destruct Hmap as [[Ha Hbi]|(data & Ha & Hbi)].
      - split.
        + intros a args. rewrite Ha, Hbi. apply Hrec.
        + intros b' Hb'. rewrite Hbi. apply Hnew. by apply elem_of_cons; right.
      - split.
        + intros a args. rewrite Ha, Hbi. intros Hin.
          apply elem_of_app in Hin as [Hin|Hin].
          * destruct (Hrec a args Hin) as (k & bi & Hk & Hd & Hsz).
            exists k, bi. split; [|done]. rewrite lookup_insert_ne; [done|].
            intros <-. rewrite Hnew in Hk; [done|]. apply list_elem_of_here.
          * apply list_elem_of_singleton in Hin as [= -> ->].
            eexists _, _. split; [apply lookup_insert_eq|done].
        + intros b' Hb'. rewrite Hbi. rewrite lookup_insert_ne.
          * apply Hnew. by apply elem_of_cons; right.
          * intros Heq. apply Hb. rewrite Heq. by apply list_elem_of_fmap_2. }
    destruct Hrec1 as [Hrec1 Hnew1].
    destruct (IH s Hrec1 Hnd Hnew1 Hrest) as (Hr' & ? & ? & ? & ? & ? & Hsh').
    split; [exact Hr'|]. repeat split; try congruence.
    intros Ht. apply Hsh'. apply Hsh. exact Ht.
  - intros [= <-].
    assert (Hfin : final (onInit_buffer E b st) = Some s) by (by rewrite Hstep).
    destruct (onInit_buffer_final b st s Hfin) as (Hc & Hs & Hci & Hp & Hpar & Hsh & Hmap).
    repeat split; try done.
    destruct Hmap as [[Ha Hbi]|(data & Ha & Hbi)].
    + intros a args. rewrite Ha, Hbi. apply Hrec.
    + intros a args. rewrite Ha, Hbi. intros Hin.
      apply elem_of_app in Hin as [Hin|Hin].
      * destruct (Hrec a args Hin) as (k & bi & Hk & Hd & Hsz).
        exists k, bi. split; [|done]. rewrite lookup_insert_ne; [done|].
        intros <-. rewrite Hnew in Hk; [done|]. apply list_elem_of_here.
      * apply list_elem_of_singleton in Hin as [= -> ->].
        eexists _, _. split; [apply lookup_insert_eq|done].
Qed.

(** A return of the body of the loop is a stop at an error. *)
Lemma onInit_buffer_stopped buffer st st' :
  onInit_buffer E buffer st = Return st' → stopped_with_error st'.
Proof.
  unfold onInit_buffer.
  destruct (camera_ st) as [camera|]; [|done]. cbn.
  destruct (cam_createRequest camera (length (requests_ st))) as [request0|].
  2:{ intros [= <-]. stop_tac. }
  destruct (onInit_map_buffer_cases E buffer st)
    as [[msg Hmap]|(data & Hmm & Hok & Hmap)]; rewrite Hmap; cbn.
  { intros [= <-]. stop_tac. }
  destruct (addBuffer request0 (stream_ st) buffer) as [ret request'].
  destruct (ret <? 0); [|done]. intros [= <-]. stop_tac.
Qed.

(** The body of the loop leaves the settings as they are. *)
Lemma onInit_buffer_settings buffer st st' :
  final (onInit_buffer E buffer st) = Some st' → same_settings st st'.
Proof.
  unfold onInit_buffer, same_settings.
  destruct (camera_ st) as [camera|]; [|done]. cbn.
  destruct (cam_createRequest camera (length (requests_ st))) as [request0|].
  2:{ by intros [= <-]. }
  destruct (onInit_map_buffer_cases E buffer st)
    as [[msg Hmap]|(data & Hmm & Hok & Hmap)]; rewrite Hmap; cbn.
  { by intros [= <-]. }
  destruct (addBuffer request0 (stream_ st) buffer) as [ret request'].
  by destruct (ret <? 0); intros [= <-].
Qed.

Lemma same_settings_trans st1 st2 st3 :
  same_settings st1 st2 → same_settings st2 st3 → same_settings st1 st3.
Proof. unfold same_settings. intros H1 H2. destruct_and!. repeat split; congruence. Qed.

(** What the loop over the buffers leaves as it is, however it ends. *)
Lemma onInit_buffers_final bs st st' :
  final (onInit_buffers E bs st) = Some st' →
  camera_ st' = camera_ st ∧ stream_ st' = stream_ st
  ∧ cinfo_ st' = cinfo_ st ∧ image_pub_ st' = image_pub_ st
  ∧ same_settings st st'.
Proof.
  revert st. induction bs as [|b bs IH]; intros st; cbn.
  { intros [= <-]. by unfold same_settings. }
  destruct (onInit_buffer E b st) as [s|s|f] eqn:Hstep; [| |done]; cbn.
  - assert (Hfin : final (onInit_buffer E b st) = Some s) by (by rewrite Hstep).
    destruct (onInit_buffer_final b st s Hfin) as (Hc & Hs & Hci & Hp & _).
    pose proof (onInit_buffer_settings b st s Hfin) as Hset.
    intros Hrest. destruct (IH s Hrest) as (? & ? & ? & ? & Hset').
    split; [congruence|]. split; [congruence|]. split; [congruence|].
    split; [congruence|]. by eapply same_settings_trans.
  - intros [= <-].
    assert (Hfin : final (onInit_buffer E b st) = Some s) by (by rewrite Hstep).
    destruct (onInit_buffer_final b st s Hfin) as (Hc & Hs & Hci & Hp & _).
    pose proof (onInit_buffer_settings b st s Hfin) as Hset. done.
Qed.

(** A return of the loop over the buffers is a stop at an error. *)
Lemma onInit_buffers_return bs st st' :
  onInit_buffers E bs st = Return st' → stopped_with_error st'.
Proof.
  revert st. induction bs as [|b bs IH]; intros st; cbn; [done|].
  destruct (onInit_buffer E b st) as [s|s|f] eqn:Hstep; [| |done]; cbn.
  - apply IH.
  - intros [= <-]. by eapply onInit_buffer_stopped.
Qed.

(** The last phase: the callback is connected; the camera runs with the
    requests of the pool in its queue, or the phase returns with the camera
    not started and the shutdown requested. *)
Lemma onInit_start_cases st :
  match onInit_start st with
  | Next st' =>
      ∃ camera, camera_ st = Some camera ∧ cam_start camera = 0
        ∧ camera_ st'
          = Some (foldl queueRequest
                    (set_cam_running (set_cam_connected camera true) true)
                    (requests_ st))
        ∧ ros_shutdown st' = ros_shutdown st
        ∧ last (ros_log st') = Some (INFO, tag +:+ "initialized")
  | Return st' =>
      ∃ camera, camera_ st = Some camera ∧ cam_start camera ≠ 0
        ∧ camera_ st' = Some (set_cam_connected camera true)
        ∧ stopped_with_error st'
  | Crash _ => camera_ st = None
  end
  ∧ ∀ st', final (onInit_start st) = Some st' →
      stream_ st' = stream_ st ∧ requests_ st' = requests_ st
      ∧ buffer_info_ st' = buffer_info_ st ∧ address_space st' = address_space st
      ∧ cinfo_ st' = cinfo_ st ∧ image_pub_ st' = image_pub_ st
      ∧ same_settings st st'.
Proof.
  unfold onInit_start, same_settings.
  destruct (camera_ st) as [camera|]; [|done]. cbn.
  destruct (cam_start camera =? 0) eqn:Hs; cbn.
  - apply Z.eqb_eq in Hs. split; [|by intros st' [= <-]].
    exists camera. cbn. by rewrite last_snoc.
  - apply Z.eqb_neq in Hs. split; [|by intros st' [= <-]].
    exists camera. split; [done|]. split; [done|]. split; [done|]. stop_tac.
Qed.

(** Queueing the requests of the pool on a running camera. *)
Lemma foldl_queueRequest camera rs :
  cam_running camera = true →
  foldl queueRequest camera rs = set_cam_queue camera (cam_queue camera ++ rs).
Proof.
  revert camera. induction rs as [|r rs IH]; intros camera Hrun; cbn.
  - rewrite app_nil_r. by destruct camera.
  - unfold queueRequest at 2. rewrite Hrun. rewrite IH by done. cbn.
    by rewrite <- app_assoc.
Qed.

(** The call of [declareControlParameters] in [onInit]: the caller goes on
    wherever the callee returned. *)
Lemma call_declareControlParameters st :
  match call (R':=State) (declareControlParameters U st) with
  | Next st' =>
      same_resources st st' ∧ parameters_ st' = parameters_ st
      ∧ frame_id_ st' = frame_id_ st ∧ _use_ros_time_ st' = _use_ros_time_ st
      ∧ remove_stride_ st' = remove_stride_ st
  | Return _ => False
  | Crash _ => True
  end.
Proof.
  unfold declareControlParameters.
  destruct (camera_ st) as [camera|] eqn:Hc; cbn; rewrite Hc; cbn; [|done].
  set (s0 := ROS_INFO _ st).
  destruct (declareControlParameters_loop_cases (cam_controls camera) s0) as [_ Hfin].
  destruct (declareControlParameters_loop U (cam_controls camera) s0)
    as [s|s|f]; cbn; [| |done].
  all: destruct (Hfin s eq_refl) as (Hres & ? & ? & ? & ?).
  all: split; [|done].
  all: eapply same_resources_trans; [|exact Hres].
  all: by unfold same_resources.
Qed.

(** The startup up to the loop over the buffers: it crashes, or it stops at
    an error with no buffer mapped and no request made, or it reaches the
    loop with the parameters loaded, a camera of the manager acquired and
    configured, and the rest of the body to run. *)
Lemma onInit_trace st :
  (∃ f, onInit U E st = Crash f)
  ∨ (∃ st', onInit U E st = Return st' ∧ stopped_with_error st'
       ∧ stream_ st' = stream_ st ∧ requests_ st' = requests_ st
       ∧ buffer_info_ st' = buffer_info_ st ∧ address_space st' = address_space st
       ∧ cinfo_ st' = cinfo_ st ∧ image_pub_ st' = image_pub_ st
       ∧ parameters_ st' = parameters_ st
       ∧ (camera_ st' = camera_ st ∨ camera_ st' = None
          ∨ ∃ i c, cameras E !! i = Some (Some c) ∧ camera_ st' = Some c))
  ∨ (∃ l scfg i c s5,
       parameters_loaded E l s5
       ∧ cameras E !! i = Some (Some c) ∧ cam_acquire c = 0
       ∧ stream_configured U E l c scfg
       ∧ camera_ s5 = Some c ∧ stream_ s5 = stream_ st
       ∧ requests_ s5 = requests_ st
       ∧ buffer_info_ s5 = buffer_info_ st ∧ address_space s5 = address_space st
       ∧ cinfo_ s5 = cinfo_ st ∧ image_pub_ s5 = image_pub_ st
       ∧ onInit U E st
         = (s6 ← onInit_buffers E (cam_buffers c)
                   (set_stream_ s5
                      (Some {| stream_addr := cam_stream c; configuration := scfg |}));
            onInit_start
              (set_cinfo_ s6
                 (Some {| cim_cname := camera_name l; cim_url := calib_url l |})))).
Proof.
  unfold onInit.
  pose proof (onInit_load_parameters_cases st) as H1.
  destruct (onInit_load_parameters E st) as [[l s1]|s1|f]; cbn; [| |done].
  2:{ right; left. exists s1. destruct H1 as (_ & Hsh & Hlast & Hpar & Hres).
      unfold same_resources in Hres. destruct_and!.
      split; [done|]. split; [split; [done|by eexists]|].
      repeat split; try done. by left. }
  destruct H1 as (Hn & Hid & Hro & Hpf & Hfr & Hcu & Hw & Hh & Hur & Hrs
                  & Hsh1 & Hpar1 & Hids1 & Hres1).
  unfold same_resources in Hres1.
  destruct Hres1 as (Hc1 & Hs1 & Hr1 & Hb1 & Ha1 & Hci1 & Hp1).
  destruct (onInit_select_camera_cases l s1) as [H2 H2f].
  destruct (onInit_select_camera E l s1) as [s2|s2|f] eqn:Hsel; cbn;
    [| |left; by eexists].
  2:{ right; left. exists s2. destruct H2 as [Hstop Hcam].
      destruct (H2f s2 eq_refl) as (? & ? & ? & ? & ? & ? & ? & _).
      split; [done|]. split; [done|].
      repeat split; try congruence.
      all: destruct Hcam as [Hcam|[Hcam|Hcam]];
        [left; congruence|by right; left|by right; right]. }
  destruct H2 as [(i & c & Hlist & Hcam2 & Hacq) Hsh2].
  destruct (H2f s2 eq_refl)
    as (Hs2 & Hr2 & Hb2 & Ha2 & Hci2 & Hp2 & Hpar2 & Hids2 & Hf2 & Hu2 & Hrm2).
  pose proof (onInit_configure_cases l s2) as H3.
  destruct (onInit_configure U E l s2) as [[scfg s3]|s3|f]; cbn;
    [| |left; by eexists].
  2:{ right; left. exists s3. destruct H3 as (Hstop & Hres & Hset).
      unfold same_resources in Hres. unfold same_settings in Hset. destruct_and!.
      split; [done|]. split; [done|].
      repeat split; try congruence. right; right. exists i, c. split; congruence. }
  destruct H3 as (Hsh3 & Hres3 & Hset3 & camera & role & generated & formats
                  & selected & validity & Hcam3 & Hconf).
  assert (camera = c) as -> by congruence.
  unfold same_resources in Hres3. unfold same_settings in Hset3.
  destruct Hres3 as (Hc3 & Hs3 & Hr3 & Hb3 & Ha3 & Hci3 & Hp3).
  destruct Hset3 as (Hpar3 & Hids3 & Hf3 & Hu3 & Hrm3 & _).
  pose proof (call_declareControlParameters s3) as H4.
  destruct (call (declareControlParameters U s3)) as [s4|s4|f]; cbn;
    [|done|left; by eexists].
  destruct H4 as (Hres4 & Hpar4 & Hf4 & Hu4 & Hrm4).
  unfold same_resources in Hres4.
  destruct Hres4 as (Hc4 & Hs4 & Hr4 & Hb4 & Ha4 & Hci4 & Hp4).
  pose proof (onInit_controls_goes_on s4) as H5. unfold goes_on in H5.
  destruct (onInit_controls U E s4) as [s5|s5|f]; cbn; [|done|left; by eexists].
  destruct H5 as (Hres5 & Hsh5 & Hf5 & Hu5 & Hrm5 & _).
  unfold same_resources in Hres5.
  destruct Hres5 as (Hc5 & Hs5 & Hr5 & Hb5 & Ha5 & Hci5 & Hp5).
  assert (Hcam5 : camera_ s5 = Some c) by congruence.
  rewrite Hcam5. cbn.
  right; right. exists l, scfg, i, c, s5.
  split.
  { unfold parameters_loaded. rewrite Hf5, Hf4, Hf3, Hf2, Hu5, Hu4, Hu3, Hu2,
      Hrm5, Hrm4, Hrm3, Hrm2. by repeat split. }
  split; [done|]. split; [done|].
  split. { unfold stream_configured. by exists role, generated, formats, selected, validity. }
  repeat split; congruence.
Qed.

(** The startup that runs to its end: the state it leaves. *)
Lemma onInit_next st st' :
  onInit U E st = Next st' →
  ∃ l scfg i c s5 s6,
    parameters_loaded E l s5
    ∧ cameras E !! i = Some (Some c) ∧ cam_acquire c = 0 ∧ cam_start c = 0
    ∧ stream_configured U E l c scfg
    ∧ camera_ s5 = Some c ∧ stream_ s5 = stream_ st
    ∧ requests_ s5 = requests_ st
    ∧ buffer_info_ s5 = buffer_info_ st ∧ address_space s5 = address_space st
    ∧ cinfo_ s5 = cinfo_ st ∧ image_pub_ s5 = image_pub_ st
    ∧ onInit_buffers E (cam_buffers c)
        (set_stream_ s5
           (Some {| stream_addr := cam_stream c; configuration := scfg |}))
      = Next s6
    ∧ st' = ROS_INFO (tag +:+ "initialized")
              (set_camera_
                 (set_cinfo_ s6
                    (Some {| cim_cname := camera_name l; cim_url := calib_url l |}))
                 (Some (foldl queueRequest
                          (set_cam_running (set_cam_connected c true) true)
                          (requests_ s6)))).
Proof.
  intros Hnext.
  destruct (onInit_trace st) as [[f Hf]|[(s & Hs & _)|Hreach]]; [congruence..|].
  destruct Hreach as (l & scfg & i & c & s5 & Hload & Hlist & Hacq & Hconf & Hcam
                      & Hstr & Hreq & Hbi & Has & Hci & Hpub & Heq).
  rewrite Heq in Hnext.
  destruct (onInit_buffers E (cam_buffers c) _) as [s6|s6|f] eqn:Hbufs;
    cbn in Hnext; [|done..].
  destruct (onInit_buffers_final _ _ s6 ltac:(by rewrite Hbufs)) as (Hc6 & _).
  cbn in Hc6. unfold onInit_start in Hnext. cbn in Hnext.
  rewrite Hc6, Hcam in Hnext. cbn in Hnext.
  destruct (cam_start c =? 0) eqn:Hstart; cbn in Hnext; [|done].
  apply Z.eqb_eq in Hstart. injection Hnext as <-.
  exists l, scfg, i, c, s5, s6. split; [exact Hload|]. by repeat split.
Qed.

(** With distinct buffers that are new to [buffer_info_], the startup keeps
    every mapping on record, however it ends. *)
Lemma onInit_recorded st st' :
  mappings_recorded st →
  (∀ i c, cameras E !! i = Some (Some c) →
     NoDup (fb_addr <$> cam_buffers c)
     ∧ ∀ b, b ∈ cam_buffers c → buffer_info_ st !! fb_addr b = None) →
  final (onInit U E st) = Some st' →
  mappings_recorded st'.
Proof.
  intros Hrec Hbufs Hfin.
  destruct (onInit_trace st) as [[f Hf]|[(s & Hs & _ & _ & _ & Hbi & Has & _)|Hreach]].
  - by rewrite Hf in Hfin.
  - rewrite Hs in Hfin. injection Hfin as <-.
    intros a args. rewrite Has, Hbi. apply Hrec.
  - destruct Hreach as (l & scfg & i & c & s5 & Hload & Hlist & Hacq & Hconf & Hcam
                        & Hstr & Hreq & Hbi & Has & Hci & Hpub & Heq).
    rewrite Heq in Hfin. destruct (Hbufs i c Hlist) as [Hnd Hnew].
    set (s5' := set_stream_ s5 _) in *.
    assert (Hrec5 : mappings_recorded s5').
    { intros a args. subst s5'. cbn. rewrite Has, Hbi. apply Hrec. }
    assert (Hnew5 : ∀ b, b ∈ cam_buffers c → buffer_info_ s5' !! fb_addr b = None).
    { intros b Hb. subst s5'. cbn. rewrite Hbi. by apply Hnew. }
    destruct (onInit_buffers E (cam_buffers c) s5') as [s6|s6|f] eqn:Hloop;
      cbn in Hfin; [| |done].
    + destruct (onInit_buffers_recorded _ s5' s6 Hrec5 Hnd Hnew5
                  ltac:(by rewrite Hloop)) as (Hrec6 & _).
      set (s6' := set_cinfo_ s6 _) in *.
      destruct (onInit_start_cases s6') as [_ Hst].
      destruct (Hst st' Hfin) as (_ & _ & Hbi' & Has' & _).
      intros a args. rewrite Has', Hbi'. subst s6'. cbn. apply Hrec6.
    + injection Hfin as <-.
      by destruct (onInit_buffers_recorded _ s5' s6 Hrec5 Hnd Hnew5
                     ltac:(by rewrite Hloop)).
Qed.

End Phases.

(** ** The startup as a whole *)

Section Initialization.

Variable U : Utils.
Variable E : Environment.

(** X1.  When one of the ten parameters that [onInit] loads first is not on
    the parameter server - the two read through [getOptionalParamCheck],
    camera_id and remove_stride, included - [onInit] returns with the
    shutdown of the node requested, its last log entry the error about the
    compulsory parameters; it has not touched the camera manager: the
    camera, the stream, the requests, the mappings and the staged controls
    are what they were. *)
Theorem onInit_parameter_missing st :
  parameter_missing E →
  ∃ st', onInit U E st = Return st'
    ∧ ros_shutdown st' = true
    ∧ last (ros_log st')
      = Some (ERROR, tag +:+
          "Some compulsory parameters were not loaded successfully, ending the node")
    ∧ same_resources st st'
    ∧ parameters_ st' = parameters_ st.
Proof.
  intros Hmiss. unfold onInit.
  pose proof (onInit_load_parameters_cases E st) as H.
  destruct (onInit_load_parameters E st) as [[l s1]|s1|f]; cbn; [| |done].
  2:{ exists s1. destruct H as (_ & ? & ? & ? & ?). by do 4 (split; [done|]). }
  exfalso. unfold parameter_missing in Hmiss.
  destruct H as (H1 & H2 & H3 & H4 & H5 & H6 & H7 & H8 & H9 & H10 & _).
  destruct_or!; congruence.
Qed.

(** X2.  After a startup that ran to its end, the settings of the nodelet
    are the values of the parameter server (frame_id, use_ros_time,
    remove_stride), the camera info manager is made from camera_name and
    calib_url, and the stream is the one of the camera with the
    configuration that [validate] left and [configure] accepted: its pixel
    format was selected among the formats the camera and the node have in
    common (the requested one, or the first when pixel_format is empty) and
    its size is the requested one (or the last size of the format when
    0 x 0 is requested). *)
Theorem onInit_configured st st' :
  onInit U E st = Next st' →
  ∃ l c0 c scfg,
    parameters_loaded E l st'
    ∧ cinfo_ st' = Some {| cim_cname := camera_name l; cim_url := calib_url l |}
    ∧ Some c0 ∈ cameras E
    ∧ camera_ st' = Some c
    ∧ cam_stream c = cam_stream c0
    ∧ stream_configured U E l c0 scfg
    ∧ stream_ st' = Some {| stream_addr := cam_stream c; configuration := scfg |}.
Proof.
  intros Hnext.
  destruct (onInit_next U E st st' Hnext)
    as (l & scfg & i & c & s5 & s6 & Hload & Hlist & Hacq & Hstart & Hconf & Hcam
        & _ & _ & _ & _ & _ & _ & Hbufs & ->).
  destruct (onInit_buffers_final E _ _ s6 ltac:(by rewrite Hbufs))
    as (Hc6 & Hs6 & _ & _ & Hset).
  unfold same_settings in Hset. cbn in Hset, Hs6.
  destruct Hset as (_ & _ & Hf & Hu & Hr & _).
  eexists l, c, _, scfg. cbn.
  split. { unfold parameters_loaded in *. cbn. rewrite Hf, Hu, Hr. exact Hload. }
  split; [done|].
  split; [by eapply list_elem_of_lookup_2|].
  split; [reflexivity|].
  rewrite foldl_queueRequest by done. cbn.
  split; [done|]. split; [done|]. exact Hs6.
Qed.

(** X3.  Every [return] that [onInit] takes before its end is a stop at an
    error: the shutdown of the node is requested and the last log entry is
    an error.  The camera has not been started: [camera_] is what it was,
    or null, or a camera of the manager's list, as listed or with the
    completion handler connected after a failed [start]; and nothing has
    been published. *)
Theorem onInit_return_stops st st' :
  onInit U E st = Return st' →
  stopped_with_error st' ∧ camera_not_started E st st'
  ∧ image_pub_ st' = image_pub_ st.
Proof.
  intros Hret. unfold camera_not_started.
  destruct (onInit_trace U E st)
    as [[f Hf]|[(s & Hs & Hstop & _ & _ & _ & _ & _ & Hpub & _ & Hcam)|Hreach]].
  - congruence.
  - rewrite Hs in Hret. injection Hret as <-.
    split; [done|]. split; [|done].
    destruct Hcam as [?|[?|(i & c & ? & ?)]]; [by left|by right; left|].
    right; right. exists i, c. by split; [|left].
  - destruct Hreach as (l & scfg & i & c & s5 & Hload & Hlist & Hacq & Hconf & Hcam
                        & Hstr & Hreq & Hbi & Has & Hci & Hpub & Heq).
    rewrite Heq in Hret.
    destruct (onInit_buffers E (cam_buffers c) _) as [s6|s6|f] eqn:Hbufs;
      cbn in Hret; [| |done].
    + destruct (onInit_buffers_final E _ _ s6 ltac:(by rewrite Hbufs))
        as (Hc6 & _ & _ & Hp6 & _).
      cbn in Hc6, Hp6.
      set (s6' := set_cinfo_ s6 _) in *.
      destruct (onInit_start_cases s6') as [Hcase Hfin].
      rewrite Hret in Hcase, Hfin.
      destruct Hcase as (camera & Hcam6 & Hfail & Hcam' & Hstop).
      destruct (Hfin st' eq_refl) as (_ & _ & _ & _ & _ & Hp' & _).
      subst s6'. cbn in Hcam6, Hp'.
      assert (camera = c) as -> by congruence.
      split; [done|]. split; [|congruence].
      right; right. exists i, c. split; [done|]. by right.
    + injection Hret as <-.
      destruct (onInit_buffers_final E _ _ s6 ltac:(by rewrite Hbufs))
        as (Hc6 & _ & _ & Hp6 & _).
      cbn in Hc6, Hp6.
      split; [by eapply onInit_buffers_return|]. split; [|congruence].
      right; right. exists i, c. split; [done|]. left. congruence.
Qed.

(** X4.  After a startup that ran to its end, [camera_] is a camera of the
    manager's list whose [acquire] and [start] succeeded; the completion
    handler is connected, the camera runs, and its queue is the queue it
    had followed by the requests of [requests_], in their order.  The last
    log entry says initialized, and nothing has been published. *)
Theorem onInit_started st st' :
  onInit U E st = Next st' →
  ∃ c0,
    Some c0 ∈ cameras E ∧ cam_acquire c0 = 0 ∧ cam_start c0 = 0
    ∧ camera_ st'
      = Some (set_cam_queue (set_cam_running (set_cam_connected c0 true) true)
                (cam_queue c0 ++ requests_ st'))
    ∧ last (ros_log st') = Some (INFO, tag +:+ "initialized")
    ∧ image_pub_ st' = image_pub_ st.
Proof.
  intros Hnext.
  destruct (onInit_next U E st st' Hnext)
    as (l & scfg & i & c & s5 & s6 & Hload & Hlist & Hacq & Hstart & Hconf & Hcam
        & _ & _ & _ & _ & _ & Hpub & Hbufs & ->).
  destruct (onInit_buffers_final E _ _ s6 ltac:(by rewrite Hbufs))
    as (_ & _ & _ & Hp6 & _).
  cbn in Hp6. exists c. cbn.
  split; [by eapply list_elem_of_lookup_2|].
  split; [done|]. split; [done|].
  rewrite foldl_queueRequest by done. cbn.
  split; [done|]. rewrite last_snoc. split; [done|]. congruence.
Qed.

(** X5.  After a startup that ran to its end, [requests_] has grown by one
    request for each buffer of the allocator, in the order of the buffers:
    the request for the k-th buffer is the k-th the camera created since,
    with that buffer added for the stream - so [findBuffer] on the stream
    gives that buffer - and with every staged control in its control
    list. *)
Theorem onInit_pool st st' :
  onInit U E st = Next st' →
  ∃ c rs,
    camera_ st' = Some c
    ∧ requests_ st' = requests_ st ++ rs
    ∧ length rs = length (cam_buffers c)
    ∧ ∀ k b, cam_buffers c !! k = Some b →
        ∃ r request0,
          rs !! k = Some r
          ∧ cam_createRequest c (length (requests_ st) + k) = Some request0
          ∧ cookie r = cookie request0 ∧ status r = status request0
          ∧ buffers r = <[cam_stream c := b]> (buffers request0)
          ∧ findBuffer r (stream_ st') = Some b
          ∧ ∀ id value, parameters_ st' !! id = Some value →
                        controls r !! id = Some value.
Proof.
  intros Hnext.
  destruct (onInit_next U E st st' Hnext)
    as (l & scfg & i & c & s5 & s6 & Hload & Hlist & Hacq & Hstart & Hconf & Hcam
        & _ & Hreq & _ & _ & _ & _ & Hbufs & ->).
  destruct (onInit_buffers_next E _ _ s6 Hbufs)
    as (rs & ms & Hrs & _ & Hlen & _ & _ & Hs6 & Hpar6 & _ & _ & _ & Heach).
  cbn in Hrs, Hs6, Hpar6.
  eexists _, rs. cbn. split; [reflexivity|].
  rewrite foldl_queueRequest by done. cbn.
  split; [congruence|]. split; [done|].
  intros k b Hb.
  destruct (Heach k b Hb)
    as (r & m & stream & Hr & _ & Hstream & Hfind & Hctl & Hmade & _).
  destruct Hmade as (camera & request0 & Hcam0 & Hcreate & Hbuf & Hcookie & Hstatus).
  cbn in Hstream, Hfind, Hctl, Hcam0, Hcreate.
  assert (camera = c) as -> by congruence.
  injection Hstream as <-. cbn in Hbuf.
  exists r, request0. split; [done|].
  split; [by rewrite <- Hreq|]. split; [done|]. split; [done|]. split; [done|].
  split; [by rewrite Hs6|].
  intros id value Hid. apply Hctl. by rewrite <- Hpar6.
Qed.

(** X6.  After a startup that ran to its end, the process holds one more
    mapping for each buffer of the allocator, in the order of the buffers:
    the k-th is the one [mmap] gave for the arguments computed from the
    planes of the k-th buffer (read only, shared, from offset 0 of the
    descriptor of the planes, as long as the largest end of a plane), no
    plane of the buffer has a defect, and [buffer_info_] has an entry for
    the buffer. *)
Theorem onInit_mappings st st' :
  onInit U E st = Next st' →
  ∃ c ms,
    camera_ st' = Some c
    ∧ address_space st' = address_space st ++ ms
    ∧ length ms = length (cam_buffers c)
    ∧ ∀ k b, cam_buffers c !! k = Some b →
        ∃ data,
          ms !! k = Some (data, mmap_args (planes b))
          ∧ sys_mmap E (mmap_args (planes b)) = Some data
          ∧ mm_prot (mmap_args (planes b)) = PROT_READ
          ∧ mm_flags (mmap_args (planes b)) = MAP_SHARED
          ∧ mm_offset (mmap_args (planes b)) = 0
          ∧ mm_length (mmap_args (planes b)) = planes_length (planes b)
          ∧ ¬ planes_defect (planes b)
          ∧ is_Some (buffer_info_ st' !! fb_addr b).
Proof.
  intros Hnext.
  destruct (onInit_next U E st st' Hnext)
    as (l & scfg & i & c & s5 & s6 & Hload & Hlist & Hacq & Hstart & Hconf & Hcam
        & _ & _ & _ & Has & _ & _ & Hbufs & ->).
  destruct (onInit_buffers_next E _ _ s6 Hbufs)
    as (rs & ms & _ & Hms & _ & Hlen & _ & _ & _ & _ & _ & _ & Heach).
  cbn in Hms.
  eexists _, ms. cbn. split; [reflexivity|].
  rewrite foldl_queueRequest by done. cbn.
  split; [congruence|]. split; [done|].
  intros k b Hb.
  destruct (Heach k b Hb)
    as (r & [data args] & stream & _ & Hm & _ & _ & _ & _ & Hargs & Hmm & Hok & Hbi).
  cbn in Hargs, Hmm. subst args.
  exists data. by repeat split.
Qed.

(** X22.  A startup that ran to its end has prepared what the completion
    handler relies on.  When [requests_] was empty and the camera creates
    requests without buffers, every request of the pool holds exactly one
    buffer - the assertion on [buffers().size()] holds - [findBuffer] on
    the stream finds it, [buffer_info_] has an entry for it, the staged
    controls are in the control list of the request, and neither the
    stream nor the camera info manager is null. *)
Theorem onInit_prepares_handler st st' :
  onInit U E st = Next st' →
  requests_ st = [] →
  (∀ c n request0, Some c ∈ cameras E →
     cam_createRequest c n = Some request0 → buffers request0 = ∅) →
  is_Some (stream_ st') ∧ is_Some (cinfo_ st')
  ∧ ∀ r, r ∈ requests_ st' →
      size (buffers r) = 1%nat
      ∧ (∃ b, findBuffer r (stream_ st') = Some b
              ∧ is_Some (buffer_info_ st' !! fb_addr b))
      ∧ ∀ id value, parameters_ st' !! id = Some value →
                    controls r !! id = Some value.
Proof.
  intros Hnext Hempty Hfresh.
  destruct (onInit_next U E st st' Hnext)
    as (l & scfg & i & c & s5 & s6 & Hload & Hlist & Hacq & Hstart & Hconf & Hcam
        & _ & Hreq & _ & _ & _ & _ & Hbufs & ->).
  destruct (onInit_buffers_next E _ _ s6 Hbufs)
    as (rs & ms & Hrs & _ & Hlen & _ & _ & Hs6 & Hpar6 & _ & _ & _ & Heach).
  cbn in Hrs, Hs6, Hpar6. rewrite Hreq, Hempty in Hrs. cbn in Hrs.
  cbn. rewrite Hs6. split; [by eexists|]. split; [by eexists|].
  intros r Hr. rewrite Hrs in Hr.
  apply list_elem_of_lookup_1 in Hr as [k Hk].
  assert (Hlt : (k < length (cam_buffers c))%nat).
  { rewrite <- Hlen. by eapply lookup_lt_Some. }
  destruct (lookup_lt_is_Some_2 _ _ Hlt) as [b Hb].
  destruct (Heach k b Hb)
    as (r' & m & stream & Hr' & _ & Hstream & Hfind & Hctl & Hmade & _ & _ & _ & Hbi).
  assert (r' = r) as -> by congruence.
  destruct Hmade as (camera & request0 & Hcam0 & Hcreate & Hbuf & _).
  cbn in Hstream, Hfind, Hctl, Hcam0.
  assert (camera = c) as -> by congruence.
  rewrite (Hfresh c _ request0 (list_elem_of_lookup_2 _ _ _ Hlist) Hcreate) in Hbuf.
  split; [by rewrite Hbuf, insert_empty, map_size_singleton|].
  split; [by exists b|].
  intros id value Hid. apply Hctl. by rewrite <- Hpar6.
Qed.

End Initialization.

(** ** The controls *)

Section Controls.

Variable U : Utils.

(** X7.  With a camera, [declareControlParameters] called on an empty
    [parameter_ids_] and run to its end records every control of the
    camera whose extent is known under its name, and has found the minimum
    and the maximum of each of them of equal size.  Every id it has
    recorded is a control of the camera with a known extent, so
    [updateControlParameter] on it returns its verdict for any value: the
    lookup [controls().at(id)] and [get_extent] do not throw.  The camera,
    the requests, the mappings and the staged controls are untouched, and
    no shutdown is requested. *)
Theorem declareControlParameters_declares st st' camera :
  camera_ st = Some camera →
  parameter_ids_ st = ∅ →
  declareControlParameters U st = Next st' →
  (∀ id info, (id, info) ∈ cam_controls camera → is_Some (get_extent U id) →
     numElements (ci_min info) = numElements (ci_max info)
     ∧ ∃ id', parameter_ids_ st' !! cid_name id = Some (Some id')
              ∧ cid_name id' = cid_name id)
  ∧ (∀ name id value, parameter_ids_ st' !! name = Some (Some id) →
       ∃ b st'', updateControlParameter U st' value id = Return (b, st''))
  ∧ same_resources st st' ∧ parameters_ st' = parameters_ st
  ∧ ros_shutdown st' = ros_shutdown st.
Proof.
  intros Hcam Hempty Hnext.
  pose proof (declareControlParameters_ids U st st' camera Hcam Hempty
                ltac:(by rewrite Hnext)) as Hids.
  unfold declareControlParameters in Hnext. cbn in Hnext.
  rewrite Hcam in Hnext. cbn in Hnext.
  set (s0 := ROS_INFO _ st) in *.
  destruct (declareControlParameters_loop_cases U (cam_controls camera) s0)
    as [Hcase Hfin].
  rewrite Hnext in Hcase, Hfin.
  destruct Hcase as (Hsh & Hall & Hnames & _).
  destruct (Hfin st' eq_refl) as (Hres & Hpar & _).
  assert (Hres' : same_resources st st').
  { eapply same_resources_trans; [|exact Hres]. by unfold same_resources. }
  split; [|split; [|split; [exact Hres'|by split]]].
  - intros id info Hin Hext. split.
    + rewrite Forall_forall in Hall. by apply (Hall (id, info) Hin).
    + apply Hnames. right. by exists id, info.
  - intros name id value Hl. destruct (Hids name id Hl) as [[ci Hci] [extent Hext]].
    assert (Hcam' : camera_ st' = Some camera).
    { destruct Hres' as (-> & _). done. }
    destruct (updateControlParameter_cases U st' camera value id ci extent
                Hcam' Hci Hext) as [(s & Hs & _)|[Hs _]]; eauto.
Qed.

(** X21.  With a camera, [declareControlParameters] does not crash.  It
    runs to its end exactly when the minimum and the maximum of every
    control with a known extent have the same number of elements, and then
    requests no shutdown.  Otherwise it returns at the first control where
    they differ, the id of that control already on record, with the
    shutdown requested and an error as the last log entry. *)
Theorem declareControlParameters_stops_at_mismatch st camera :
  camera_ st = Some camera →
  match declareControlParameters U st with
  | Next st' =>
      Forall (λ c : ControlId * ControlInfo,
                is_Some (get_extent U c.1) →
                numElements (ci_min c.2) = numElements (ci_max c.2))
        (cam_controls camera)
      ∧ ros_shutdown st' = ros_shutdown st
  | Return st' =>
      stopped_with_error st'
      ∧ ∃ pre id info post,
          cam_controls camera = pre ++ (id, info) :: post
          ∧ is_Some (get_extent U id)
          ∧ numElements (ci_min info) ≠ numElements (ci_max info)
          ∧ Forall (λ c : ControlId * ControlInfo,
                      is_Some (get_extent U c.1) →
                      numElements (ci_min c.2) = numElements (ci_max c.2)) pre
          ∧ parameter_ids_ st' !! cid_name id = Some (Some id)
  | Crash _ => False
  end.
Proof.
  intros Hcam. unfold declareControlParameters. cbn. rewrite Hcam. cbn.
  set (s0 := ROS_INFO _ st).
  destruct (declareControlParameters_loop_cases U (cam_controls camera) s0)
    as [Hcase _].
  destruct (declareControlParameters_loop U (cam_controls camera) s0)
    as [s|s|f]; [| |done].
  - by destruct Hcase as (Hsh & Hall & _).
  - destruct Hcase as (Hsh & Hlast & Hex).
    split; [|done]. split; [done|by eexists].
Qed.

(** X8.  For a control of the camera with a known extent,
    [updateControlParameter] returns true exactly when the value is not
    none, has the type of the control, has as many elements as the extent
    when it is an array and the extent is positive, and is in range
    (min ≤ value, and max ≤ min or value ≤ max).  On true the value is
    staged under the id of the control and nothing is logged; on false
    the staged controls stay as they were and one error is logged.  In
    both cases the camera, the requests and the mappings are untouched and
    no shutdown is requested. *)
Theorem updateControlParameter_accepts st camera value id ci extent :
  camera_ st = Some camera →
  controls_at (cam_controls camera) id = Some ci →
  get_extent U id = Some extent →
  ∃ b st',
    updateControlParameter U st value id = Return (b, st')
    ∧ (b = true ↔
       isNone value = false ∧ cv_type value = cid_type id
       ∧ (cv_isArray value = true → 0 < extent →
          Z.of_nat (numElements value) = extent)
       ∧ in_range U ci value)
    ∧ (if b
       then parameters_ st' = <[cid_id id := value]> (parameters_ st)
            ∧ ros_log st' = ros_log st
       else parameters_ st' = parameters_ st
            ∧ ∃ msg, ros_log st' = ros_log st ++ [(ERROR, msg)])
    ∧ same_resources st st' ∧ ros_shutdown st' = ros_shutdown st.
Proof.
  intros Hcam Hat Hext.
  assert (Hret : ∃ b st', updateControlParameter U st value id = Return (b, st')).
  { destruct (updateControlParameter_cases U st camera value id ci extent
                Hcam Hat Hext) as [(s & Hs & _)|[Hs _]]; eauto. }
  destruct Hret as (b & st' & Hret). exists b, st'. split; [done|].
  destruct (updateControlParameter_frame U st value id b st'
              ltac:(by rewrite Hret)) as (Hres & Hsh & _ & _ & _ & _ & Hb).
  split; [|split; [exact Hb|split; [exact Hres|exact Hsh]]].
  revert Hret. unfold updateControlParameter, in_range, value_ge, value_le.
  destruct (isNone value) eqn:Hnone.
  { intros [= <- <-]. split; [done|]. by intros [? _]. }
  rewrite Hcam. cbn. rewrite Hat.
  case_bool_decide as Hty.
  { intros [= <- <-]. split; [done|]. by intros (_ & ? & _). }
  rewrite Hext.
  destruct ((cv_isArray value && (0 <? extent))
            && negb (Z.of_nat (numElements value) =? extent)) eqn:Hdim.
  { intros [= <- <-]. split; [done|]. intros (_ & _ & Hn & _). exfalso.
    apply andb_prop in Hdim as [Hd1 Hd2]. apply andb_prop in Hd1 as [Ha Hb1].
    apply negb_true_iff, Z.eqb_neq in Hd2. apply Z.ltb_lt in Hb1. by apply Hd2, Hn. }
  assert (Hn : cv_isArray value = true → 0 < extent →
               Z.of_nat (numElements value) = extent).
  { intros Ha Hpos. rewrite Ha in Hdim. apply Z.ltb_lt in Hpos. rewrite Hpos in Hdim.
    cbn in Hdim. apply negb_false_iff in Hdim. by apply Z.eqb_eq. }
  assert (Hty' : cv_type value = cid_type id).
  { by destruct (decide (cv_type value = cid_type id)). }
  destruct (value_lt U value (ci_min ci)) eqn:Hlt; cbn.
  { intros [= <- <-]. split; [done|]. by intros (_ & _ & _ & ? & _). }
  destruct (value_gt U (ci_max ci) (ci_min ci)) eqn:Hmm.
  - destruct (value_gt U value (ci_max ci)) eqn:Hgt; intros [= <- <-].
    + split; [done|]. by intros (_ & _ & _ & _ & [?|?]).
    + split; [|done]. intros _. repeat split; try done. by right.
  - intros [= <- <-]. split; [|done]. intros _. repeat split; try done. by left.
Qed.

Variable E : Environment.






(** X9.  The blocks that hand the control parameters to the camera never
    make [onInit] return and never request the shutdown: when the phase
    runs to its end - whatever [updateControlParameter] answered - the
    camera, the stream, the requests, the mappings and the settings are
    what they were, and so are the ids on record in [parameter_ids_]. *)
Theorem onInit_controls_goes_on_after_rejection st :
  match onInit_controls U E st with
  | Next st' =>
      same_resources st st' ∧ ros_shutdown st' = ros_shutdown st
      ∧ frame_id_ st' = frame_id_ st ∧ _use_ros_time_ st' = _use_ros_time_ st
      ∧ remove_stride_ st' = remove_stride_ st
      ∧ ∀ name id, parameter_ids_ st' !! name = Some (Some id)
                   ↔ parameter_ids_ st !! name = Some (Some id)
  | Return _ => False
  | Crash _ => True
  end.
Proof. exact (onInit_controls_goes_on U E st). Qed.


End Controls.

(** ** The handler and the destructor *)

Section Handler.

Variable U : Utils.

Lemma buffer_info_index_subseteq st buffer :
  buffer_info_ st ⊆ buffer_info_ (buffer_info_index st buffer).2.
Proof.
  unfold buffer_info_index.
  destruct (buffer_info_ st !! fb_addr buffer) eqn:Hl; cbn; [done|].
  by apply insert_subseteq.
Qed.

(** The handler forgets no entry of [buffer_info_]. *)
Lemma requestComplete_buffer_info st mem now request st' :
  final (requestComplete U st mem now request) = Some st' →
  buffer_info_ st ⊆ buffer_info_ st'.
Proof.
  unfold requestComplete.
  destruct (status request) eqn:Hst; cbn.
  - destruct (camera_ st) as [camera|]; [|discriminate]. cbn. by intros [= <-].
  - case_bool_decide as Hsz; [|discriminate]. cbn.
    destruct (findBuffer request (stream_ st)) as [buffer|]; [|discriminate]. cbn.
    pose proof (requestComplete_stamp_spec st now (timestamp (metadata buffer))) as Hsp.
    cbn in Hsp.
    destruct (requestComplete_stamp st now (timestamp (metadata buffer)))
      as [st1 stamp1].
    cbn in Hsp. destruct Hsp as (Hc1 & Hi1 & _ & _ & Hb1 & _).
    destruct (stream_ st1) as [stream|]; [|discriminate]. cbn.
    destruct (format_type U (pixelFormat (configuration stream))).
    + pose proof (buffer_info_index_subseteq st1 buffer) as Hsub.
      destruct (requestComplete_raw_cases U st1 mem
                  {| stamp := stamp1; frame_id := frame_id_ st1 |}
                  (configuration stream) buffer (bytesused_sum (metadata buffer)))
        as [[f Hr]|(img & Hr & _)]; rewrite Hr; [done|].
      set (st2 := (buffer_info_index st1 buffer).2) in *. cbn.
      destruct (cinfo_ st2) as [cinfo|]; [|discriminate]. cbn.
      destruct (camera_ st2) as [camera|]; [|discriminate]. cbn.
      intros [= <-]. cbn. by rewrite <- Hb1.
    + cbn. intros [= <-]. cbn. by rewrite Hb1.
  - destruct (camera_ st) as [camera|]; [|discriminate]. cbn. by intros [= <-].
Qed.

(** What a run of completions keeps: the members the handler does not
    write, the mappings on record, and a camera in [camera_]. *)
Lemma run_keeps evs st st' :
  run U st evs = Some st' →
  same_members st st' ∧ buffer_info_ st ⊆ buffer_info_ st'
  ∧ (is_Some (camera_ st) → is_Some (camera_ st')).
Proof.
  revert st. induction evs as [|e evs IH]; intros st.
  { intros [= <-]. split; [apply same_members_refl|done]. }
  intros Hrun. apply run_cons in Hrun as (s1 & Hstep & Hrest).
  destruct (IH s1 Hrest) as (Hsm & Hsub & Hcam).
  pose proof (requestComplete_buffer_info _ _ _ _ _ Hstep) as Hsub1.
  assert (Hstep1 : same_members st s1 ∧ (is_Some (camera_ st) → is_Some (camera_ s1))).
  { destruct (decide (status (ev_request e) = RequestComplete)) as [Hc|Hc].
    - destruct (requestComplete_complete_final U _ _ _ _ _ Hc Hstep)
        as (b & stream & _ & _ & _ & Hm & _ & _ & Hcase).
      split; [done|].
      destruct Hcase as [(_ & _ & _ & -> & _)|(_ & _ & _ & img & ci & c & _ & _ & _ & _ & ->)];
        [done|eauto].
    - destruct (requestComplete_other_final U _ _ _ _ _ Hc Hstep)
        as (Hm & _ & _ & _ & _ & c & _ & ->).
      split; [done|eauto]. }
  destruct Hstep1 as [Hm1 Hcam1].
  split; [by eapply same_members_trans|].
  split; [by etrans|]. intros H. by apply Hcam, Hcam1.
Qed.

Lemma run_recorded evs st st' :
  run U st evs = Some st' → mappings_recorded st → mappings_recorded st'.
Proof.
  intros Hrun Hrec a args Hin.
  destruct (run_keeps evs st st' Hrun) as (Hsm & Hsub & _).
  assert (Has : address_space st' = address_space st) by apply Hsm.
  rewrite Has in Hin. destruct (Hrec a args Hin) as (k & bi & Hk & Hbi).
  exists k, bi. split; [|done]. by eapply lookup_weaken.
Qed.

End Handler.

Section Destructor.

Variable T : TeardownCalls.

(** The loop of [munmap]: the mappings it leaves are the ones no successful
    call was made for; each failed call adds an error to the log. *)
Lemma destructor_unmap_spec es st :
  let st' := destructor_unmap T es st in
  camera_ st' = camera_ st ∧ stream_ st' = stream_ st
  ∧ requests_ st' = requests_ st ∧ buffer_info_ st' = buffer_info_ st
  ∧ image_pub_ st' = image_pub_ st ∧ ros_shutdown st' = ros_shutdown st
  ∧ parameters_ st' = parameters_ st
  ∧ ros_log st'
    = ros_log st
      ++ replicate
           (length (filter (λ e : N * buffer_info_t,
                              sys_munmap T (bi_data e.2) (bi_size e.2) = -1) es))
           (ERROR, tag +:+ "munmap failed: ")
  ∧ ∀ m, m ∈ address_space st' ↔
      m ∈ address_space st
      ∧ ∀ e, e ∈ es → sys_munmap T (bi_data e.2) (bi_size e.2) ≠ -1 →
             ¬ (m.1 = bi_data e.2 ∧ mm_length m.2 = bi_size e.2).
Proof.
  revert st. induction es as [|e es IH]; intros st.
  { cbn. rewrite app_nil_r. do 8 (split; [done|]). intros m. split.
    - intros Hm. split; [done|]. intros e He. by apply elem_of_nil in He.
    - by intros [? _]. }
  rewrite filter_cons. cbn [destructor_unmap]. cbv zeta.
  destruct (sys_munmap T (bi_data e.2) (bi_size e.2) =? -1) eqn:Hret.
  - apply Z.eqb_eq in Hret. rewrite decide_True by done.
    destruct (IH (ROS_ERROR (tag +:+ "munmap failed: ") st))
      as (Hc & Hs & Hr & Hb & Hp & Hsh & Hpar & Hlog & Hmem).
    cbn in Hc, Hs, Hr, Hb, Hp, Hsh, Hpar, Hlog, Hmem.
    do 7 (split; [done|]). split.
    { rewrite Hlog. rewrite <- app_assoc. done. }
    intros m. rewrite Hmem. split.
    + intros [Hin Hall]. split; [done|]. intros e' He' Hok.
      apply elem_of_cons in He' as [->|He']; [done|]. by apply Hall.
    + intros [Hin Hall]. split; [done|].
      intros e' He'. apply Hall. by apply elem_of_cons; right.
  - apply Z.eqb_neq in Hret. rewrite decide_False by done.
    destruct (IH (unmapped st (bi_data e.2) (bi_size e.2)))
      as (Hc & Hs & Hr & Hb & Hp & Hsh & Hpar & Hlog & Hmem).
    cbn in Hc, Hs, Hr, Hb, Hp, Hsh, Hpar, Hlog, Hmem.
    do 8 (split; [done|]).
    intros m. rewrite Hmem, list_elem_of_filter. split.
    + intros [[Hne Hin] Hall]. split; [done|]. intros e' He' Hok.
      apply elem_of_cons in He' as [->|He']; [done|]. by apply Hall.
    + intros [Hin Hall]. split; [split; [|done]|].
      * apply Hall; [apply list_elem_of_here|done].
      * intros e' He'. apply Hall. by apply elem_of_cons; right.
Qed.

(** The destructor with a camera in [camera_]: it runs to its end, and
    the state it leaves. *)
Lemma destructor_spec st camera :
  camera_ st = Some camera →
  ∃ st', destructor T st = Next st'
    ∧ camera_ st'
      = Some (cam_release T (cam_stop T (set_cam_connected camera false)).2)
    ∧ stream_ st' = stream_ st ∧ requests_ st' = requests_ st
    ∧ buffer_info_ st' = buffer_info_ st ∧ image_pub_ st' = image_pub_ st
    ∧ ros_shutdown st' = ros_shutdown st ∧ parameters_ st' = parameters_ st
    ∧ ros_log st'
      = (ros_log st
         ++ (if (cam_stop T (set_cam_connected camera false)).1 =? 0 then []
             else [(ERROR, tag +:+ "failed to stop camera")]))
        ++ replicate
             (length (filter (λ e : N * buffer_info_t,
                                sys_munmap T (bi_data e.2) (bi_size e.2) = -1)
                        (map_to_list (buffer_info_ st))))
             (ERROR, tag +:+ "munmap failed: ")
    ∧ ∀ m, m ∈ address_space st' ↔
        m ∈ address_space st
        ∧ ∀ k bi, buffer_info_ st !! k = Some bi →
            sys_munmap T (bi_data bi) (bi_size bi) ≠ -1 →
            ¬ (m.1 = bi_data bi ∧ mm_length m.2 = bi_size bi).
Proof.
  intros Hcam. unfold destructor. rewrite Hcam. cbn.
  destruct (cam_stop T (set_cam_connected camera false)) as [ret stopped] eqn:Hstop.
  cbn [fst snd].
  destruct (ret =? 0) eqn:Hret; cbn [negb].
  all: eexists; split; [reflexivity|].
  all: match goal with
       | |- context [destructor_unmap T ?es ?s0] =>
           destruct (destructor_unmap_spec es s0)
             as (Hc & Hs & Hr & Hb & Hp & Hsh & Hpar & Hlog & Hmem)
       end.
  all: cbn [camera_ stream_ requests_ buffer_info_ image_pub_ ros_shutdown
            parameters_ ros_log address_space set_camera_ ROS_ERROR ros_print]
         in Hc, Hs, Hr, Hb, Hp, Hsh, Hpar, Hlog, Hmem |- *.
  all: do 7 (split; [done|]).
  all: split; [rewrite Hlog; by rewrite ?app_nil_r|].
  all: intros m; rewrite Hmem; split.
  all: intros [Hin Hall]; (split; [done|]).
  1,3: intros k bi Hk; apply (Hall (k, bi)); by apply elem_of_map_to_list.
  all: intros [k bi] He; apply (Hall k bi); by apply elem_of_map_to_list.
Qed.

(** X11.  With a camera in [camera_], every mapping on record in
    [buffer_info_] and [munmap] succeeding on the mappings the process
    holds, the destructor runs to its end and leaves no mapping.  The
    completion handler is disconnected before the camera is stopped and
    released; the requests, the entries of [buffer_info_] and what was
    published stay as they were. *)
Theorem destructor_unmaps st camera :
  camera_ st = Some camera →
  mappings_recorded st →
  (∀ a args, (a, args) ∈ address_space st → sys_munmap T a (mm_length args) ≠ -1) →
  ∃ st', destructor T st = Next st'
    ∧ address_space st' = []
    ∧ camera_ st'
      = Some (cam_release T (cam_stop T (set_cam_connected camera false)).2)
    ∧ requests_ st' = requests_ st ∧ buffer_info_ st' = buffer_info_ st
    ∧ image_pub_ st' = image_pub_ st.
Proof.
  intros Hcam Hrec Hok.
  destruct (destructor_spec st camera Hcam)
    as (st' & Hd & Hc & _ & Hr & Hb & Hp & _ & _ & _ & Hmem).
  exists st'. split; [done|]. split; [|done].
  apply elem_of_nil_inv. intros [a args] Hin. apply Hmem in Hin as [Hin Hall].
  destruct (Hrec a args Hin) as (k & bi & Hk & Hdata & Hsize).
  apply (Hall k bi Hk); [|done]. rewrite Hdata, Hsize. by apply Hok.
Qed.

(** X12.  The destructor gives back only what is on record: a mapping
    stays in the address space exactly when no entry of [buffer_info_]
    with its address and its length had its [munmap] succeed; and the log
    gains one error for a failed [stop] and one for each failed
    [munmap]. *)
Theorem destructor_leaves st camera :
  camera_ st = Some camera →
  ∃ st', destructor T st = Next st'
    ∧ (∀ m, m ∈ address_space st' ↔
         m ∈ address_space st
         ∧ ∀ k bi, buffer_info_ st !! k = Some bi →
             sys_munmap T (bi_data bi) (bi_size bi) ≠ -1 →
             ¬ (m.1 = bi_data bi ∧ mm_length m.2 = bi_size bi))
    ∧ ros_log st'
      = (ros_log st
         ++ (if (cam_stop T (set_cam_connected camera false)).1 =? 0 then []
             else [(ERROR, tag +:+ "failed to stop camera")]))
        ++ replicate
             (length (filter (λ e : N * buffer_info_t,
                                sys_munmap T (bi_data e.2) (bi_size e.2) = -1)
                        (map_to_list (buffer_info_ st))))
             (ERROR, tag +:+ "munmap failed: ").
Proof.
  intros Hcam.
  destruct (destructor_spec st camera Hcam)
    as (st' & Hd & _ & _ & _ & _ & _ & _ & _ & Hlog & Hmem).
  by exists st'.
Qed.

End Destructor.

(** ** From the startup to the destructor *)

Section Lifecycle.

Variable U : Utils.
Variable E : Environment.
Variable T : TeardownCalls.

(** X13.  The mappings do not outlive the nodelet.  Take a state whose
    mappings are on record, cameras whose buffers are distinct objects that
    [buffer_info_] does not know yet, and a startup that ended - at its end
    or at one of its returns - with a camera in [camera_].  Then after any
    run of completions, the destructor runs to its end and leaves no
    mapping, provided [munmap] succeeds on the mappings the process
    holds. *)
Theorem mappings_unmapped_at_the_end st st1 evs st2 :
  mappings_recorded st →
  (∀ i c, cameras E !! i = Some (Some c) →
     NoDup (fb_addr <$> cam_buffers c)
     ∧ ∀ b, b ∈ cam_buffers c → buffer_info_ st !! fb_addr b = None) →
  final (onInit U E st) = Some st1 →
  is_Some (camera_ st1) →
  run U st1 evs = Some st2 →
  (∀ a args, (a, args) ∈ address_space st2 → sys_munmap T a (mm_length args) ≠ -1) →
  ∃ st3, destructor T st2 = Next st3 ∧ address_space st3 = [].
Proof.
  intros Hrec Hbufs Hinit Hcam Hrun Hok.
  pose proof (onInit_recorded U E st st1 Hrec Hbufs Hinit) as Hrec1.
  pose proof (run_recorded U evs st1 st2 Hrun Hrec1) as Hrec2.
  destruct (run_keeps U evs st1 st2 Hrun) as (_ & _ & Hcam2).
  destruct (Hcam2 Hcam) as [camera Hc].
  destruct (destructor_spec T st2 camera Hc)
    as (st3 & Hd & _ & _ & _ & _ & _ & _ & _ & _ & Hmem).
  exists st3. split; [done|].
  apply elem_of_nil_inv. intros [a args] Hin. apply Hmem in Hin as [Hin Hall].
  destruct (Hrec2 a args Hin) as (k & bi & Hk & Hdata & Hsize).
  apply (Hall k bi Hk); [|done]. rewrite Hdata, Hsize. by apply Hok.
Qed.

(** X14.  When the startup stops before a camera is selected - a parameter
    is missing, or the manager lists no camera - [camera_] is still null,
    and the destructor, which starts with
    [camera_->requestCompleted.disconnect()], dereferences the null
    pointer. *)
Theorem destructor_after_early_stop st :
  camera_ st = None →
  parameter_missing E ∨ cameras E = [] →
  ∃ st', onInit U E st = Return st'
    ∧ ros_shutdown st' = true
    ∧ destructor T st' = Crash NullDereference.
Proof.
  intros Hnone Hearly. unfold onInit.
  pose proof (onInit_load_parameters_cases E st) as H.
  destruct (onInit_load_parameters E st) as [[l s1]|s1|f]; cbn; [| |done].
  - destruct Hearly as [Hmiss|Hnil].
    { exfalso. unfold parameter_missing in Hmiss.
      destruct H as (H1 & H2 & H3 & H4 & H5 & H6 & H7 & H8 & H9 & H10 & _).
      destruct_or!; congruence. }
    destruct H as (_ & _ & _ & _ & _ & _ & _ & _ & _ & _ & _ & _ & _ & Hres).
    unfold onInit_select_camera. rewrite bool_decide_eq_true_2 by done. cbn.
    eexists. split; [reflexivity|]. split; [done|].
    unfold destructor. cbn. destruct Hres as (-> & _). by rewrite Hnone.
  - destruct H as (_ & Hsh & _ & _ & Hres).
    exists s1. split; [done|]. split; [done|].
    unfold destructor. destruct Hres as (-> & _). by rewrite Hnone.
Qed.

End Lifecycle.

(** ** The frames *)

Section Frames.

Variable U : Utils.

(** X15.  Without stride removal, a completed request on a raw format
    whose buffer is on record with the size the metadata reports, and whose
    mapping can be read, publishes one image: its data are the bytes of the
    mapping, all of them and in their order, its step is the stride of the
    stream, its width, height and encoding are those of the configuration,
    and its header carries [frame_id_]; the camera info goes out with the
    same header and the calibration of the camera info manager.  The
    request is then queued again. *)
Theorem requestComplete_publishes_buffer st mem now request buffer stream bi cinfo
    camera data :
  let cfg := configuration stream in
  status request = RequestComplete →
  size (buffers request) = 1%nat →
  findBuffer request (stream_ st) = Some buffer →
  stream_ st = Some stream →
  format_type U (pixelFormat cfg) = RAW →
  remove_stride_ st = false →
  buffer_info_ st !! fb_addr buffer = Some bi →
  bi_size bi = bytesused_sum (metadata buffer) →
  cinfo_ st = Some cinfo → camera_ st = Some camera →
  read_bytes mem (bi_data bi) (Z.to_nat (bi_size bi)) = Some data →
  ∃ st' img ci,
    requestComplete U st mem now request = Next st'
    ∧ image_pub_ st' = image_pub_ st ++ [(img, ci)]
    ∧ img_data img = data ∧ img_step img = stride cfg
    ∧ img_width img = width cfg ∧ img_height img = height cfg
    ∧ img_encoding img = get_ros_encoding U (pixelFormat cfg)
    ∧ img_is_bigendian img = byte_order_big_endian U
    ∧ frame_id (img_header img) = frame_id_ st
    ∧ cinfo_header ci = img_header img
    ∧ cinfo_calibration ci = cinfo_calibration (getCameraInfo cinfo)
    ∧ camera_ st' = Some (queueRequest camera (reuse request ReuseBuffers)).
Proof.
  intros cfg Hst Hsz Hbuf Hstream Hraw Hrs Hbi Hsize Hci Hcam Hread.
  unfold requestComplete. rewrite Hst. cbn.
  rewrite bool_decide_eq_true_2 by done. cbn. rewrite Hbuf. cbn.
  pose proof (requestComplete_stamp_spec st now (timestamp (metadata buffer))) as Hsp.
  cbn in Hsp.
  destruct (requestComplete_stamp st now (timestamp (metadata buffer))) as [st1 stamp1].
  cbn in Hsp. destruct Hsp as (Hc1 & Hi1 & Hp1 & _ & Hb1 & Hsm1 & _).
  destruct Hsm1 as (_ & _ & Hs1 & _ & Hr1 & _ & Hf1 & _).
  rewrite Hs1, Hstream. cbn. fold cfg. rewrite Hraw.
  unfold requestComplete_raw, buffer_info_index. rewrite Hb1, Hbi.
  rewrite Hsize, Z.eqb_refl. cbn. rewrite Hr1, Hrs. cbn.
  unfold memcpy. rewrite <- Hsize, Hread.
  assert (Hlen : length (resize (bi_size bi)) = Z.to_nat (bi_size bi)).
  { unfold resize. by rewrite length_replicate. }
  assert (Hfit : (0 <=? 0) && (0 + bi_size bi <=? Z.of_nat (length (resize (bi_size bi))))
                 = true).
  { rewrite Hlen. apply andb_true_intro. split; [done|]. apply Z.leb_le. lia. }
  rewrite Hfit. cbn. rewrite Hi1, Hci. cbn. rewrite Hc1, Hcam. cbn.
  eexists _, _, _. split; [reflexivity|]. cbn. rewrite Hp1.
  split; [reflexivity|]. cbn. rewrite Hf1.
  split; [|done].
  rewrite drop_ge by (rewrite Hlen; lia). by rewrite app_nil_r.
Qed.

(** X17.  Whatever the request, a call of the handler that does not crash
    leaves the staged controls, the ids, the stream, the settings, the
    camera info manager and the mappings as they were, and requests no
    shutdown; it forgets no entry of [buffer_info_]; it publishes one image
    at most, and none unless the request is complete; and all it does to
    the camera is to queue the request again.  The request itself - an
    object of the pool - does not stay as it was: it is queued as [reuse]
    leaves it, pending, with an empty control list and its buffers. *)
Theorem requestComplete_keeps st mem now request st' :
  final (requestComplete U st mem now request) = Some st' →
  same_members st st'
  ∧ buffer_info_ st ⊆ buffer_info_ st'
  ∧ (image_pub_ st' = image_pub_ st
     ∨ ∃ img ci, status request = RequestComplete
                 ∧ image_pub_ st' = image_pub_ st ++ [(img, ci)])
  ∧ status (reuse request ReuseBuffers) = RequestPending
  ∧ controls (reuse request ReuseBuffers) = ∅
  ∧ buffers (reuse request ReuseBuffers) = buffers request
  ∧ (camera_ st' = camera_ st
     ∨ ∃ camera, camera_ st = Some camera
         ∧ camera_ st' = Some (queueRequest camera (reuse request ReuseBuffers))).
Proof.
  intros Hfin.
  enough (same_members st st'
          ∧ buffer_info_ st ⊆ buffer_info_ st'
          ∧ (image_pub_ st' = image_pub_ st
             ∨ ∃ img ci, status request = RequestComplete
                         ∧ image_pub_ st' = image_pub_ st ++ [(img, ci)])
          ∧ (camera_ st' = camera_ st
             ∨ ∃ camera, camera_ st = Some camera
                 ∧ camera_ st'
                   = Some (queueRequest camera (reuse request ReuseBuffers))))
    as (? & ? & ? & ?) by done.
  split; [|split; [by eapply requestComplete_buffer_info|]].
  - destruct (decide (status request = RequestComplete)) as [Hc|Hc].
    + by destruct (requestComplete_complete_final U _ _ _ _ _ Hc Hfin)
        as (b & stream & _ & _ & _ & Hm & _).
    + by destruct (requestComplete_other_final U _ _ _ _ _ Hc Hfin) as (Hm & _).
  - destruct (decide (status request = RequestComplete)) as [Hc|Hc].
    + destruct (requestComplete_complete_final U _ _ _ _ _ Hc Hfin)
        as (b & stream & _ & _ & _ & _ & _ & _ & Hcase).
      destruct Hcase as [(_ & _ & Hp & Hcam & _)
                        |(_ & _ & _ & img & ci & c & Hp & _ & _ & Hcam & Hcam')].
      * split; by left.
      * split; right; eauto.
    + destruct (requestComplete_other_final U _ _ _ _ _ Hc Hfin)
        as (_ & _ & _ & Hp & _ & c & Hcam & Hcam').
      split; [by left|right; eauto].
Qed.

(** X18.  On a stream with a raw format, a run of completions publishes one
    image for each completed request, and nothing else: what was published
    before stays first, and as many images follow as the run had requests
    with status complete, each with a camera info that carries the header
    of its image. *)
Theorem run_publishes_one_image_per_frame evs st st' stream :
  stream_ st = Some stream →
  format_type U (pixelFormat (configuration stream)) = RAW →
  run U st evs = Some st' →
  ∃ imgs,
    image_pub_ st' = image_pub_ st ++ imgs
    ∧ length imgs
      = length (filter (λ e, status (ev_request e) = RequestComplete) evs)
    ∧ Forall (λ p : Image * CameraInfo, cinfo_header p.2 = img_header p.1) imgs.
Proof.
  intros Hstream Hraw. revert st Hstream.
  induction evs as [|e evs IH]; intros st Hstream Hrun.
  { injection Hrun as <-. exists []. by rewrite app_nil_r. }
  apply run_cons in Hrun as (s1 & Hstep & Hrest).
  rewrite filter_cons.
  destruct (decide (status (ev_request e) = RequestComplete)) as [Hc|Hc].
  - destruct (requestComplete_complete_final U _ _ _ _ _ Hc Hstep)
      as (b & stream' & _ & _ & Hstream' & Hm & _ & _ & Hcase).
    assert (stream' = stream) as -> by congruence.
    destruct Hcase as [(Hn & _)|(_ & _ & _ & img & ci & c & Hp & _ & Hhdr & _)];
      [congruence|].
    assert (Hs1 : stream_ s1 = Some stream).
    { destruct Hm as (_ & _ & -> & _). done. }
    destruct (IH s1 Hs1 Hrest) as (imgs & Hpub & Hlen & Hall).
    exists ((img, ci) :: imgs). rewrite Hpub, Hp, <- app_assoc. cbn.
    split; [done|]. split; [by rewrite Hlen|]. by constructor.
  - destruct (requestComplete_other_final U _ _ _ _ _ Hc Hstep)
      as (Hm & _ & _ & Hp & _).
    assert (Hs1 : stream_ s1 = Some stream).
    { destruct Hm as (_ & _ & -> & _). done. }
    destruct (IH s1 Hs1 Hrest) as (imgs & Hpub & Hlen & Hall).
    exists imgs. rewrite Hpub, Hp. done.
Qed.

End Frames.

(** ** The selection of the camera *)

Section Selection.

Variable E : Environment.

Lemma mapM_cam_id (cs : list (option Camera)) :
  Forall is_Some cs →
  ∃ names : list string,
    mapM (M:=Result State) (λ c : option Camera, deref (cam_id <$> c)) cs = Next names
    ∧ length names = length cs
    ∧ ∀ j c, cs !! j = Some (Some c) → names !! j = Some (cam_id c).
Proof.
  induction cs as [|c cs IH]; intros Hall.
  { exists []. by split. }
  apply Forall_cons in Hall as [[c0 ->] Hall].
  destruct (IH Hall) as (names & Hm & Hlen & Hnames).
  exists (cam_id c0 :: names). cbn. cbn in Hm. rewrite Hm. cbn.
  split; [done|]. split; [by rewrite Hlen|].
  intros [|j] c; cbn; [by intros [= ->]|by apply Hnames].
Qed.

Lemma find_camera_first name names k c :
  names !! k = Some c →
  is_Some (String.index 0 name c) →
  (∀ j c', (j < k)%nat → names !! j = Some c' → String.index 0 name c' = None) →
  find_camera name names 0 = Some (Z.of_nat k).
Proof.
  intros Hk Hin Hfirst.
  pose proof (find_camera_spec name names 0) as Hspec.
  destruct (find_camera name names 0) as [j|].
  - destruct Hspec as (k' & c' & -> & Hk' & Hin' & Hfirst').
    f_equal. enough (k' = k) by lia.
    destruct (lt_eq_lt_dec k k') as [[Hlt|Heq]|Hgt]; [|done|].
    + rewrite (Hfirst' k c Hlt Hk) in Hin. by destruct Hin.
    + rewrite (Hfirst k' c' Hgt Hk') in Hin'. by destruct Hin'.
  - rewrite (Hspec k c Hk) in Hin. by destruct Hin.
Qed.

(** The names the search goes through are the ids of the cameras. *)
Lemma mapM_cam_id_inv (cs : list (option Camera)) names j name :
  Forall is_Some cs →
  mapM (M:=Result State) (λ c : option Camera, deref (cam_id <$> c)) cs = Next names →
  names !! j = Some name →
  ∃ c, cs !! j = Some (Some c) ∧ name = cam_id c.
Proof.
  intros Hall Hm Hj.
  destruct (mapM_cam_id cs Hall) as (names' & Hm' & Hlen & Hnames).
  assert (names' = names) as -> by congruence.
  assert (Hlt : (j < length cs)%nat).
  { rewrite <- Hlen. by eapply lookup_lt_Some. }
  destruct (lookup_lt_is_Some_2 _ _ Hlt) as [oc Hoc].
  rewrite Forall_forall in Hall.
  destruct (Hall oc (list_elem_of_lookup_2 _ _ _ Hoc)) as [c ->].
  exists c. split; [done|]. rewrite (Hnames j c Hoc) in Hj. congruence.
Qed.

(** X19.  With a camera name, the name is tried first: when the manager
    lists a camera whose id contains the name, the first such camera is
    chosen, whatever camera_id says.  When no listed id contains the name,
    nothing is reported and the choice falls back to camera_id, read as an
    unsigned index: an id that is negative or not below the number of
    cameras stops the startup at an error and leaves [camera_] as it was,
    an id in range chooses the camera listed at that index.  The chosen
    camera is put in [camera_]; the startup goes on if its [acquire]
    succeeds and stops at an error otherwise. *)
Theorem onInit_select_camera_by_name l st :
  camera_name l ≠ EmptyString →
  Forall is_Some (cameras E) →
  Z.of_nat (length (cameras E)) ≤ INT_MAX →
  -2 ^ 63 ≤ camera_id l < 2 ^ 63 →
  (∀ k c,
     cameras E !! k = Some (Some c) →
     is_Some (String.index 0 (camera_name l) (cam_id c)) →
     (∀ j c', (j < k)%nat → cameras E !! j = Some (Some c') →
              String.index 0 (camera_name l) (cam_id c') = None) →
     ∃ st',
       (if decide (cam_acquire c = 0)
        then onInit_select_camera E l st = Next st'
        else onInit_select_camera E l st = Return st' ∧ stopped_with_error st')
       ∧ camera_ st' = Some c)
  ∧ ((∀ k c, cameras E !! k = Some (Some c) →
             String.index 0 (camera_name l) (cam_id c) = None) →
     (¬ (0 ≤ camera_id l < Z.of_nat (length (cameras E))) →
      ∃ st', onInit_select_camera E l st = Return st'
        ∧ stopped_with_error st' ∧ camera_ st' = camera_ st)
     ∧ (∀ c, 0 ≤ camera_id l < Z.of_nat (length (cameras E)) →
          cameras E !! Z.to_nat (camera_id l) = Some (Some c) →
          ∃ st',
            (if decide (cam_acquire c = 0)
             then onInit_select_camera E l st = Next st'
             else onInit_select_camera E l st = Return st'
                  ∧ stopped_with_error st')
            ∧ camera_ st' = Some c)).
Proof.
  intros Hname Hall Hmax Hint.
  destruct (mapM_cam_id (cameras E) Hall) as (names & Hm & Hlen & Hnames).
  apply String.eqb_neq in Hname.
  assert (Hrange : ∀ cid, 0 ≤ cid < Z.of_nat (length (cameras E)) →
            (Z.of_nat (length (cameras E)) <=? wrap_size cid) = false).
  { intros cid Hin. apply Z.leb_gt. unfold wrap_size. unfold INT_MAX in Hmax.
    rewrite Z.mod_small by lia. lia. }
  split.
  - intros k c Hk Hin Hfirst.
    assert (Hfind : find_camera (camera_name l) names 0 = Some (Z.of_nat k)).
    { apply (find_camera_first _ _ k (cam_id c)); [by apply Hnames|done|].
      intros j name Hlt Hj.
      destruct (mapM_cam_id_inv _ _ _ _ Hall Hm Hj) as (cj & Hcj & ->).
      by eapply Hfirst. }
    pose proof (lookup_lt_Some _ _ _ Hk) as Hlt.
    unfold onInit_select_camera.
    rewrite bool_decide_eq_false_2 by (intros Hnil; by rewrite Hnil in Hk).
    rewrite Hname. cbn. rewrite Hm. cbn. rewrite Hfind. cbn.
    rewrite Hrange by lia. cbn. rewrite Nat2Z.id, Hk. cbn.
    destruct (decide (cam_acquire c = 0)) as [Hacq|Hacq].
    + rewrite Hacq. cbn. by eexists.
    + apply Z.eqb_neq in Hacq. rewrite Hacq. cbn.
      eexists. split; [split; [reflexivity|]|done]. stop_tac.
  - intros Hnone.
    assert (Hfind : find_camera (camera_name l) names 0 = None).
    { pose proof (find_camera_spec (camera_name l) names 0) as Hspec.
      destruct (find_camera (camera_name l) names 0) as [j|]; [|done].
      destruct Hspec as (k & name & _ & Hk & Hin & _).
      destruct (mapM_cam_id_inv _ _ _ _ Hall Hm Hk) as (c & Hc & ->).
      rewrite (Hnone k c Hc) in Hin. by destruct Hin. }
    split.
    + intros Hout. unfold onInit_select_camera.
      case_bool_decide as Hnil.
      { eexists. split; [reflexivity|]. split; [stop_tac|done]. }
      rewrite Hname. cbn. rewrite Hm. cbn. rewrite Hfind. cbn.
      assert (Hfar : (Z.of_nat (length (cameras E)) <=? wrap_size (camera_id l))
                     = true).
      { apply Z.leb_le. unfold wrap_size. unfold INT_MAX in Hmax.
        destruct (decide (camera_id l < 0)) as [Hneg|Hpos].
        - replace (camera_id l mod 2 ^ 64) with (camera_id l + 2 ^ 64); [lia|].
          apply Z.mod_unique with (-1); lia.
        - rewrite Z.mod_small by lia. lia. }
      rewrite Hfar. eexists. split; [reflexivity|]. split; [stop_tac|done].
    + intros c Hin Hc. unfold onInit_select_camera.
      rewrite bool_decide_eq_false_2 by (intros Hnil; by rewrite Hnil in Hc).
      rewrite Hname. cbn. rewrite Hm. cbn. rewrite Hfind. cbn.
      rewrite Hrange by done. cbn. rewrite Hc. cbn.
      destruct (decide (cam_acquire c = 0)) as [Hacq|Hacq].
      * rewrite Hacq. cbn. by eexists.
      * apply Z.eqb_neq in Hacq. rewrite Hacq. cbn.
        eexists. split; [split; [reflexivity|]|done]. stop_tac.
Qed.

(** X20.  Without a camera name, the camera is chosen by camera_id, read as
    an unsigned index: an id that is negative or not below the number of
    cameras stops the startup at an error and leaves [camera_] as it was;
    an id in range selects the camera the manager lists at that index. *)
Theorem onInit_select_camera_by_id l st :
  camera_name l = EmptyString →
  cameras E ≠ [] →
  Z.of_nat (length (cameras E)) ≤ INT_MAX →
  -2 ^ 63 ≤ camera_id l < 2 ^ 63 →
  (¬ (0 ≤ camera_id l < Z.of_nat (length (cameras E))) →
   ∃ st', onInit_select_camera E l st = Return st'
     ∧ stopped_with_error st' ∧ camera_ st' = camera_ st)
  ∧ (0 ≤ camera_id l < Z.of_nat (length (cameras E)) →
     ∀ c, cameras E !! Z.to_nat (camera_id l) = Some (Some c) →
     cam_acquire c = 0 →
     ∃ st', onInit_select_camera E l st = Next st' ∧ camera_ st' = Some c).
Proof.
  intros Hname Hnil Hmax Hint.
  unfold onInit_select_camera.
  rewrite bool_decide_eq_false_2 by done.
  rewrite Hname. cbn. unfold INT_MAX in Hmax.
  split.
  - intros Hout.
    assert (Hrange : (Z.of_nat (length (cameras E)) <=? wrap_size (camera_id l)) = true).
    { apply Z.leb_le. unfold wrap_size.
      destruct (decide (camera_id l < 0)) as [Hneg|Hpos].
      - replace (camera_id l mod 2 ^ 64) with (camera_id l + 2 ^ 64); [lia|].
        apply Z.mod_unique with (-1); lia.
      - rewrite Z.mod_small by lia. lia. }
    rewrite Hrange. eexists. split; [reflexivity|].
    split; [|done]. unfold stopped_with_error. cbn. rewrite last_snoc.
    split; [done|by eexists].
  - intros Hin c Hc Hacq.
    assert (Hrange : (Z.of_nat (length (cameras E)) <=? wrap_size (camera_id l)) = false).
    { apply Z.leb_gt. unfold wrap_size. rewrite Z.mod_small by lia. lia. }
    rewrite Hrange. cbn. rewrite Hc. cbn. rewrite Hacq. cbn. by eexists.
Qed.

End Selection.

(** * The further properties on the sample camera *)

Lemma onInit_parameter_missing_witness :
  ∃ st', onInit utils env_without_camera_id State_init = Return st'
         ∧ ros_shutdown st' = true ∧ camera_ st' = None.
Proof.
  destruct (onInit_parameter_missing utils env_without_camera_id State_init)
    as (st' & H & Hsh & _ & Hres & _).
  - right; left. reflexivity.
  - exists st'. split; [exact H|]. split; [exact Hsh|].
    destruct Hres as (Hc & _). exact Hc.
Defined.

Lemma onInit_configured_witness :
  ∃ st' l c scfg,
    onInit utils env_plain State_init = Next st'
    ∧ parameters_loaded env_plain l st'
    ∧ camera_ st' = Some c
    ∧ stream_ st' = Some {| stream_addr := cam_stream c; configuration := scfg |}.
Proof.
  destruct (onInit utils env_plain State_init) as [st'|r|f] eqn:H;
    [|by vm_compute in H..].
  destruct (onInit_configured utils env_plain State_init st' H)
    as (l & c0 & c & scfg & Hl & _ & _ & Hc & _ & _ & Hs).
  by exists st', l, c, scfg.
Defined.

Lemma onInit_return_stops_witness :
  ∃ st', onInit utils env_without_descriptor State_init = Return st'
         ∧ stopped_with_error st'
         ∧ camera_not_started env_without_descriptor State_init st'.
Proof.
  destruct (onInit utils env_without_descriptor State_init) as [r|st'|f] eqn:H;
    [by vm_compute in H| |by vm_compute in H].
  destruct (onInit_return_stops utils env_without_descriptor State_init st' H)
    as (Hs & Hc & _).
  by exists st'.
Defined.

Lemma onInit_started_witness :
  ∃ st' c0,
    onInit utils env_plain State_init = Next st'
    ∧ Some c0 ∈ cameras env_plain
    ∧ camera_ st'
      = Some (set_cam_queue (set_cam_running (set_cam_connected c0 true) true)
                (cam_queue c0 ++ requests_ st')).
Proof.
  destruct (onInit utils env_plain State_init) as [st'|r|f] eqn:H;
    [|by vm_compute in H..].
  destruct (onInit_started utils env_plain State_init st' H)
    as (c0 & Hin & _ & _ & Hc & _).
  by exists st', c0.
Defined.

Lemma onInit_pool_witness :
  ∃ st' c rs,
    onInit utils env_plain State_init = Next st'
    ∧ camera_ st' = Some c
    ∧ requests_ st' = requests_ State_init ++ rs
    ∧ length rs = length (cam_buffers c).
Proof.
  destruct (onInit utils env_plain State_init) as [st'|r|f] eqn:H;
    [|by vm_compute in H..].
  destruct (onInit_pool utils env_plain State_init st' H)
    as (c & rs & Hc & Hr & Hl & _).
  by exists st', c, rs.
Defined.

Lemma onInit_mappings_witness :
  ∃ st' c ms,
    onInit utils env_plain State_init = Next st'
    ∧ camera_ st' = Some c
    ∧ address_space st' = address_space State_init ++ ms
    ∧ length ms = length (cam_buffers c).
Proof.
  destruct (onInit utils env_plain State_init) as [st'|r|f] eqn:H;
    [|by vm_compute in H..].
  destruct (onInit_mappings utils env_plain State_init st' H)
    as (c & ms & Hc & Hr & Hl & _).
  by exists st', c, ms.
Defined.

Lemma declareControlParameters_declares_witness :
  ∃ st',
    declareControlParameters utils acquired = Next st'
    ∧ (∃ id', parameter_ids_ st' !! "ExposureTime" = Some (Some id'))
    ∧ ∀ value, ∃ b st'',
        updateControlParameter utils st' value ExposureTime = Return (b, st'').
Proof.
  destruct (declareControlParameters utils acquired) as [st'|r|f] eqn:H;
    [|by vm_compute in H..].
  destruct (declareControlParameters_declares utils acquired st'
              (camera declared [buffer 0] RGB888 2) eq_refl eq_refl H)
    as (Hdecl & Hupd & _).
  exists st'. split; [reflexivity|].
  destruct (Hdecl ExposureTime ExposureTime_info) as (_ & id' & Hid & _).
  { apply list_elem_of_here. }
  { by eexists. }
  split; [by exists id'|].
  intros value. apply (Hupd "ExposureTime").
  injection H as <-. reflexivity.
Defined.

Lemma updateControlParameter_accepts_witness :
  ∃ b st',
    updateControlParameter utils (streaming RGB888 2 false false)
      (int32 2000000) ExposureTime = Return (b, st')
    ∧ (b = true ↔
       isNone (int32 2000000) = false
       ∧ cv_type (int32 2000000) = cid_type ExposureTime
       ∧ (cv_isArray (int32 2000000) = true → 0 < 0 →
          Z.of_nat (numElements (int32 2000000)) = 0)
       ∧ in_range utils ExposureTime_info (int32 2000000)).
Proof.
  destruct (updateControlParameter_accepts utils (streaming RGB888 2 false false)
              (running_camera RGB888 2) (int32 2000000) ExposureTime
              ExposureTime_info 0 eq_refl eq_refl eq_refl)
    as (b & st' & Hret & Hiff & _).
  by exists b, st'.
Defined.



Lemma mappings_recorded_streaming :
  mappings_recorded (streaming RGB888 2 false false).
Proof.
  intros a args Hin. unfold streaming in Hin. cbn [address_space] in Hin.
  apply list_elem_of_singleton in Hin. injection Hin as -> ->.
  exists 100%N, {| bi_data := 4096; bi_size := 16 |}. by split.
Defined.

Lemma destructor_unmaps_witness :
  ∃ st', destructor teardown (streaming RGB888 2 false false) = Next st'
         ∧ address_space st' = [].
Proof.
  destruct (destructor_unmaps teardown (streaming RGB888 2 false false)
              (running_camera RGB888 2) eq_refl mappings_recorded_streaming)
    as (st' & Hd & Hnil & _).
  - intros a args _. discriminate.
  - by exists st'.
Defined.

Lemma destructor_leaves_witness :
  ∃ st', destructor teardown (streaming RGB888 2 false false) = Next st'
         ∧ ∀ m, m ∈ address_space st' ↔
             m ∈ address_space (streaming RGB888 2 false false)
             ∧ ∀ k bi,
                 buffer_info_ (streaming RGB888 2 false false) !! k = Some bi →
                 sys_munmap teardown (bi_data bi) (bi_size bi) ≠ -1 →
                 ¬ (m.1 = bi_data bi ∧ mm_length m.2 = bi_size bi).
Proof.
  destruct (destructor_leaves teardown (streaming RGB888 2 false false)
              (running_camera RGB888 2) eq_refl) as (st' & Hd & Hmem & _).
  by exists st'.
Defined.

Lemma destructor_after_early_stop_witness :
  ∃ st', onInit utils env_without_camera_id State_init = Return st'
         ∧ destructor teardown st' = Crash NullDereference.
Proof.
  destruct (destructor_after_early_stop utils env_without_camera_id teardown
              State_init eq_refl) as (st' & H & _ & Hd).
  - left. right; left. reflexivity.
  - by exists st'.
Defined.

Lemma requestComplete_publishes_buffer_witness :
  ∃ st' img ci data,
    requestComplete utils (streaming RGB888 2 false false) (memory 4096 16) 0
      (request RequestComplete 1000) = Next st'
    ∧ read_bytes (memory 4096 16) 4096 16 = Some data
    ∧ image_pub_ st' = [(img, ci)]
    ∧ img_data img = data ∧ img_step img = 8.
Proof.
  destruct (read_bytes (memory 4096 16) 4096 16) as [data|] eqn:Hread;
    [|by vm_compute in Hread].
  destruct (requestComplete_publishes_buffer utils (streaming RGB888 2 false false)
              (memory 4096 16) 0 (request RequestComplete 1000) (buffer 1000)
              (stream RGB888 2) {| bi_data := 4096; bi_size := 16 |}
              {| cim_cname := "imx219"; cim_url := "file:///calib.yaml" |}
              (running_camera RGB888 2) data
              eq_refl eq_refl eq_refl eq_refl eq_refl eq_refl eq_refl eq_refl
              eq_refl eq_refl Hread)
    as (st' & img & ci & Hnext & Hpub & Hdata & Hstep & _).
  by exists st', img, ci, data.
Defined.

Lemma requestComplete_stride_removed_witness :
  ∃ st' img ci,
    requestComplete utils (streaming RGB888 2 true false) (memory 4096 16) 0
      (request RequestComplete 1000) = Next st'
    ∧ image_pub_ st' = [(img, ci)]
    ∧ img_step img = 6
    ∧ Z.of_nat (length (img_data img)) = 12.
Proof.
  destruct (read_bytes (memory 4096 16) (4096 + 0 * 8) 6) as [row0|] eqn:H0;
    [|by vm_compute in H0].
  destruct (read_bytes (memory 4096 16) (4096 + 1 * 8) 6) as [row1|] eqn:H1;
    [|by vm_compute in H1].
  destruct (requestComplete_stride_removed utils (streaming RGB888 2 true false)
              (memory 4096 16) 0 (request RequestComplete 1000) (buffer 1000)
              (stream RGB888 2) {| bi_data := 4096; bi_size := 16 |}
              {| cim_cname := "imx219"; cim_url := "file:///calib.yaml" |}
              (running_camera RGB888 2) [row0; row1]
              eq_refl eq_refl eq_refl eq_refl eq_refl eq_refl eq_refl eq_refl
              eq_refl eq_refl)
    as (st' & img & ci & Hnext & Hpub & Hstep & Hlen & _);
    try (cbn; unfold INT_MAX; lia).
  - by repeat constructor.
  - by exists st', img, ci.
Defined.

Lemma requestComplete_keeps_witness :
  ∃ st',
    requestComplete utils (streaming RGB888 2 false false) (memory 4096 16) 0
      (request RequestCancelled 1000) = Next st'
    ∧ same_members (streaming RGB888 2 false false) st'
    ∧ image_pub_ st' = [].
Proof.
  destruct (requestComplete utils (streaming RGB888 2 false false) (memory 4096 16) 0
              (request RequestCancelled 1000)) as [st'|r|f] eqn:H;
    [|by vm_compute in H..].
  destruct (requestComplete_keeps utils (streaming RGB888 2 false false)
              (memory 4096 16) 0 (request RequestCancelled 1000) st')
    as (Hm & _ & Hpub & _).
  - by rewrite H.
  - exists st'. split; [reflexivity|]. split; [exact Hm|].
    destruct Hpub as [Hp|(img & ci & Hst & _)]; [exact Hp|discriminate Hst].
Defined.

Lemma run_publishes_one_image_per_frame_witness :
  ∃ st' imgs,
    run utils (streaming RGB888 2 false true) completions = Some st'
    ∧ image_pub_ st' = imgs ∧ length imgs = 2%nat.
Proof.
  destruct (run utils (streaming RGB888 2 false true) completions) as [st'|] eqn:Hrun;
    [|by vm_compute in Hrun].
  destruct (run_publishes_one_image_per_frame utils completions
              (streaming RGB888 2 false true) st' (stream RGB888 2)
              eq_refl eq_refl Hrun) as (imgs & Hpub & Hlen & _).
  exists st', imgs. split; [reflexivity|]. split; [exact Hpub|exact Hlen].
Defined.

Lemma onInit_select_camera_by_name_witness :
  (∃ st', onInit_select_camera env_two_cameras locals State_init = Next st'
          ∧ camera_ st' = Some (camera declared [buffer 0] RGB888 2))
  ∧ (∃ st', onInit_select_camera env_two_cameras locals_other_name State_init
            = Next st'
            ∧ camera_ st' = Some other_camera).
Proof.
  split.
  - destruct (proj1 (onInit_select_camera_by_name env_two_cameras locals State_init
                       ltac:(discriminate) ltac:(by repeat constructor)
                       ltac:(vm_compute; discriminate) ltac:(cbn; lia))
                1%nat (camera declared [buffer 0] RGB888 2))
      as (st' & Hsel & Hcam).
    + reflexivity.
    + by eexists.
    + intros [|j] c' Hlt Hj; [|lia]. injection Hj as <-. reflexivity.
    + exists st'. split; [exact Hsel|exact Hcam].
  - assert (Hnone : ∀ k c, cameras env_two_cameras !! k = Some (Some c) →
                String.index 0 (camera_name locals_other_name) (cam_id c) = None).
    { intros [|[|k]] c Hk; [| |done]; injection Hk as <-; reflexivity. }
    destruct (proj2 (proj2 (onInit_select_camera_by_name env_two_cameras
                              locals_other_name State_init
                              ltac:(discriminate) ltac:(by repeat constructor)
                              ltac:(vm_compute; discriminate) ltac:(cbn; lia))
                       Hnone) other_camera)
      as (st' & Hsel & Hcam).
    + cbn. lia.
    + reflexivity.
    + exists st'. split; [exact Hsel|exact Hcam].
Defined.

Lemma onInit_select_camera_by_id_witness :
  (∃ st', onInit_select_camera env_two_cameras (locals_by_id (-1)) State_init
          = Return st' ∧ stopped_with_error st')
  ∧ (∃ st', onInit_select_camera env_two_cameras (locals_by_id 1) State_init
            = Next st'
            ∧ camera_ st' = Some (camera declared [buffer 0] RGB888 2)).
Proof.
  split.
  - destruct (proj1 (onInit_select_camera_by_id env_two_cameras (locals_by_id (-1))
                       State_init eq_refl ltac:(discriminate)
                       ltac:(vm_compute; discriminate) ltac:(cbn; lia)))
      as (st' & Hret & Hstop & _).
    + cbn. lia.
    + by exists st'.
  - apply (proj2 (onInit_select_camera_by_id env_two_cameras (locals_by_id 1)
                    State_init eq_refl ltac:(discriminate)
                    ltac:(vm_compute; discriminate) ltac:(cbn; lia))).
    + cbn. lia.
    + reflexivity.
    + reflexivity.
Defined.

Lemma declareControlParameters_stops_at_mismatch_witness :
  ∃ st',
    declareControlParameters utils
      (set_camera_ State_init
         (Some (camera [(ExposureTime, mismatched_info)] [buffer 0] RGB888 2)))
    = Return st'
    ∧ stopped_with_error st'
    ∧ parameter_ids_ st' !! "ExposureTime" = Some (Some ExposureTime).
Proof.
  pose proof (declareControlParameters_stops_at_mismatch utils
                (set_camera_ State_init
                   (Some (camera [(ExposureTime, mismatched_info)] [buffer 0] RGB888 2)))
                (camera [(ExposureTime, mismatched_info)] [buffer 0] RGB888 2)
                eq_refl) as H.
  destruct (declareControlParameters utils _) as [st'|st'|f] eqn:Hd;
    [by vm_compute in Hd| |by vm_compute in Hd].
  destruct H as (Hstop & _).
  exists st'. split; [reflexivity|]. split; [exact Hstop|].
  injection Hd as <-. reflexivity.
Defined.

Lemma onInit_prepares_handler_witness :
  ∃ st',
    onInit utils env_plain State_init = Next st'
    ∧ ∀ r, r ∈ requests_ st' → size (buffers r) = 1%nat.
Proof.
  destruct (onInit utils env_plain State_init) as [st'|r|f] eqn:H;
    [|by vm_compute in H..].
  destruct (onInit_prepares_handler utils env_plain State_init st' H eq_refl)
    as (_ & _ & Hpool).
  - intros c n request0 Hc Hcreate.
    apply list_elem_of_singleton in Hc. injection Hc as ->.
    injection Hcreate as <-. reflexivity.
  - exists st'. split; [reflexivity|]. intros r Hr. by destruct (Hpool r Hr).
Defined.

Lemma onInit_initialized : onInit utils env_plain State_init = Next initialized.
Proof. vm_compute. reflexivity. Qed.

Lemma mappings_unmapped_at_the_end_witness :
  ∃ st2 st3,
    onInit utils env_plain State_init = Next initialized
    ∧ run utils initialized completions = Some st2
    ∧ destructor teardown st2 = Next st3
    ∧ address_space st3 = [].
Proof.
  destruct (run utils initialized completions) as [st2|] eqn:Hrun;
    [|by vm_compute in Hrun].
  destruct (mappings_unmapped_at_the_end utils env_plain teardown
              State_init initialized completions st2) as (st3 & Hd & Hnil).
  - intros a args Hin. by apply elem_of_nil in Hin.
  - intros [|i] c Hc; [|by destruct i].
    injection Hc as <-. split; [apply NoDup_singleton|]. intros b _. apply lookup_empty.
  - by rewrite onInit_initialized.
  - by eexists.
  - exact Hrun.
  - intros a args _. discriminate.
  - exists st2, st3. split; [exact onInit_initialized|]. by split.
Defined.
